(** * Stock_Analysis: the scoring and prediction engine

    A shallow embedding of [src/stock_scorer.py] (class [StockScorer]),
    [src/predictor.py] (class [StockPredictor]), [src/sentiment_analyzer.py]
    and the selection logic of [src/stock_analyzer.py], and the properties
    of the engine's specification that are stated over them.

    Numbers.  The score combiner and the target-price calculator take
    Python floats and are evaluated in IEEE 754 binary64: a float is the
    rational it denotes, every operation returns the exact result rounded
    to the nearest binary64 number ([binary64]), and a decimal literal of
    the source ([0.35], [0.92], ...) is the binary64 number nearest to it
    ([literal]).  The module [Binary64] repeats both functions on the
    kernel's primitive floats, and the rounding model is checked against it
    on the concrete inputs used below.

    The scorers and predictors that work on pandas columns are idealised
    over exact rationals: their properties are about point tallies, tiers
    and ranges.  Values that live in a pandas column or come out of numpy
    arithmetic may be [nan] or an infinity, because numpy does not raise
    on a division by zero; they are modelled by the type [num].  Plain
    Python [float] division raises [ZeroDivisionError] instead, which is
    modelled in the [outcome] monad. *)

From Stdlib Require Import QArith Qround Qabs Qpower ZArith Lia Lqa Floats.
From stdpp Require Import gmap strings pretty list fin_maps.

Local Open Scope Q_scope.
Set Warnings "-inexact-float".

(** ** Decimal literals and comparisons *)

(** [pct n] is the two-decimal literal [n / 100]: [0.35] is [pct 35]. *)
Definition pct (n : Z) : Q := n # 100.

(** Python's [x < y] and [x > y] on finite numbers. *)
Definition Qltb (x y : Q) : bool := negb (Qle_bool y x).
Definition Qgtb (x y : Q) : bool := Qltb y x.
(** Python's [x >= y]. *)
Definition Qgeb (x y : Q) : bool := Qle_bool y x.

(** ** [round(x, 2)]

    Python rounds half to even on the exact value of its argument. *)
Definition round_half_even (x : Q) : Z :=
  let f := Qfloor x in
  match Qcompare (x - inject_Z f) (1 # 2) with
  | Lt => f
  | Gt => (f + 1)%Z
  | Eq => if Z.even f then f else (f + 1)%Z
  end.

Definition round2 (x : Q) : Q := Qred (round_half_even (x * 100) # 100).

(** ** Exceptions

    A Python call either returns a value or raises.  [try_except] is a
    [try: ... except Exception: ...] block whose handler ignores the
    exception object (the source only prints it). *)

Inductive exn := ZeroDivisionError | IndexError | LibraryError.

Inductive outcome (A : Type) :=
  | Return (a : A)
  | Raise (e : exn).
Arguments Return {A} a.
Arguments Raise {A} e.

Global Instance outcome_ret : MRet outcome := @Return.
Global Instance outcome_bind : MBind outcome := λ A B f m,
  match m with
  | Return a => f a
  | Raise e => Raise e
  end.

Definition try_except {A} (body : outcome A) (handler : outcome A) : outcome A :=
  match body with
  | Return a => Return a
  | Raise _ => handler
  end.

(** Python [float] division. *)
Definition pydiv (x y : Q) : outcome Q :=
  if Qeq_bool y 0 then Raise ZeroDivisionError else Return (x / y).

(** ** Floating-point values: finite, infinite or [nan]

    The values of numpy scalars and of Python floats.  Signed zeros are not
    distinguished; a numpy division of a non-zero number by zero takes the
    sign of the numerator. *)

Inductive num := Fin (q : Q) | PInf | NInf | NaN.

Definition fadd (x y : num) : num :=
  match x, y with
  | NaN, _ | _, NaN => NaN
  | PInf, NInf | NInf, PInf => NaN
  | PInf, _ | _, PInf => PInf
  | NInf, _ | _, NInf => NInf
  | Fin a, Fin b => Fin (a + b)
  end.

Definition fneg (x : num) : num :=
  match x with
  | Fin a => Fin (- a)
  | PInf => NInf
  | NInf => PInf
  | NaN => NaN
  end.

Definition fsub (x y : num) : num := fadd x (fneg y).

(** The sign of a number, as a comparison with zero. *)
Definition fsign (x : num) : option comparison :=
  match x with
  | Fin a => Some (Qcompare a 0)
  | PInf => Some Gt
  | NInf => Some Lt
  | NaN => None
  end.

Definition signed_inf (s1 s2 : comparison) : num :=
  match s1, s2 with
  | Eq, _ | _, Eq => NaN
  | Gt, Gt | Lt, Lt => PInf
  | _, _ => NInf
  end.

Definition fmul (x y : num) : num :=
  match x, y with
  | Fin a, Fin b => Fin (a * b)
  | _, _ =>
      match fsign x, fsign y with
      | Some s1, Some s2 => signed_inf s1 s2
      | _, _ => NaN
      end
  end.

Definition fdiv (x y : num) : num :=
  match x, y with
  | NaN, _ | _, NaN => NaN
  | Fin a, Fin b =>
      if Qeq_bool b 0 then signed_inf (Qcompare a 0) Gt else Fin (a / b)
  | Fin _, _ => Fin 0
  | _, Fin b => signed_inf (default Eq (fsign x)) (if Qeq_bool b 0 then Gt else Qcompare b 0)
  | _, _ => NaN
  end.

(** [x < y]; every comparison with [nan] is false. *)
Definition fltb (x y : num) : bool :=
  match x, y with
  | NaN, _ | _, NaN => false
  | Fin a, Fin b => Qltb a b
  | NInf, NInf | PInf, _ => false
  | NInf, _ => true
  | Fin _, PInf => true
  | Fin _, NInf => false
  end.
Definition fgtb (x y : num) : bool := fltb y x.

(** [x >= y]. *)
Definition fgeb (x y : num) : bool :=
  match x, y with
  | NaN, _ | _, NaN => false
  | _, _ => negb (fltb x y)
  end.

Definition fabs (x : num) : num :=
  match x with
  | Fin a => Fin (Qabs a)
  | NInf => PInf
  | _ => x
  end.

(** [round(x, 2)] on a numpy float. *)
Definition fround2 (x : num) : num :=
  match x with
  | Fin a => Fin (round2 a)
  | _ => x
  end.

(** The builtins [max(a, b)] and [min(a, b)]: the first argument unless the
    second compares strictly beyond it. *)
Definition pymax (a b : num) : num := if fgtb b a then b else a.
Definition pymin (a b : num) : num := if fltb b a then b else a.

(** ** IEEE 754 binary64

    A finite binary64 number is [m * 2^e] with [|m| < 2^53] and
    [-1074 <= e <= 971].  Every arithmetic operation of CPython's [float]
    returns the exact result rounded to the nearest such number, ties to
    the even mantissa, and an infinity once the rounded magnitude reaches
    [2^1024]. *)

Definition pow2 (e : Z) : Q := Qpower 2 e.

(** [floor (log2 q)] of a positive rational. *)
Definition Qlog2 (q : Q) : Z :=
  let e := (Z.log2 (Qnum q) - Z.log2 (Zpos (Qden q)))%Z in
  if Qle_bool (pow2 e) q then e else (e - 1)%Z.

(** The exponent of the last mantissa bit of the binade of [q]. *)
Definition ulp_exponent (q : Q) : Z := Z.max (Qlog2 q - 52) (-1074).

(** [q >= 0] rounded to 53 bits, before the overflow test. *)
Definition rounded (q : Q) : Q :=
  let e := ulp_exponent q in
  inject_Z (round_half_even (q / pow2 e)) * pow2 e.

Definition nearest64 (q : Q) : num :=
  if Qle_bool (pow2 1024) (rounded q) then PInf else Fin (Qred (rounded q)).

(** Round to nearest, ties to even; the rounding is symmetric in the sign. *)
Definition binary64 (q : Q) : num :=
  if Qle_bool 0 q then nearest64 q else fneg (nearest64 (- q)).

(** The result of an operation whose exact value is [x]. *)
Definition f64 (x : num) : num :=
  match x with
  | Fin q => binary64 q
  | _ => x
  end.

Definition f64add (x y : num) : num := f64 (fadd x y).
Definition f64sub (x y : num) : num := f64 (fsub x y).
Definition f64mul (x y : num) : num := f64 (fmul x y).

(** A decimal literal of the source denotes the nearest binary64 number. *)
Definition literal (q : Q) : Q :=
  match binary64 q with
  | Fin r => r
  | _ => q
  end.

(** Python's [x / y] on floats. *)
Definition truediv (x y : num) : outcome num :=
  match y with
  | Fin b => if Qeq_bool b 0 then Raise ZeroDivisionError else Return (f64 (fdiv x y))
  | _ => Return (f64 (fdiv x y))
  end.

(** Python's [round(x, 2)] on a float: the exact value of [x] is rounded
    half to even to two decimals, and the float nearest to that decimal is
    returned. *)
Definition pyround2 (x : num) : num :=
  match x with
  | Fin q => binary64 (round2 q)
  | _ => x
  end.

(** [x <= y]; [nan] is not comparable. *)
Definition num_le (x y : num) : Prop :=
  match x, y with
  | NaN, _ | _, NaN => False
  | NInf, _ | _, PInf => True
  | Fin a, Fin b => a <= b
  | _, _ => False
  end.

Declare Scope f64_scope.
Delimit Scope f64_scope with f64.
Infix "+" := f64add : f64_scope.
Infix "-" := f64sub : f64_scope.
Infix "*" := f64mul : f64_scope.

(** ** The score combiner ([StockScorer.calculate_overall_score])

    The component scores are finite floats; the weighted average is
    evaluated in binary64, from left to right. *)

Inductive Rating := StrongBuy | Buy | Hold | Sell | StrongSell.

(** [self.weights], set once in [__init__]. *)
Record Weights := {
  w_technical : Q;
  w_fundamental : Q;
  w_sentiment : Q;
  w_momentum : Q
}.

Definition weights : Weights :=
  {| w_technical := literal (pct 35); w_fundamental := literal (pct 35);
     w_sentiment := literal (pct 20); w_momentum := literal (pct 10) |}.

Record OverallScore := {
  overall_score : num;
  rating : Rating;
  stars : Z;
  component_scores : Q * Q * Q * Q  (* technical, fundamental, sentiment, momentum *)
}.

(** The local [overall]: the weighted average before it is rounded to two
    decimals. *)
Definition weighted_average (tech_score fund_score sent_score mom_score : Q) : num :=
  (Fin tech_score * Fin (w_technical weights) +
   Fin fund_score * Fin (w_fundamental weights) +
   Fin sent_score * Fin (w_sentiment weights) +
   Fin mom_score * Fin (w_momentum weights))%f64.

(** The [if overall >= 80: ... elif ...] chain. *)
Definition determine_rating (overall : num) : Rating * Z :=
  if fgeb overall (Fin 80) then (StrongBuy, 5%Z)
  else if fgeb overall (Fin 65) then (Buy, 4%Z)
  else if fgeb overall (Fin 50) then (Hold, 3%Z)
  else if fgeb overall (Fin 35) then (Sell, 2%Z)
  else (StrongSell, 1%Z).

(** The four arguments are the result dictionaries of the component
    scorers, reduced to their numeric entries; [d.get(k, 50.0)] is
    [default 50 (d !! k)]. *)
Definition calculate_overall_score
    (technical fundamental sentiment momentum : gmap string Q) : OverallScore :=
  let tech_score := default 50 (technical !! "score"%string) in
  let fund_score := default 50 (fundamental !! "score"%string) in
  let sent_score := default 50 (sentiment !! "overall_sentiment_score"%string) in
  let mom_score := default 50 (momentum !! "score"%string) in
  let overall := weighted_average tech_score fund_score sent_score mom_score in
  let '(r, s) := determine_rating overall in
  {| overall_score := pyround2 overall;
     rating := r;
     stars := s;
     component_scores := (tech_score, fund_score, sent_score, mom_score) |}.

(** [x == q]: the float [x] is finite and has the value [q]. *)
Definition float_eq (x : num) (q : Q) : Prop :=
  match x with
  | Fin a => a == q
  | _ => False
  end.

(** [x] rates no higher than [y]: it is below [y], or it is [nan] or
    minus infinity, which fail every threshold test. *)
Definition rates_below (x y : num) : Prop := num_le x y ∨ x = NaN ∨ x = NInf.

(** A component result that carries the score [x]. *)
Definition scored (x : Q) : gmap string Q := {[ "score"%string := x ]}.
Definition sentiment_scored (x : Q) : gmap string Q :=
  {[ "overall_sentiment_score"%string := x ]}.

(** ** Data model *)

(** One daily record of a PriceSeries (the date is the frame's index). *)
Record Row := { Open : Q; High : Q; Low : Q; Close : Q; Volume : Q }.

Abbreviation PriceSeries := (list Row).

(** A value stored in a result dictionary. *)
Inductive pyval := PStr (s : string) | PInt (n : Z) | PFloat (x : num).

(** ** pandas series operations *)

Definition Qsum (l : list Q) : Q := foldr Qplus 0 l.
Definition fsum (l : list num) : num := foldr fadd (Fin 0) l.
Definition Qnat (n : nat) : Q := inject_Z (Z.of_nat n).

(** [s.iloc[-k]]: the [k]-th element from the end, [IndexError] when the
    series is shorter. *)
Definition iloc_neg {A} (s : list A) (k : nat) : outcome A :=
  if bool_decide (1 ≤ k ≤ length s)%nat
  then match s !! (length s - k)%nat with
       | Some a => Return a
       | None => Raise IndexError
       end
  else Raise IndexError.

(** [s.iloc[-k:]]: the last [k] elements (all of them when there are fewer). *)
Definition iloc_tail {A} (k : nat) (s : list A) : list A :=
  drop (length s - k) s.

(** [s.pct_change()]: [s / s.shift(1) - 1], [nan] in the first row. *)
Fixpoint pct_from (prev : Q) (s : list Q) : list num :=
  match s with
  | [] => []
  | x :: t => fsub (fdiv (Fin x) (Fin prev)) (Fin 1) :: pct_from x t
  end.

Definition pct_change (s : list Q) : list num :=
  match s with
  | [] => []
  | x :: t => NaN :: pct_from x t
  end.

(** [s.rolling(window=w).mean()]: [nan] until [w] rows are available. *)
Definition rolling_mean (w : nat) (s : list Q) : list num :=
  imap (λ i _, if (i + 1 <? w)%nat then NaN
               else Fin (Qsum (take w (drop (i + 1 - w) s)) / Qnat w)) s.

Definition is_nan (x : num) : bool :=
  match x with NaN => true | _ => false end.

(** [s.mean()]: [nan] entries are skipped; [nan] when nothing is left. *)
Definition mean (s : list num) : num :=
  let xs := List.filter (λ x, negb (is_nan x)) s in
  match xs with
  | [] => NaN
  | _ => fdiv (fsum xs) (Fin (Qnat (length xs)))
  end.

(** A number that is finite and equal to zero. *)
Definition fin_zero (x : num) : Prop := ∃ q, x = Fin q ∧ q == 0.

(** ** Scoring state shared by the scorers

    The locals [score], [max_score] and the detail dictionary
    ([indicators] or [analysis]), threaded through the categories. *)

Record Tally (D : Type) := {
  score : Z;
  max_score : Z;
  detail : gmap string D
}.
Arguments score {D} _.
Arguments max_score {D} _.
Arguments detail {D} _.

Definition start {D} : Tally D := {| score := 0; max_score := 0; detail := ∅ |}.

(** [score += n] *)
Definition award {D} (n : Z) (t : Tally D) : Tally D :=
  {| score := score t + n; max_score := max_score t; detail := detail t |}.
(** [max_score += n] *)
Definition budget {D} (n : Z) (t : Tally D) : Tally D :=
  {| score := score t; max_score := max_score t + n; detail := detail t |}.
(** [detail[k] = v] *)
Definition note {D} (k : string) (v : D) (t : Tally D) : Tally D :=
  {| score := score t; max_score := max_score t; detail := <[k := v]> (detail t) |}.

(** [(score / max_score) * 100 if max_score > 0 else 50] *)
Definition final_score {D} (t : Tally D) : Q :=
  if (0 <? max_score t)%Z
  then (inject_Z (score t) / inject_Z (max_score t)) * 100
  else 50.

(** ** The fundamental scorer ([StockScorer.calculate_fundamental_score])

    A MetricsMap is a dictionary from metric names to a number or [None]. *)

Abbreviation MetricsMap := (gmap string (option Q)).

(** [metrics.get(k)]: [None] for a missing key and for a stored [None]. *)
Definition get (metrics : MetricsMap) (k : string) : option Q :=
  mjoin (metrics !! k).

(** [if v: ...]: the branch runs when [v] is neither [None] nor zero. *)
Definition if_truthy {S} (v : option Q) (branch : Q → S → S) (t : S) : S :=
  match v with
  | Some q => if Qeq_bool q 0 then t else branch q t
  | None => t
  end.

(** [if v is not None: ...] *)
Definition if_not_none {S} (v : option Q) (branch : Q → S → S) (t : S) : S :=
  match v with
  | Some q => branch q t
  | None => t
  end.

Definition pe_points (pe : Q) : Z :=
  if Qltb 10 pe && Qltb pe 25 then 15
  else if Qltb 5 pe && Qltb pe 35 then 10
  else if Qgtb pe 0 then 5
  else 0.

Definition peg_points (peg : Q) : Z :=
  if Qltb peg 1 then 15 else if Qltb peg 2 then 10 else if Qltb peg 3 then 5 else 0.

Definition pb_points (pb : Q) : Z :=
  if Qltb pb 3 then 10 else if Qltb pb 5 then 5 else 0.

Definition de_points (de : Q) : Z :=
  if Qltb de (pct 50) then 10 else if Qltb de 1 then 7 else if Qltb de 2 then 3 else 0.

Definition roe_points (roe : Q) : Z :=
  if Qgtb roe (pct 15) then 15
  else if Qgtb roe (pct 10) then 10
  else if Qgtb roe (pct 5) then 5
  else 0.

Definition margin_points (margin : Q) : Z :=
  if Qgtb margin (pct 20) then 10
  else if Qgtb margin (pct 10) then 7
  else if Qgtb margin (pct 5) then 3
  else 0.

Definition rev_growth_points (rev_growth : Q) : Z :=
  if Qgtb rev_growth (pct 20) then 15
  else if Qgtb rev_growth (pct 10) then 10
  else if Qgtb rev_growth (pct 5) then 5
  else 0.

Definition div_yield_points (div_yield : Q) : Z :=
  if Qgtb div_yield (pct 2) then 5 else 0.

Definition beta_points (beta : Q) : Z :=
  if Qltb (pct 50) beta && Qltb beta (pct 150) then 5 else 0.

(** The nine blocks of the [try] body, in source order. *)

Definition pe_block (metrics : MetricsMap) (t : Tally Q) : Tally Q :=
  let pe := get metrics "pe_ratio" in
  budget 15
    (if_truthy pe (λ pe t,
       if Qgtb pe 0 then award (pe_points pe) (note "pe_ratio" pe t) else t) t).

Definition peg_block (metrics : MetricsMap) (t : Tally Q) : Tally Q :=
  let peg := get metrics "peg_ratio" in
  budget 15
    (if_truthy peg (λ peg t,
       if Qgtb peg 0 then award (peg_points peg) (note "peg_ratio" peg t) else t) t).

Definition pb_block (metrics : MetricsMap) (t : Tally Q) : Tally Q :=
  let pb := get metrics "price_to_book" in
  budget 10
    (if_truthy pb (λ pb t,
       if Qgtb pb 0 then award (pb_points pb) (note "price_to_book" pb t) else t) t).

Definition de_block (metrics : MetricsMap) (t : Tally Q) : Tally Q :=
  let de := get metrics "debt_to_equity" in
  budget 10
    (if_not_none de (λ de t, award (de_points de) (note "debt_to_equity" de t)) t).

Definition roe_block (metrics : MetricsMap) (t : Tally Q) : Tally Q :=
  let roe := get metrics "roe" in
  budget 15
    (if_truthy roe (λ roe t,
       award (roe_points roe) (note "roe" (round2 (roe * 100)) t)) t).

Definition margin_block (metrics : MetricsMap) (t : Tally Q) : Tally Q :=
  let margin := get metrics "profit_margin" in
  budget 10
    (if_truthy margin (λ margin t,
       award (margin_points margin) (note "profit_margin" (round2 (margin * 100)) t)) t).

Definition rev_growth_block (metrics : MetricsMap) (t : Tally Q) : Tally Q :=
  let rev_growth := get metrics "revenue_growth" in
  budget 15
    (if_truthy rev_growth (λ rev_growth t,
       award (rev_growth_points rev_growth)
             (note "revenue_growth" (round2 (rev_growth * 100)) t)) t).

Definition div_yield_block (metrics : MetricsMap) (t : Tally Q) : Tally Q :=
  let div_yield := get metrics "dividend_yield" in
  budget 5
    (if_truthy div_yield (λ div_yield t,
       award (div_yield_points div_yield)
             (note "dividend_yield" (round2 (div_yield * 100)) t)) t).

Definition beta_block (metrics : MetricsMap) (t : Tally Q) : Tally Q :=
  let beta := get metrics "beta" in
  budget 5
    (if_truthy beta (λ beta t, award (beta_points beta) (note "beta" beta t)) t).

Definition fundamental_tally (metrics : MetricsMap) : Tally Q :=
  beta_block metrics
    (div_yield_block metrics
      (rev_growth_block metrics
        (margin_block metrics
          (roe_block metrics
            (de_block metrics
              (pb_block metrics
                (peg_block metrics
                  (pe_block metrics start)))))))).

Record FundamentalResult := {
  fundamental_score : Q;
  analysis : gmap string Q
}.

(** Comparisons and products of numbers do not raise, so on a MetricsMap
    the [except] branch of the source is never entered. *)
Definition calculate_fundamental_score (metrics : MetricsMap) : FundamentalResult :=
  if bool_decide (size metrics = 0%nat)
  then {| fundamental_score := 50; analysis := ∅ |}
  else
    let t := fundamental_tally metrics in
    {| fundamental_score := round2 (final_score t); analysis := detail t |}.

(** ** The technical scorer ([StockScorer.calculate_technical_score])

    The indicators of the [ta] package are an external capability: each
    entry is the series that the corresponding accessor returns, or the
    exception it raises. *)

Record ta_library := {
  ta_rsi : list Q → nat → outcome (list num);
      (* ta.momentum.RSIIndicator(close, window).rsi() *)
  ta_macd : list Q → outcome (list num);
      (* ta.trend.MACD(close).macd() *)
  ta_macd_signal : list Q → outcome (list num);
  ta_bollinger_hband : list Q → outcome (list num);
      (* ta.volatility.BollingerBands(close).bollinger_hband() *)
  ta_bollinger_lband : list Q → outcome (list num);
  ta_bollinger_mavg : list Q → outcome (list num);
  ta_adx : list Q → list Q → list Q → outcome (list num)
      (* ta.trend.ADXIndicator(high, low, close).adx() *)
}.

(** The point tiers of the six categories. *)

Definition rsi_points (current_rsi : num) : Z :=
  if fltb (Fin 30) current_rsi && fltb current_rsi (Fin 70) then 15
  else if fltb (Fin 40) current_rsi && fltb current_rsi (Fin 60) then 20
  else 0.

Definition macd_points (macd_line signal_line : num) : Z :=
  if fgtb macd_line signal_line then 15 else 0.

Definition ma_points (current_price sma_20 sma_50 : num) : Z :=
  if fgtb current_price sma_20 && fgtb sma_20 sma_50 then 25
  else if fgtb current_price sma_20 then 15
  else 0.

Definition bb_points (current_price bb_high bb_low bb_mid : num) : Z :=
  if fltb bb_low current_price && fltb current_price bb_high
  then (if fgtb current_price bb_mid then 20 else 10)
  else 0.

Definition volume_points (current_volume avg_volume : num) : Z :=
  if fgtb current_volume avg_volume then 10 else 0.

Definition adx_points (adx_value : num) : Z :=
  if fgtb adx_value (Fin 25) then 10 else 0.

Record TechnicalResult := {
  technical_score : Q;
  indicators : gmap string num
}.

Definition technical_fallback : TechnicalResult :=
  {| technical_score := 50; indicators := ∅ |}.

Section Technical.
Variable ta : ta_library.

(** The six blocks of the [try] body, in source order. *)

Definition rsi_block (data : PriceSeries) (t : Tally num) : outcome (Tally num) :=
  rsi ← ta_rsi ta (Close <$> data) 14;
  current_rsi ← iloc_neg rsi 1;
  mret (budget 20 (award (rsi_points current_rsi)
                     (note "rsi" (fround2 current_rsi) t))).

Definition macd_block (data : PriceSeries) (t : Tally num) : outcome (Tally num) :=
  macd ← ta_macd ta (Close <$> data);
  macd_line ← iloc_neg macd 1;
  signal ← ta_macd_signal ta (Close <$> data);
  signal_line ← iloc_neg signal 1;
  mret (budget 15 (award (macd_points macd_line signal_line)
                     (note "macd_signal" (fround2 signal_line)
                        (note "macd" (fround2 macd_line) t)))).

Definition ma_block (data : PriceSeries) (t : Tally num) : outcome (Tally num) :=
  sma_20 ← iloc_neg (rolling_mean 20 (Close <$> data)) 1;
  sma_50 ← iloc_neg (rolling_mean 50 (Close <$> data)) 1;
  current_price ← iloc_neg (Close <$> data) 1;
  mret (budget 25 (award (ma_points (Fin current_price) sma_20 sma_50)
                     (note "sma_50" (fround2 sma_50)
                        (note "sma_20" (fround2 sma_20) t)))).

Definition bb_block (data : PriceSeries) (t : Tally num) : outcome (Tally num) :=
  current_price ← iloc_neg (Close <$> data) 1;
  hband ← ta_bollinger_hband ta (Close <$> data);
  bb_high ← iloc_neg hband 1;
  lband ← ta_bollinger_lband ta (Close <$> data);
  bb_low ← iloc_neg lband 1;
  mavg ← ta_bollinger_mavg ta (Close <$> data);
  bb_mid ← iloc_neg mavg 1;
  let bb_position :=
    fmul (fdiv (fsub (Fin current_price) bb_low) (fsub bb_high bb_low)) (Fin 100) in
  mret (budget 20 (award (bb_points (Fin current_price) bb_high bb_low bb_mid)
                     (note "bb_position" (fround2 bb_position) t))).

Definition volume_block (data : PriceSeries) (t : Tally num) : outcome (Tally num) :=
  avg_volume ← iloc_neg (rolling_mean 20 (Volume <$> data)) 1;
  current_volume ← iloc_neg (Volume <$> data) 1;
  mret (budget 10 (award (volume_points (Fin current_volume) avg_volume)
                     (note "volume_ratio"
                        (fround2 (fdiv (Fin current_volume) avg_volume)) t))).

Definition adx_block (data : PriceSeries) (t : Tally num) : outcome (Tally num) :=
  adx ← ta_adx ta (High <$> data) (Low <$> data) (Close <$> data);
  adx_value ← iloc_neg adx 1;
  mret (budget 10 (award (adx_points adx_value)
                     (note "adx" (fround2 adx_value) t))).

Definition technical_tally (data : PriceSeries) : outcome (Tally num) :=
  t ← rsi_block data start;
  t ← macd_block data t;
  t ← ma_block data t;
  t ← bb_block data t;
  t ← volume_block data t;
  adx_block data t.

Definition calculate_technical_score (data : PriceSeries) : outcome TechnicalResult :=
  if (length data <? 50)%nat then Return technical_fallback
  else
    try_except
      (t ← technical_tally data;
       mret {| technical_score := round2 (final_score t); indicators := detail t |})
      (Return technical_fallback).
End Technical.

(** ** The predictor ([StockPredictor]) *)

Abbreviation Dict := (gmap string pyval).

Definition insufficient_data : Dict :=
  {[ "prediction" := PStr "Insufficient data"; "confidence" := PInt 0 ]}.

Definition prediction_error : Dict :=
  {[ "prediction" := PStr "Error"; "confidence" := PInt 0 ]}.

Section Predictor.
(** [Series.std()] of pandas (sample standard deviation, a square root)
    is taken as given. *)
Variable std : list num → num.

(** The [try] body of [predict_short_term].  The columns [ma_5] and
    [ma_20] are written to the copy of the frame and never read. *)
Definition short_term_body (data : PriceSeries) (days : Z) : outcome Dict :=
  current_price ← iloc_neg (Close <$> data) 1;
  let returns := pct_change (Close <$> data) in
  let volume_ratio :=
    zip_with fdiv (Fin <$> (Volume <$> data)) (rolling_mean 20 (Volume <$> data)) in
  let recent_returns := mean (iloc_tail 10 returns) in
  let volume_trend := mean (iloc_tail 5 volume_ratio) in
  let predicted_change := fmul recent_returns (Fin (inject_Z days)) in
  let predicted_change :=
    if fgtb volume_trend (Fin (pct 120)) then fmul predicted_change (Fin (pct 110))
    else if fltb volume_trend (Fin (pct 80)) then fmul predicted_change (Fin (pct 90))
    else predicted_change in
  let predicted_price := fmul (Fin current_price) (fadd (Fin 1) predicted_change) in
  let volatility := std returns in
  let confidence :=
    pymax (Fin 0) (pymin (Fin 100) (fsub (Fin 100) (fmul volatility (Fin 1000)))) in
  let direction := if fgtb predicted_change (Fin 0) then "Up" else "Down" in
  let magnitude := fabs (fmul predicted_change (Fin 100)) in
  mret ({[ "current_price" := PFloat (Fin (round2 current_price));
           "predicted_price" := PFloat (fround2 predicted_price);
           "predicted_change_pct" := PFloat (fround2 (fmul predicted_change (Fin 100)));
           "direction" := PStr direction;
           "magnitude" := PFloat (fround2 magnitude);
           "confidence" := PFloat (fround2 confidence);
           "timeframe" := PStr (pretty days +:+ " day(s)") ]} : Dict).

(** [data.empty or len(data) < 30]: a frame without rows is also shorter
    than 30 rows. *)
Definition predict_short_term (data : PriceSeries) (days : Z) : outcome Dict :=
  if (length data <? 30)%nat then Return insufficient_data
  else try_except (short_term_body data days) (Return prediction_error).

Definition predict_medium_term (data : PriceSeries) (weeks : Z) : outcome Dict :=
  predict_short_term data (weeks * 7).

(** [(close[-1] - close[-k]) / close[-k]] *)
Definition growth_over (closes : list Q) (k : nat) : outcome num :=
  last ← iloc_neg closes 1;
  past ← iloc_neg closes k;
  mret (fdiv (fsub (Fin last) (Fin past)) (Fin past)).

(** The locals [growth_3m], [growth_6m] and [growth_12m]. *)
Definition growth_rates (closes : list Q) : outcome (num * num * num) :=
  growth_3m ← (if (63 <=? length closes)%nat then growth_over closes 63
               else mret (Fin 0));
  growth_6m ← (if (126 <=? length closes)%nat then growth_over closes 126
               else mret growth_3m);
  growth_12m ← (if (252 <=? length closes)%nat then growth_over closes 252
                else mret growth_6m);
  mret (growth_3m, growth_6m, growth_12m).

(** [growth_3m * weights[0] + growth_6m * weights[1] + growth_12m * weights[2]] *)
Definition avg_growth (g : num * num * num) : num :=
  let '(growth_3m, growth_6m, growth_12m) := g in
  fadd (fadd (fmul growth_3m (Fin (pct 50))) (fmul growth_6m (Fin (pct 30))))
       (fmul growth_12m (Fin (pct 20))).

Definition long_term_body (data : PriceSeries) (months : Z) : outcome Dict :=
  current_price ← iloc_neg (Close <$> data) 1;
  let returns := pct_change (Close <$> data) in
  g ← growth_rates (Close <$> data);
  let annual_growth := fmul (avg_growth g) (Fin (12 / 3)) in
  let predicted_growth := fmul annual_growth (Fin (inject_Z months / 12)) in
  let predicted_price := fmul (Fin current_price) (fadd (Fin 1) predicted_growth) in
  let returns_std := std returns in
  let confidence :=
    pymax (Fin 0) (pymin (Fin 100) (fsub (Fin 100) (fmul returns_std (Fin 800)))) in
  let confidence := fmul confidence (Fin (pct 70)) in
  let direction := if fgtb predicted_growth (Fin 0) then "Bullish" else "Bearish" in
  mret ({[ "current_price" := PFloat (Fin (round2 current_price));
           "predicted_price" := PFloat (fround2 predicted_price);
           "predicted_change_pct" := PFloat (fround2 (fmul predicted_growth (Fin 100)));
           "direction" := PStr direction;
           "confidence" := PFloat (fround2 confidence);
           "timeframe" := PStr (pretty months +:+ " month(s)");
           "annual_growth_rate" := PFloat (fround2 (fmul annual_growth (Fin 100))) ]}
        : Dict).

Definition predict_long_term (data : PriceSeries) (months : Z) : outcome Dict :=
  if (length data <? 100)%nat then Return insufficient_data
  else try_except (long_term_body data months) (Return prediction_error).
End Predictor.

(** *** Target price and stop loss ([calculate_target_price])

    The arguments are finite Python floats as annotated and the arithmetic
    is binary64; the [prediction] argument is never read. *)

Definition upside_for (score : Q) : Q :=
  if Qgeb score 80 then literal (pct 25)
  else if Qgeb score 65 then literal (pct 15)
  else if Qgeb score 50 then literal (pct 10)
  else literal (pct 5).

Definition stop_loss_factor (score : Q) : Q :=
  if Qgeb score 70 then literal (pct 92)
  else if Qgeb score 50 then literal (pct 90)
  else literal (pct 85).

Record Targets := {
  upside : Q;
  target_price : num;
  stop_loss : num;
  risk_reward : num;
  downside_fraction : num  (* [1 - stop_loss / current_price], as evaluated for the result *)
}.

(** The values computed by the [try] body before they are rounded to two
    decimals. *)
Definition targets (current_price score : Q) : outcome Targets :=
  let upside := upside_for score in
  let target_price := (Fin current_price * (Fin 1 + Fin upside))%f64 in
  let stop_loss := (Fin current_price * Fin (stop_loss_factor score))%f64 in
  ratio ← truediv stop_loss (Fin current_price);
  risk_reward ← truediv (Fin upside) (Fin 1 - ratio)%f64;
  ratio' ← truediv stop_loss (Fin current_price);
  mret {| upside := upside; target_price := target_price; stop_loss := stop_loss;
          risk_reward := risk_reward; downside_fraction := (Fin 1 - ratio')%f64 |}.

Definition target_price_body (current_price score : Q) : outcome Dict :=
  t ← targets current_price score;
  mret ({[ "target_price" := PFloat (pyround2 (target_price t));
           "stop_loss" := PFloat (pyround2 (stop_loss t));
           "upside_potential" := PFloat (pyround2 (Fin (upside t) * Fin 100)%f64);
           "downside_risk" := PFloat (pyround2 (downside_fraction t * Fin 100)%f64);
           "risk_reward_ratio" := PFloat (pyround2 (risk_reward t)) ]} : Dict).

Definition calculate_target_price (current_price score : Q) : outcome Dict :=
  try_except (target_price_body current_price score) (Return ∅).

(** ** The same arithmetic on primitive floats

    [PrimFloat] is the kernel's IEEE 754 binary64 with round-to-nearest-
    even; a decimal literal denotes the nearest binary64 value, as in
    Python.  The combiner and the target-price calculator are written once
    more over it, to check the rounding model above against it on concrete
    inputs. *)

Module Binary64.

(** The exact rational value of a finite float. *)
Definition to_Q (x : float) : option Q :=
  match Prim2SF x with
  | S754_zero _ => Some 0
  | S754_finite s m e =>
      let v := inject_Z (Zpos m) * Qpower 2 e in
      Some (Qred (if s then - v else v))
  | _ => None
  end.

(** [round(x, 2)], as the two-decimal number it denotes: Python rounds the
    exact value of [x], half to even. *)
Definition round2 (x : float) : option Q :=
  match to_Q x with
  | Some q => Some (round2 q)
  | None => None
  end.

Definition pydiv (x y : float) : outcome float :=
  if PrimFloat.eqb y 0 then Raise ZeroDivisionError else Return (x / y)%float.

Definition weighted_average (tech_score fund_score sent_score mom_score : float) : float :=
  (tech_score * 0.35 + fund_score * 0.35 + sent_score * 0.20 + mom_score * 0.10)%float.

Definition determine_rating (overall : float) : Rating * Z :=
  if (80 <=? overall)%float then (StrongBuy, 5%Z)
  else if (65 <=? overall)%float then (Buy, 4%Z)
  else if (50 <=? overall)%float then (Hold, 3%Z)
  else if (35 <=? overall)%float then (Sell, 2%Z)
  else (StrongSell, 1%Z).

Definition upside_for (score : float) : float :=
  if (80 <=? score)%float then 0.25%float
  else if (65 <=? score)%float then 0.15%float
  else if (50 <=? score)%float then 0.10%float
  else 0.05%float.

Definition stop_loss_factor (score : float) : float :=
  if (70 <=? score)%float then 0.92%float
  else if (50 <=? score)%float then 0.90%float
  else 0.85%float.

(** The target, the stop, the risk/reward ratio and the downside fraction
    before they are rounded to two decimals. *)
Definition targets (current_price score : float) : outcome (float * float * float * float) :=
  let upside := upside_for score in
  let target_price := (current_price * (1 + upside))%float in
  let stop_loss := (current_price * stop_loss_factor score)%float in
  ratio ← pydiv stop_loss current_price;
  risk_reward ← pydiv upside (1 - ratio)%float;
  ratio' ← pydiv stop_loss current_price;
  mret (target_price, stop_loss, risk_reward, (1 - ratio')%float).

Definition target_price_body (current_price score : float)
    : outcome (gmap string (option Q)) :=
  '(target_price, stop_loss, risk_reward, downside) ← targets current_price score;
  mret ({[ "target_price" := round2 target_price;
           "stop_loss" := round2 stop_loss;
           "upside_potential" := round2 (upside_for score * 100)%float;
           "downside_risk" := round2 (downside * 100)%float;
           "risk_reward_ratio" := round2 risk_reward ]} : gmap string (option Q)).

Definition calculate_target_price (current_price score : float)
    : outcome (gmap string (option Q)) :=
  try_except (target_price_body current_price score) (Return ∅).

End Binary64.

(** The value of a finite float of the rounding model. *)
Definition fin_value (x : num) : option Q :=
  match x with
  | Fin q => Some q
  | _ => None
  end.

(** The four unrounded values of [targets], for comparison with
    [Binary64.targets]. *)
Definition unrounded (t : outcome Targets) : outcome (list (option Q)) :=
  t ← t;
  mret [fin_value (target_price t); fin_value (stop_loss t);
        fin_value (risk_reward t); fin_value (downside_fraction t)].

Definition unrounded64 (t : outcome (float * float * float * float))
    : outcome (list (option Q)) :=
  '(target_price, stop_loss, risk_reward, downside) ← t;
  mret [Binary64.to_Q target_price; Binary64.to_Q stop_loss;
        Binary64.to_Q risk_reward; Binary64.to_Q downside].

(** Floats on which every operation of the rounding model is compared with
    the primitive one: literals of the source, subnormal numbers and the
    largest finite number. *)
Definition sample_floats : list float :=
  [0; 1; 3; 37; 100; 0.1; 0.35; 0.92; 33.33; 9007199254740993; 1e-320;
   0x1p-1074; 0x1.fffffffffffffp1023; -0.85; -0x1p-1074]%float.

(** One operation agrees on [x] and [y]: the rounded exact result is the
    value of the primitive result (both infinite on overflow). *)
Definition agree (op64 : float → float → float) (op : Q → Q → Q) (x y : float) : bool :=
  match Binary64.to_Q x, Binary64.to_Q y with
  | Some a, Some b =>
      match fin_value (binary64 (op a b)), Binary64.to_Q (op64 x y) with
      | Some u, Some v => Qeq_bool u v
      | None, None => true
      | _, _ => false
      end
  | _, _ => true
  end.

Definition agree_on_samples : bool :=
  forallb (λ x, forallb (λ y,
    agree PrimFloat.add Qplus x y && agree PrimFloat.sub Qminus x y &&
    agree PrimFloat.mul Qmult x y &&
    (PrimFloat.eqb y 0 || agree PrimFloat.div Qdiv x y)) sample_floats) sample_floats.

(** ** The momentum scorer ([StockScorer.calculate_momentum_score]) *)

(** [((close[-1] - close[-k]) / close[-k]) * 100] *)
Definition pct_return (closes : list Q) (k : nat) : outcome num :=
  g ← growth_over closes k;
  mret (fmul g (Fin 100)).

Definition ret_1d_points (ret_1d : num) : Z :=
  if fgtb ret_1d (Fin 2) then 10 else if fgtb ret_1d (Fin 0) then 5 else 0.

Definition ret_5d_points (ret_5d : num) : Z :=
  if fgtb ret_5d (Fin 5) then 20 else if fgtb ret_5d (Fin 0) then 10 else 0.

Definition ret_20d_points (ret_20d : num) : Z :=
  if fgtb ret_20d (Fin 10) then 20 else if fgtb ret_20d (Fin 0) then 10 else 0.

Record MomentumResult := {
  momentum_score : Q;
  momentum : gmap string num
}.

Definition momentum_fallback : MomentumResult :=
  {| momentum_score := 50; momentum := ∅ |}.

(** The [try] body: the three returns, the [momentum] dictionary, then the
    three tiers. *)
Definition momentum_tally (data : PriceSeries) : outcome (Tally num) :=
  ret_1d ← pct_return (Close <$> data) 2;
  ret_5d ← pct_return (Close <$> data) 6;
  ret_20d ← pct_return (Close <$> data) 21;
  let t := note "return_20d" (fround2 ret_20d)
             (note "return_5d" (fround2 ret_5d)
                (note "return_1d" (fround2 ret_1d) start)) in
  let t := budget 10 (award (ret_1d_points ret_1d) t) in
  let t := budget 20 (award (ret_5d_points ret_5d) t) in
  let t := budget 20 (award (ret_20d_points ret_20d) t) in
  mret t.

Definition calculate_momentum_score (data : PriceSeries) : outcome MomentumResult :=
  if (length data <? 30)%nat then Return momentum_fallback
  else
    try_except
      (t ← momentum_tally data;
       mret {| momentum_score := round2 (final_score t); momentum := detail t |})
      (Return momentum_fallback).


(** ** The metrics provider ([StockDataSource.get_financial_metrics])

    [info] is what [yf.Ticker(symbol).info] gives: its numeric entries, or
    the exception it raises. *)
Definition get_financial_metrics (info : outcome (gmap string Q)) : MetricsMap :=
  match info with
  | Return info =>
      <["pe_ratio" := info !! "trailingPE"]> $
      <["forward_pe" := info !! "forwardPE"]> $
      <["peg_ratio" := info !! "pegRatio"]> $
      <["price_to_book" := info !! "priceToBook"]> $
      <["price_to_sales" := info !! "priceToSalesTrailing12Months"]> $
      <["debt_to_equity" := info !! "debtToEquity"]> $
      <["current_ratio" := info !! "currentRatio"]> $
      <["roe" := info !! "returnOnEquity"]> $
      <["roa" := info !! "returnOnAssets"]> $
      <["profit_margin" := info !! "profitMargins"]> $
      <["operating_margin" := info !! "operatingMargins"]> $
      <["market_cap" := info !! "marketCap"]> $
      <["enterprise_value" := info !! "enterpriseValue"]> $
      <["beta" := info !! "beta"]> $
      <["dividend_yield" := info !! "dividendYield"]> $
      <["52_week_high" := info !! "fiftyTwoWeekHigh"]> $
      <["52_week_low" := info !! "fiftyTwoWeekLow"]> $
      <["avg_volume" := info !! "averageVolume"]> $
      <["revenue_growth" := info !! "revenueGrowth"]> $
      <["earnings_growth" := info !! "earningsGrowth"]> $
      ∅
  | Raise _ => ∅
  end.

(** ** The entry-point classifier ([StockPredictor.identify_entry_point]) *)

Definition Qmax2 (a b : Q) : Q := if Qle_bool a b then b else a.
Definition Qmin2 (a b : Q) : Q := if Qle_bool a b then a else b.

(** [s.max()] and [s.min()] of a series of finite numbers ([nan] when it
    is empty). *)
Definition series_max (s : list Q) : num :=
  match s with
  | [] => NaN
  | x :: t => Fin (foldl Qmax2 x t)
  end.
Definition series_min (s : list Q) : num :=
  match s with
  | [] => NaN
  | x :: t => Fin (foldl Qmin2 x t)
  end.

(** [s.diff()]: the first entry is [nan] ([None]), the others are the
    differences of neighbours. *)
Fixpoint diff_from (prev : Q) (s : list Q) : list (option Q) :=
  match s with
  | [] => []
  | x :: t => Some (x - prev) :: diff_from x t
  end.
Definition diff (s : list Q) : list (option Q) :=
  match s with
  | [] => []
  | x :: t => None :: diff_from x t
  end.

(** [delta.where(delta > 0, 0)] and [-delta.where(delta < 0, 0)]: where
    the test fails, also on [nan], the entry is 0. *)
Definition gains (delta : list (option Q)) : list Q :=
  (λ d, match d with
        | Some q => if Qgtb q 0 then q else 0
        | None => 0
        end) <$> delta.
Definition losses (delta : list (option Q)) : list Q :=
  (λ d, - match d with
          | Some q => if Qltb q 0 then q else 0
          | None => 0
          end) <$> delta.

(** The 14-row RSI column of [identify_entry_point]. *)
Definition entry_rsi (closes : list Q) : list num :=
  let delta := diff closes in
  let gain := rolling_mean 14 (gains delta) in
  let loss := rolling_mean 14 (losses delta) in
  let rs := zip_with fdiv gain loss in
  (λ rs, fsub (Fin 100) (fdiv (Fin 100) (fadd (Fin 1) rs))) <$> rs.

(** The list [signals] after the four [if ...: signals.append(...)]. *)
Definition entry_signals
    (range_position current_rsi current_price sma_20 sma_50 : num) (score : Q)
    : list string :=
  let signals := [] in
  let signals :=
    if fltb range_position (Fin 40) then signals ++ ["Near 52-week low"] else signals in
  let signals :=
    if fltb current_price sma_20 && fltb sma_20 sma_50 && Qgtb score 60
    then signals ++ ["Price below MA with good fundamentals"] else signals in
  let signals :=
    if fltb current_rsi (Fin 40) then signals ++ ["RSI oversold"] else signals in
  let signals :=
    if fgtb current_price sma_20 && Qgtb score 70
    then signals ++ ["Strong uptrend with high score"] else signals in
  signals.

(** The [if score > 70 and len(signals) >= 2: ... elif ...] chain. *)
Definition entry_label
    (score : Q) (signals : list string) (current_rsi range_position : num) : string :=
  if Qgtb score 70 && (2 <=? length signals)%nat then "Strong Buy Now"
  else if Qgtb score 60 && (fltb current_rsi (Fin 40) || fltb range_position (Fin 40))
       then "Good Entry Point"
  else if Qgtb score 50 then "Consider Buying"
  else "Wait for Better Entry".

(** The result dictionary: its label, its numeric entries
    ([52w_range_position], [current_vs_sma20], [current_vs_sma50], [rsi])
    and its [signals] list, absent from the two placeholder results. *)
Record EntryPoint := {
  entry_signal : string;
  entry_readings : gmap string num;
  signals : option (list string)
}.

Definition entry_insufficient : EntryPoint :=
  {| entry_signal := "Insufficient data"; entry_readings := ∅; signals := None |}.
Definition entry_error : EntryPoint :=
  {| entry_signal := "Error"; entry_readings := ∅; signals := None |}.

Definition entry_point_body (data : PriceSeries) (score : Q) : outcome EntryPoint :=
  current_price ← iloc_neg (Close <$> data) 1;
  let high_52w :=
    if (252 <=? length data)%nat then series_max (iloc_tail 252 (High <$> data))
    else series_max (High <$> data) in
  let low_52w :=
    if (252 <=? length data)%nat then series_min (iloc_tail 252 (Low <$> data))
    else series_min (Low <$> data) in
  let range_position :=
    fmul (fdiv (fsub (Fin current_price) low_52w) (fsub high_52w low_52w)) (Fin 100) in
  sma_20 ← iloc_neg (rolling_mean 20 (Close <$> data)) 1;
  sma_50 ← iloc_neg (rolling_mean 50 (Close <$> data)) 1;
  current_rsi ← iloc_neg (entry_rsi (Close <$> data)) 1;
  let signals :=
    entry_signals range_position current_rsi (Fin current_price) sma_20 sma_50 score in
  let entry_signal := entry_label score signals current_rsi range_position in
  mret {| entry_signal := entry_signal;
          entry_readings :=
            {[ "52w_range_position" := fround2 range_position;
               "current_vs_sma20" :=
                 fround2 (fmul (fsub (fdiv (Fin current_price) sma_20) (Fin 1)) (Fin 100));
               "current_vs_sma50" :=
                 fround2 (fmul (fsub (fdiv (Fin current_price) sma_50) (Fin 1)) (Fin 100));
               "rsi" := fround2 current_rsi ]};
          signals := Some signals |}.

Definition identify_entry_point (data : PriceSeries) (score : Q) : outcome EntryPoint :=
  if (length data <? 50)%nat then Return entry_insufficient
  else try_except (entry_point_body data score) (Return entry_error).

(** ** The buy decision ([StockAnalyzer.should_buy_now])

    The [recommendation] chosen by the decision chain from the overall
    score and the entry signal of one analysis. *)
Definition recommendation (score : Q) (entry : string) : string :=
  if Qgeb score 70
     && bool_decide (entry ∈ ["Strong Buy Now"; "Good Entry Point"])
  then "YES - Strong Buy"
  else if Qgeb score 60
          && bool_decide (entry ∈ ["Strong Buy Now"; "Good Entry Point"; "Consider Buying"])
  then "YES - Buy"
  else if Qgeb score 50
          && bool_decide (entry ∈ ["Strong Buy Now"; "Good Entry Point"])
  then "MAYBE - Consider"
  else "NO - Wait".


(** ** Dictionary subscripts

    [d[k]] raises [KeyError] on a missing key, and arithmetic on an entry
    that is a string raises [TypeError]; neither is caught by the callers
    modelled below. *)

Inductive lookup_error := KeyError (key : string) | TypeError.

Inductive attempt (A : Type) :=
  | Done (a : A)
  | Failed (e : lookup_error).
Arguments Done {A} a.
Arguments Failed {A} e.

Global Instance attempt_ret : MRet attempt := @Done.
Global Instance attempt_bind : MBind attempt := λ A B f m,
  match m with
  | Done a => f a
  | Failed e => Failed e
  end.

Definition subscript (d : Dict) (k : string) : attempt pyval :=
  match d !! k with
  | Some v => Done v
  | None => Failed (KeyError k)
  end.

(** A dictionary entry used as a number. *)
Definition as_number (v : pyval) : attempt num :=
  match v with
  | PInt n => Done (Fin (inject_Z n))
  | PFloat x => Done x
  | PStr _ => Failed TypeError
  end.

(** ** The sentiment analyzer ([SentimentAnalyzer]) *)

(** [round(x, 3)] *)
Definition round3 (x : Q) : Q := Qred (round_half_even (x * 1000) # 1000).

(** A news item: the entries [title] and [summary] of its dictionary. *)
Record Article := { title : option string; summary : option string }.

(** [s.iloc[-a:-b]] *)
Definition iloc_between {A} (a b : nat) (s : list A) : list A :=
  let start := (length s - a)%nat in
  let stop := (length s - b)%nat in
  take (stop - start) (drop start s).

Definition recent_return_points (recent_return : num) : Z :=
  if fgtb recent_return (Fin 10) then 20
  else if fgtb recent_return (Fin 5) then 10
  else if fgtb recent_return (Fin 0) then 5
  else if fltb recent_return (Fin (-10)) then -20
  else if fltb recent_return (Fin (-5)) then -10
  else if fltb recent_return (Fin 0) then -5
  else 0.

Definition volume_ratio_points (volume_ratio : num) : Z :=
  if fgtb volume_ratio (Fin (pct 150)) then 10
  else if fgtb volume_ratio (Fin (pct 120)) then 5
  else if fltb volume_ratio (Fin (pct 80)) then -5
  else 0.

Definition trend_points (current_price sma_20 sma_50 : num) : Z :=
  if fgtb current_price sma_20 && fgtb sma_20 sma_50 then 10
  else if fltb current_price sma_20 && fltb sma_20 sma_50 then -10
  else 0.

Definition market_fallback : Dict :=
  {[ "market_sentiment" := PFloat (Fin 50); "volume_trend" := PStr "neutral" ]}.

Definition news_result
    (sentiment_score : Q) (news_count positive negative neutral : Z) (average_polarity : Q)
    : Dict :=
  {[ "sentiment_score" := PFloat (Fin sentiment_score);
     "news_count" := PInt news_count;
     "positive_count" := PInt positive;
     "negative_count" := PInt negative;
     "neutral_count" := PInt neutral;
     "average_polarity" := PFloat (Fin average_polarity) ]}.

Record SentimentResult := {
  overall_sentiment_score : num;
  sentiment_rating : string;
  news_sentiment : Dict;
  market_sentiment : Dict
}.

Section Sentiment.
(** [TextBlob(text).sentiment] (polarity, subjectivity) and
    [yf.Ticker(symbol).news] are external; each may raise. *)
Variable textblob_sentiment : string → outcome (Q * Q).
Variable yf_news : string → outcome (list Article).
(** [Series.std()] and the float [252 ** 0.5]. *)
Variable std : list num → num.
Variable sqrt_252 : Q.

Definition analyze_text (text : string) : Q * Q :=
  match textblob_sentiment text with
  | Return (polarity, subjectivity) => (polarity, subjectivity)
  | Raise _ => (0, 0)
  end.

(** [f"{title}. {summary}"] with [article.get(k, '')]. *)
Definition article_text (article : Article) : string :=
  default "" (title article) +:+ ". " +:+ default "" (summary article).

(** One round of the loop over [news[:20]], on the locals [sentiments],
    [positive], [negative] and [neutral]. *)
Definition count_article (st : list Q * Z * Z * Z) (article : Article)
    : list Q * Z * Z * Z :=
  let '(sentiments, positive, negative, neutral) := st in
  let '(polarity, subjectivity) := analyze_text (article_text article) in
  let sentiments := sentiments ++ [polarity] in
  if Qgtb polarity (pct 10) then (sentiments, positive + 1, negative, neutral)%Z
  else if Qltb polarity (- pct 10) then (sentiments, positive, negative + 1, neutral)%Z
  else (sentiments, positive, negative, neutral + 1)%Z.

Definition news_body (symbol : string) : outcome Dict :=
  news ← yf_news symbol;
  match news with
  | [] => mret (news_result 0 0 0 0 0 0)
  | _ =>
      let '(sentiments, positive, negative, neutral) :=
        foldl count_article ([], 0, 0, 0)%Z (take 20 news) in
      avg_sentiment ← match sentiments with
                      | [] => mret 0
                      | _ => pydiv (Qsum sentiments) (Qnat (length sentiments))
                      end;
      let sentiment_score := ((avg_sentiment + 1) / 2) * 100 in
      mret (news_result (round2 sentiment_score) (Z.of_nat (length news))
              positive negative neutral (round3 avg_sentiment))
  end.

Definition get_stock_news_sentiment (symbol : string) : outcome Dict :=
  try_except (news_body symbol) (Return (news_result 50 0 0 0 0 0)).

Definition market_body (data : PriceSeries) : outcome Dict :=
  if (length data <? 20)%nat then mret market_fallback
  else
    g ← growth_over (Close <$> data) 20;
    let recent_return := fmul g (Fin 100) in
    let recent_volume := mean (Fin <$> iloc_tail 5 (Volume <$> data)) in
    let historical_volume := mean (Fin <$> iloc_between 30 5 (Volume <$> data)) in
    let volume_ratio :=
      if fgtb historical_volume (Fin 0) then fdiv recent_volume historical_volume
      else Fin 1 in
    let returns := pct_change (Close <$> data) in
    let volatility := fmul (fmul (std returns) (Fin sqrt_252)) (Fin 100) in
    sma_20 ← iloc_neg (rolling_mean 20 (Close <$> data)) 1;
    sma_50 ← (if (50 <=? length data)%nat
              then iloc_neg (rolling_mean 50 (Close <$> data)) 1
              else mret sma_20);
    current_price ← iloc_neg (Close <$> data) 1;
    let sentiment := 50%Z in
    let sentiment := (sentiment + recent_return_points recent_return)%Z in
    let sentiment := (sentiment + volume_ratio_points volume_ratio)%Z in
    let sentiment := (sentiment + trend_points (Fin current_price) sma_20 sma_50)%Z in
    let sentiment := Z.max 0 (Z.min 100 sentiment) in
    let volume_trend :=
      if fgtb volume_ratio (Fin (pct 120)) then "increasing"
      else if fltb volume_ratio (Fin (pct 80)) then "decreasing"
      else "neutral" in
    mret ({[ "market_sentiment" := PInt sentiment;
             "volume_trend" := PStr volume_trend;
             "volume_ratio" := PFloat (fround2 volume_ratio);
             "recent_return" := PFloat (fround2 recent_return);
             "volatility" := PFloat (fround2 volatility);
             "price_vs_sma20" :=
               PFloat (fround2 (fmul (fsub (fdiv (Fin current_price) sma_20) (Fin 1))
                                     (Fin 100))) ]} : Dict).

(** The length test is inside the [try]. *)
Definition get_market_sentiment_indicators (data : PriceSeries) : outcome Dict :=
  try_except (market_body data) (Return market_fallback).

Definition sentiment_rating_of (overall_score : num) : string :=
  if fgeb overall_score (Fin 75) then "Very Bullish"
  else if fgeb overall_score (Fin 60) then "Bullish"
  else if fgeb overall_score (Fin 40) then "Neutral"
  else if fgeb overall_score (Fin 25) then "Bearish"
  else "Very Bearish".

(** [get_overall_sentiment] has no [try]: what its two callees raise, or a
    failing subscript, would reach the caller. *)
Definition get_overall_sentiment (symbol : string) (data : PriceSeries)
    : outcome (attempt SentimentResult) :=
  news_sentiment ← get_stock_news_sentiment symbol;
  market_sentiment ← get_market_sentiment_indicators data;
  mret (news_score ← subscript news_sentiment "sentiment_score" ≫= as_number;
        market_score ← subscript market_sentiment "market_sentiment" ≫= as_number;
        let overall_score :=
          fadd (fmul news_score (Fin (pct 40))) (fmul market_score (Fin (pct 60))) in
        mret {| overall_sentiment_score := fround2 overall_score;
                sentiment_rating := sentiment_rating_of overall_score;
                news_sentiment := news_sentiment;
                market_sentiment := market_sentiment |}).
End Sentiment.

(** ** Picking the gainers ([StockAnalyzer.get_top_gainers_prediction])

    Of one analysis, the entries that the ranking functions read. *)
Record Analysis := {
  symbol : string;
  analysis_overall_score : Q;      (* a['overall_score']['overall_score'] *)
  analysis_momentum_score : Q;     (* a['momentum']['score'] *)
  analysis_tomorrow : Dict         (* a['predictions']['tomorrow'] *)
}.

Definition pyval_eqb (v w : pyval) : bool :=
  match v, w with
  | PStr s, PStr s' => bool_decide (s = s')
  | PInt n, PInt n' => (n =? n')%Z
  | _, _ => false
  end.

(** The list comprehension that keeps the analyses whose
    [predictions.tomorrow.direction] equals 'Up' and whose overall score is at
    least 50; the direction is subscripted first. *)
Fixpoint gainers (analyses : list Analysis) : attempt (list Analysis) :=
  match analyses with
  | [] => mret []
  | a :: rest =>
      direction ← subscript (analysis_tomorrow a) "direction";
      let keep := pyval_eqb direction (PStr "Up") && Qgeb (analysis_overall_score a) 50 in
      rest' ← gainers rest;
      mret (if keep then a :: rest' else rest')
  end.

(** The effect of one scoring block: the budget grows by [b] and the
    score by between 0 and [p] points. *)
Definition scores_within {D} (b p : Z) (t t' : Tally D) : Prop :=
  max_score t' = (max_score t + b)%Z ∧ (score t ≤ score t' ≤ score t + p)%Z.

(** The ratio [upside / downside] of each score tier. *)
Definition risk_reward_of (score : Q) : Q :=
  if Qgeb score 80 then 25 # 8
  else if Qgeb score 70 then 15 # 8
  else if Qgeb score 65 then 3 # 2
  else if Qgeb score 50 then 1
  else 1 # 3.


(** TextBlob's contract: a polarity lies between -1 and 1. *)
Definition polarity_bounded (textblob_sentiment : string → outcome (Q * Q)) : Prop :=
  ∀ text p s, textblob_sentiment text = Return (p, s) → -1 <= p ∧ p <= 1.


(** The test of that comprehension on one analysis. *)
Definition is_gainer (a : Analysis) : bool :=
  match analysis_tomorrow a !! "direction" with
  | Some direction => pyval_eqb direction (PStr "Up") && Qgeb (analysis_overall_score a) 50
  | None => false
  end.


(** ** Sample inputs *)

(** A flat series: [n] rows whose prices all equal [c], with volume [v]. *)
Definition flat_series (n : nat) (c v : Q) : PriceSeries :=
  replicate n {| Open := c; High := c; Low := c; Close := c; Volume := v |}.

(** A standard deviation that is [nan] (pandas on a column without
    numbers) and one that is zero (a column of equal numbers). *)
Definition std_nan (s : list num) : num := NaN.
Definition std_zero (s : list num) : num := Fin 0.

(** A rising series: on day [i] (from 1) the prices and the volume are [i]. *)
Definition rising_series (n : nat) : PriceSeries :=
  (λ i : nat, let x := Qnat (S i) in
     {| Open := x; High := x; Low := x; Close := x; Volume := x |}) <$> seq 0 n.

(** An indicator library with fixed last readings. *)
Definition fixed_ta (rsi macd signal hband lband mavg adx : Q) : ta_library :=
  {| ta_rsi := λ _ _, Return [Fin rsi];
     ta_macd := λ _, Return [Fin macd];
     ta_macd_signal := λ _, Return [Fin signal];
     ta_bollinger_hband := λ _, Return [Fin hband];
     ta_bollinger_lband := λ _, Return [Fin lband];
     ta_bollinger_mavg := λ _, Return [Fin mavg];
     ta_adx := λ _ _ _, Return [Fin adx] |}.

(** A falling series: the rising one in reverse order. *)
Definition falling_series (n : nat) : PriceSeries := reverse (rising_series n).


(** A series that doubles every day from 1, with a constant volume. *)
Definition doubling_series (n : nat) : PriceSeries :=
  (λ i : nat, let x := inject_Z (2 ^ Z.of_nat i) in
     {| Open := x; High := x; Low := x; Close := x; Volume := 1000 |}) <$> seq 0 n.

(** The short-term forecast for one day on 30 rows of the doubling series
    (with a volatility of zero). *)
Definition doubling_forecast : Dict :=
  {[ "current_price" := PFloat (Fin 536870912);
     "predicted_price" := PFloat (Fin 1073741824);
     "predicted_change_pct" := PFloat (Fin 100);
     "direction" := PStr "Up";
     "magnitude" := PFloat (Fin 100);
     "confidence" := PFloat (Fin 100);
     "timeframe" := PStr "1 day(s)" ]}.


(** * Properties *)

(** ** Comparisons and rounding *)

Lemma Qltb_lt x y : Qltb x y = true ↔ x < y.
Proof.
  unfold Qltb. rewrite negb_true_iff, <- not_true_iff_false, Qle_bool_iff.
  split; [apply Qnot_le_lt | apply Qlt_not_le].
Qed.

Lemma Qltb_ge x y : Qltb x y = false ↔ y <= x.
Proof. unfold Qltb. rewrite negb_false_iff. apply Qle_bool_iff. Qed.

Lemma Qgeb_le x y : Qgeb x y = true ↔ y <= x.
Proof. apply Qle_bool_iff. Qed.

Lemma Qgeb_lt x y : Qgeb x y = false ↔ x < y.
Proof.
  unfold Qgeb. rewrite <- not_true_iff_false, Qle_bool_iff.
  split; [apply Qnot_le_lt | apply Qlt_not_le].
Qed.

Lemma round_half_even_proper x y : x == y → round_half_even x = round_half_even y.
Proof.
  intros E. unfold round_half_even.
  rewrite (Qfloor_comp _ _ E).
  replace (Qcompare (x - inject_Z (Qfloor y)) (1 # 2))
    with (Qcompare (y - inject_Z (Qfloor y)) (1 # 2)); [reflexivity|].
  apply Qcompare_comp; [rewrite E|]; reflexivity.
Qed.

Lemma round2_proper x y : x == y → round2 x = round2 y.
Proof.
  intros E. unfold round2.
  rewrite (round_half_even_proper (x * 100) (y * 100)); [reflexivity|].
  rewrite E. reflexivity.
Qed.

Lemma round_half_even_near x :
  - (1 # 2) <= inject_Z (round_half_even x) - x <= 1 # 2.
Proof.
  unfold round_half_even.
  pose proof (Qfloor_le x) as Hlo. pose proof (Qlt_floor x) as Hhi.
  rewrite inject_Z_plus in Hhi. change (inject_Z 1) with 1 in Hhi.
  destruct (Qcompare (x - inject_Z (Qfloor x)) (1 # 2)) eqn:C.
  - apply Qeq_alt in C.
    destruct (Z.even (Qfloor x)); [|rewrite inject_Z_plus; change (inject_Z 1) with 1]; lra.
  - apply Qlt_alt in C. lra.
  - apply Qgt_alt in C. rewrite inject_Z_plus. change (inject_Z 1) with 1. lra.
Qed.

Lemma round_half_even_range (a b : Z) x :
  inject_Z a <= x → x <= inject_Z b → (a ≤ round_half_even x ≤ b)%Z.
Proof.
  intros Ha Hb.
  assert (Hfa : (a ≤ Qfloor x)%Z).
  { rewrite <- (Qfloor_Z a). apply Qfloor_resp_le, Ha. }
  assert (Hfb : (Qfloor x ≤ b)%Z).
  { rewrite <- (Qfloor_Z b). apply Qfloor_resp_le, Hb. }
  assert (Hup : 0 < x - inject_Z (Qfloor x) → (Qfloor x + 1 ≤ b)%Z).
  { intros Hpos. enough (Qfloor x < b)%Z by lia.
    rewrite Zlt_Qlt. lra. }
  pose proof (Qfloor_le x) as Hlo.
  unfold round_half_even.
  destruct (Qcompare (x - inject_Z (Qfloor x)) (1 # 2)) eqn:C.
  - apply Qeq_alt in C. destruct (Z.even (Qfloor x)); [lia|].
    split; [lia|]. apply Hup. lra.
  - lia.
  - apply Qgt_alt in C. split; [lia|]. apply Hup. lra.
Qed.

Lemma round2_value x : round2 x == inject_Z (round_half_even (x * 100)) / 100.
Proof.
  unfold round2. rewrite Qred_correct.
  unfold Qeq, Qdiv, Qmult, Qinv, inject_Z. simpl. lia.
Qed.

Lemma round2_near x : Qabs (round2 x - x) <= 1 # 200.
Proof.
  rewrite round2_value. pose proof (round_half_even_near (x * 100)) as [H1 H2].
  apply Qabs_Qle_condition.
  set (n := inject_Z (round_half_even (x * 100))) in *.
  assert (n / 100 == n * (1 # 100)) as -> by (unfold Qdiv; reflexivity).
  split; lra.
Qed.

Lemma round2_range x : 0 <= x → x <= 100 → 0 <= round2 x ∧ round2 x <= 100.
Proof.
  intros H0 H100.
  destruct (round_half_even_range 0 10000 (x * 100)) as [Hn0 Hn1].
  { change (inject_Z 0) with 0. lra. }
  { change (inject_Z 10000) with 10000. lra. }
  rewrite round2_value.
  set (n := round_half_even (x * 100)) in *.
  assert (inject_Z n / 100 == inject_Z n * (1 # 100)) as -> by (unfold Qdiv; reflexivity).
  rewrite Zle_Qle in Hn0, Hn1.
  change (inject_Z 0) with 0 in Hn0. change (inject_Z 10000) with 10000 in Hn1.
  split; lra.
Qed.

(** ** binary64 rounding *)

Lemma pow2_pos e : 0 < pow2 e.
Proof. apply Qpower_0_lt. reflexivity. Qed.

Lemma pow2_add a b : pow2 (a + b) == pow2 a * pow2 b.
Proof. apply Qpower_plus. discriminate. Qed.

Lemma pow2_le a b : (a ≤ b)%Z → pow2 a <= pow2 b.
Proof. intros H. apply Qpower_le_compat_l; [exact H | discriminate]. Qed.

Lemma pow2_lt a b : (a < b)%Z → pow2 a < pow2 b.
Proof. intros H. apply Qpower_lt_compat_l; [exact H | reflexivity]. Qed.

Lemma pow2_lt_inv a b : pow2 a < pow2 b → (a < b)%Z.
Proof. intros H. apply (Qpower_lt_compat_l_inv 2); [exact H | reflexivity]. Qed.

Lemma pow2_Z n : (0 ≤ n)%Z → inject_Z (2 ^ n) == pow2 n.
Proof. intros H. apply Zpower_Qpower, H. Qed.

Lemma pow2_succ a : pow2 (a + 1) == 2 * pow2 a.
Proof. rewrite pow2_add. change (pow2 1) with 2. ring. Qed.

Lemma Qmult_lt_cancel (x y z : Q) : 0 < z → x * z < y * z → x < y.
Proof. intros Hz H. apply (Qmult_lt_r x y z Hz), H. Qed.

Lemma Qlog2_spec q : 0 < q → pow2 (Qlog2 q) <= q ∧ q < pow2 (Qlog2 q + 1).
Proof.
  intros Hq. destruct q as [n d].
  assert (Hn : (0 < n)%Z) by (unfold Qlt in Hq; simpl in Hq; lia).
  unfold Qlog2. simpl Qnum. simpl Qden.
  set (a := Z.log2 n). set (b := Z.log2 (Z.pos d)).
  destruct (Z.log2_spec n Hn) as [A1 A2]. fold a in A1, A2.
  destruct (Z.log2_spec (Z.pos d) (Pos2Z.is_pos d)) as [B1 B2]. fold b in B1, B2.
  assert (Ha : (0 ≤ a)%Z) by apply Z.log2_nonneg.
  assert (Hb : (0 ≤ b)%Z) by apply Z.log2_nonneg.
  rewrite Zle_Qle, pow2_Z in A1, B1 by assumption.
  rewrite Zlt_Qlt, pow2_Z in A2, B2 by lia.
  replace (Z.succ a) with (a + 1)%Z in A2 by lia.
  replace (Z.succ b) with (b + 1)%Z in B2 by lia.
  assert (Hqd : (n # d) * inject_Z (Z.pos d) == inject_Z n).
  { unfold Qeq, Qmult, inject_Z. simpl. lia. }
  assert (Hd : 0 < inject_Z (Z.pos d)) by reflexivity.
  pose proof (pow2_pos b) as Pb.
  assert (Hup : (n # d) < pow2 (a - b + 1)).
  { apply (Qmult_lt_cancel _ _ (inject_Z (Z.pos d)) Hd). rewrite Hqd.
    apply (Qlt_le_trans _ _ _ A2).
    replace (a + 1)%Z with ((a - b + 1) + b)%Z by lia. rewrite pow2_add.
    apply Qmult_le_l; [apply pow2_pos | exact B1]. }
  assert (Hlo : pow2 (a - b - 1) < (n # d)).
  { apply (Qmult_lt_cancel _ _ (inject_Z (Z.pos d)) Hd). rewrite Hqd.
    apply (Qlt_le_trans _ (pow2 (a - b - 1) * pow2 (b + 1))).
    - apply Qmult_lt_l; [apply pow2_pos | exact B2].
    - rewrite <- pow2_add. replace (a - b - 1 + (b + 1))%Z with a by lia. exact A1. }
  destruct (Qle_bool (pow2 (a - b)) (n # d)) eqn:E.
  - apply Qle_bool_iff in E. split; assumption.
  - replace (a - b - 1 + 1)%Z with (a - b)%Z by lia. split.
    + apply Qlt_le_weak, Hlo.
    + apply Qnot_le_lt. intros H. apply Qle_bool_iff in H. congruence.
Qed.

Lemma Qlog2_lower q L : 0 < q → pow2 L <= q → (L ≤ Qlog2 q)%Z.
Proof.
  intros Hq H. destruct (Qlog2_spec q Hq) as [_ Hup].
  enough (L < Qlog2 q + 1)%Z by lia.
  apply pow2_lt_inv. apply (Qle_lt_trans _ q); assumption.
Qed.

Lemma Qlog2_upper q L : 0 < q → q < pow2 (L + 1) → (Qlog2 q ≤ L)%Z.
Proof.
  intros Hq H. destruct (Qlog2_spec q Hq) as [Hlo _].
  enough (Qlog2 q < L + 1)%Z by lia.
  apply pow2_lt_inv. apply (Qle_lt_trans _ q); assumption.
Qed.

Lemma Qlog2_proper q q' : 0 < q → q == q' → Qlog2 q = Qlog2 q'.
Proof.
  intros Hq E. assert (Hq' : 0 < q') by (rewrite <- E; exact Hq).
  destruct (Qlog2_spec q Hq) as [A1 A2]. destruct (Qlog2_spec q' Hq') as [B1 B2].
  assert (A1' : pow2 (Qlog2 q) <= q') by (rewrite <- E; exact A1).
  assert (A2' : q' < pow2 (Qlog2 q + 1)) by (rewrite <- E; exact A2).
  pose proof (Qlog2_lower q' _ Hq' A1'). pose proof (Qlog2_upper q' _ Hq' A2'). lia.
Qed.

Lemma round_half_even_zero x : x == 0 → round_half_even x = 0%Z.
Proof. intros E. rewrite (round_half_even_proper _ _ E). reflexivity. Qed.

Ltac compare_to_order C :=
  match type of C with
  | Qcompare _ _ = Eq => apply Qeq_alt in C
  | Qcompare _ _ = Lt => apply Qlt_alt in C
  | Qcompare _ _ = Gt => apply Qgt_alt in C
  end.

Lemma round_half_even_monotone x y :
  x <= y → (round_half_even x ≤ round_half_even y)%Z.
Proof.
  intros Hxy.
  pose proof (Qfloor_resp_le _ _ Hxy) as Hf.
  pose proof (Qfloor_le x) as Hx0. pose proof (Qlt_floor x) as Hx1.
  pose proof (Qfloor_le y) as Hy0. pose proof (Qlt_floor y) as Hy1.
  rewrite inject_Z_plus in Hx1, Hy1. change (inject_Z 1) with 1 in Hx1, Hy1.
  destruct (Z.eq_dec (Qfloor x) (Qfloor y)) as [E | N].
  - unfold round_half_even. rewrite <- E. rewrite <- E in Hy0, Hy1.
    destruct (Qcompare (x - inject_Z (Qfloor x)) (1 # 2)) eqn:C,
             (Qcompare (y - inject_Z (Qfloor x)) (1 # 2)) eqn:C';
      compare_to_order C; compare_to_order C';
      try (destruct (Z.even (Qfloor x))); try lia; exfalso; lra.
  - assert (Hlt : (Qfloor x + 1 ≤ Qfloor y)%Z) by lia.
    assert (H1 : (round_half_even x ≤ Qfloor x + 1)%Z).
    { unfold round_half_even.
      destruct (Qcompare _ _); [destruct (Z.even _)|..]; lia. }
    assert (H2 : (Qfloor y ≤ round_half_even y)%Z).
    { unfold round_half_even.
      destruct (Qcompare _ _); [destruct (Z.even _)|..]; lia. }
    lia.
Qed.

(** *** The rounded value of a non-negative rational *)

Lemma Qdiv_pow2_mult q e : q / pow2 e * pow2 e == q.
Proof. field. intros E. pose proof (pow2_pos e) as H. rewrite E in H. discriminate. Qed.

Lemma rounded_zero q : q == 0 → rounded q == 0.
Proof.
  intros E. unfold rounded. rewrite round_half_even_zero; [ring|].
  generalize (pow2 (ulp_exponent q)). intros p. rewrite E. unfold Qdiv. ring.
Qed.

Lemma rounded_nonneg q : 0 <= q → 0 <= rounded q.
Proof.
  intros Hq. unfold rounded.
  pose proof (pow2_pos (ulp_exponent q)) as Hp.
  apply Qmult_le_0_compat; [|apply Qlt_le_weak, Hp].
  destruct (round_half_even_range 0 (Qceiling (q / pow2 (ulp_exponent q)))
              (q / pow2 (ulp_exponent q))) as [H _].
  - apply Qle_shift_div_l; [exact Hp|]. change (inject_Z 0) with 0. lra.
  - apply Qle_ceiling.
  - rewrite Zle_Qle in H. exact H.
Qed.

Lemma rounded_error q :
  Qabs (rounded q - q) <= pow2 (ulp_exponent q) * (1 # 2).
Proof.
  unfold rounded. set (e := ulp_exponent q).
  pose proof (pow2_pos e) as Hp.
  pose proof (round_half_even_near (q / pow2 e)) as [H1 H2].
  set (m := inject_Z (round_half_even (q / pow2 e))) in *.
  pose proof (Qdiv_pow2_mult q e) as Hq.
  set (x := q / pow2 e) in *.
  apply Qabs_Qle_condition. rewrite <- Hq.
  assert (E1 : m * pow2 e - x * pow2 e == (m - x) * pow2 e) by ring.
  rewrite E1. split.
  - assert (E2 : - (pow2 e * (1 # 2)) == (- (1 # 2)) * pow2 e) by ring.
    rewrite E2. apply Qmult_le_compat_r; [exact H1 | apply Qlt_le_weak, Hp].
  - rewrite (Qmult_comm (pow2 e)).
    apply Qmult_le_compat_r; [exact H2 | apply Qlt_le_weak, Hp].
Qed.

Lemma ulp_exponent_proper q q' : 0 < q → q == q' → ulp_exponent q = ulp_exponent q'.
Proof. intros Hq E. unfold ulp_exponent. rewrite (Qlog2_proper q q' Hq E). reflexivity. Qed.

Lemma rounded_proper q q' : 0 <= q → q == q' → rounded q == rounded q'.
Proof.
  intros Hq E. destruct (Qeq_dec q 0) as [Z | N].
  - rewrite (rounded_zero q Z), (rounded_zero q'); [reflexivity|]. rewrite <- E. exact Z.
  - assert (Hpos : 0 < q).
    { apply Qle_lt_or_eq in Hq. destruct Hq as [H | H]; [exact H|].
      exfalso. apply N. symmetry. exact H. }
    unfold rounded. rewrite <- (ulp_exponent_proper q q' Hpos E).
    rewrite (round_half_even_proper (q / pow2 (ulp_exponent q)) (q' / pow2 (ulp_exponent q)));
      [reflexivity|].
    generalize (pow2 (ulp_exponent q)). intros p. rewrite E. reflexivity.
Qed.

Lemma ulp_exponent_monotone q1 q2 :
  0 < q1 → q1 <= q2 → (ulp_exponent q1 ≤ ulp_exponent q2)%Z.
Proof.
  intros H1 H12. unfold ulp_exponent.
  assert (H2 : 0 < q2) by (apply (Qlt_le_trans _ q1); assumption).
  destruct (Qlog2_spec q1 H1) as [A _].
  pose proof (Qlog2_lower q2 (Qlog2 q1) H2 (Qle_trans _ _ _ A H12)). lia.
Qed.

Lemma rounded_monotone q1 q2 : 0 <= q1 → q1 <= q2 → rounded q1 <= rounded q2.
Proof.
  intros H1 H12.
  assert (H2 : 0 <= q2) by (apply (Qle_trans _ q1); assumption).
  destruct (Qeq_dec q1 0) as [Z | N].
  { rewrite (rounded_zero q1 Z). apply rounded_nonneg, H2. }
  assert (P1 : 0 < q1).
  { apply Qle_lt_or_eq in H1. destruct H1 as [H | H]; [exact H|].
    exfalso. apply N. symmetry. exact H. }
  assert (P2 : 0 < q2) by (apply (Qlt_le_trans _ q1); assumption).
  pose proof (ulp_exponent_monotone q1 q2 P1 H12) as He.
  unfold rounded.
  set (e1 := ulp_exponent q1) in *. set (e2 := ulp_exponent q2) in *.
  pose proof (pow2_pos e1) as Hp1. pose proof (pow2_pos e2) as Hp2.
  destruct (Z.eq_dec e1 e2) as [E | Hne].
  - rewrite <- E. apply Qmult_le_compat_r; [|apply Qlt_le_weak, Hp1].
    rewrite <- Zle_Qle. apply round_half_even_monotone.
    apply Qmult_le_compat_r; [exact H12|]. apply Qlt_le_weak, Qinv_lt_0_compat, Hp1.
  - assert (Hlt : (e1 + 1 ≤ e2)%Z) by lia.
    (* the smaller one stays within its binade, the larger one is normal *)
    destruct (Qlog2_spec q1 P1) as [_ U1]. destruct (Qlog2_spec q2 P2) as [L2 _].
    assert (Hl1 : (Qlog2 q1 - 52 ≤ e1)%Z) by (unfold e1, ulp_exponent; lia).
    assert (Hl2 : e2 = (Qlog2 q2 - 52)%Z) by (unfold e1, e2, ulp_exponent in *; lia).
    apply (Qle_trans _ (pow2 (e1 + 53))).
    + rewrite pow2_add.
      rewrite (Qmult_comm (pow2 e1)).
      apply Qmult_le_compat_r; [|apply Qlt_le_weak, Hp1].
      assert (R : (round_half_even (q1 / pow2 e1) ≤ 2 ^ 53)%Z).
      { apply (round_half_even_range 0 (2 ^ 53)).
        - apply Qle_shift_div_l; [exact Hp1|]. change (inject_Z 0) with 0. lra.
        - apply Qle_shift_div_r; [exact Hp1|].
          rewrite pow2_Z by lia. rewrite <- pow2_add.
          apply Qlt_le_weak, (Qlt_le_trans _ _ _ U1), pow2_le. lia. }
      rewrite Zle_Qle, pow2_Z in R by lia. exact R.
    + apply (Qle_trans _ (pow2 (e2 + 52))); [apply pow2_le; lia|].
      rewrite pow2_add. rewrite (Qmult_comm (pow2 e2)).
      apply Qmult_le_compat_r; [|apply Qlt_le_weak, Hp2].
      assert (R : (2 ^ 52 ≤ round_half_even (q2 / pow2 e2))%Z).
      { apply (round_half_even_range (2 ^ 52) (Qceiling (q2 / pow2 e2))).
        - apply Qle_shift_div_l; [exact Hp2|].
          rewrite pow2_Z by lia. rewrite <- pow2_add.
          replace (52 + e2)%Z with (Qlog2 q2) by lia. exact L2.
        - apply Qle_ceiling. }
      rewrite Zle_Qle, pow2_Z in R by lia. exact R.
Qed.

(** *** Rounding a rational of either sign *)

Lemma nearest64_proper q q' : 0 <= q → q == q' → nearest64 q = nearest64 q'.
Proof.
  intros Hq E. unfold nearest64.
  pose proof (rounded_proper q q' Hq E) as R.
  rewrite (Qleb_comp _ _ (reflexivity (pow2 1024)) _ _ R).
  rewrite (Qred_complete _ _ R). reflexivity.
Qed.

Lemma Qle_bool_false x y : Qle_bool x y = false ↔ y < x.
Proof.
  rewrite <- not_true_iff_false, Qle_bool_iff.
  split; [apply Qnot_le_lt | apply Qlt_not_le].
Qed.

Lemma binary64_proper q q' : q == q' → binary64 q = binary64 q'.
Proof.
  intros E. unfold binary64.
  rewrite (Qleb_comp _ _ (reflexivity 0) _ _ E).
  destruct (Qle_bool 0 q') eqn:S.
  - apply Qle_bool_iff in S. apply nearest64_proper; [rewrite E; exact S | exact E].
  - apply Qle_bool_false in S. f_equal. apply nearest64_proper; [|rewrite E; reflexivity].
    rewrite E. lra.
Qed.

Lemma nearest64_zero q : q == 0 → nearest64 q = Fin 0.
Proof.
  intros E. rewrite (nearest64_proper q 0); [reflexivity | rewrite E; apply Qle_refl | exact E].
Qed.

Lemma binary64_opp q : binary64 (- q) = fneg (binary64 q).
Proof.
  unfold binary64.
  destruct (Qle_bool 0 q) eqn:S, (Qle_bool 0 (- q)) eqn:S'.
  - apply Qle_bool_iff in S, S'.
    assert (E : q == 0) by lra.
    rewrite (nearest64_zero q E), (nearest64_zero (- q)); [reflexivity|]. rewrite E. reflexivity.
  - apply Qle_bool_iff in S.
    rewrite (nearest64_proper (- - q) q); [reflexivity | lra | ring].
  - destruct (nearest64 (- q)) as [r| | |]; try reflexivity.
    simpl. f_equal. destruct r as [n d]. unfold Qopp. simpl. f_equal. lia.
  - apply Qle_bool_false in S, S'. exfalso. lra.
Qed.

(** The rounding error is at most half a unit in the last place, and there
    is no overflow below [2^1023]. *)
Lemma nearest64_error q L :
  0 <= q → q < pow2 (L + 1) → (-1022 ≤ L ≤ 1022)%Z →
  ∃ r, nearest64 q = Fin r ∧ 0 <= r ∧ Qabs (r - q) <= pow2 (L - 53).
Proof.
  intros Hq Hup HL.
  destruct (Qeq_dec q 0) as [Z | N].
  { exists 0. rewrite (nearest64_zero q Z). split; [reflexivity|]. split; [apply Qle_refl|].
    rewrite Z. apply Qlt_le_weak, pow2_pos. }
  assert (P : 0 < q).
  { apply Qle_lt_or_eq in Hq. destruct Hq as [H | H]; [exact H|].
    exfalso. apply N. symmetry. exact H. }
  pose proof (Qlog2_upper q L P Hup) as Hlog.
  pose proof (rounded_error q) as Herr.
  pose proof (rounded_nonneg q Hq) as Hnn.
  assert (He : pow2 (ulp_exponent q) * (1 # 2) <= pow2 (L - 53)).
  { apply (Qle_trans _ (pow2 (L - 52) * (1 # 2))).
    - apply Qmult_le_compat_r; [|discriminate]. apply pow2_le. unfold ulp_exponent. lia.
    - replace (L - 52)%Z with (L - 53 + 1)%Z by lia. rewrite pow2_succ.
      apply Qle_lteq. right. ring. }
  assert (Hbound : Qabs (rounded q - q) <= pow2 (L - 53)) by (apply (Qle_trans _ _ _ Herr He)).
  exists (Qred (rounded q)). unfold nearest64.
  assert (Hno : Qle_bool (pow2 1024) (rounded q) = false).
  { apply Qle_bool_false.
    apply Qabs_Qle_condition in Hbound as [_ Hb].
    assert (H1 : pow2 (L + 1) <= pow2 1023) by (apply pow2_le; lia).
    assert (H2 : pow2 (L - 53) <= pow2 969) by (apply pow2_le; lia).
    assert (H3 : pow2 1023 + pow2 969 < pow2 1024) by reflexivity.
    lra. }
  rewrite Hno. split; [reflexivity|]. rewrite Qred_correct. split; assumption.
Qed.

Lemma binary64_error q L :
  Qabs q < pow2 (L + 1) → (-1022 ≤ L ≤ 1022)%Z →
  ∃ r, binary64 q = Fin r ∧ Qabs (r - q) <= pow2 (L - 53).
Proof.
  intros Hup HL. unfold binary64.
  destruct (Qle_bool 0 q) eqn:S.
  - apply Qle_bool_iff in S. rewrite (Qabs_pos q S) in Hup.
    destruct (nearest64_error q L S Hup HL) as (r & -> & _ & Hr). exists r. tauto.
  - apply Qle_bool_false in S.
    rewrite (Qabs_neg q) in Hup by lra.
    destruct (nearest64_error (- q) L) as (r & -> & _ & Hr); [lra | exact Hup | exact HL |].
    exists (- r). split; [reflexivity|].
    apply Qabs_Qle_condition in Hr as [H1 H2]. apply Qabs_Qle_condition. split; lra.
Qed.

(** In the normal range the error is at most [2^-53] of the magnitude. *)
Lemma binary64_relative q :
  pow2 (-1022) <= Qabs q → Qabs q < pow2 1023 →
  ∃ r, binary64 q = Fin r ∧ Qabs (r - q) <= Qabs q * pow2 (-53).
Proof.
  intros Hlo Hup.
  assert (P : 0 < Qabs q) by (apply (Qlt_le_trans _ (pow2 (-1022))); [apply pow2_pos | exact Hlo]).
  pose proof (Qlog2_lower _ _ P Hlo) as L1.
  assert (L2 : (Qlog2 (Qabs q) ≤ 1022)%Z) by (apply Qlog2_upper; assumption).
  destruct (Qlog2_spec _ P) as [S1 S2].
  destruct (binary64_error q (Qlog2 (Qabs q)) S2) as (r & Hr & Herr); [lia|].
  exists r. split; [exact Hr|].
  apply (Qle_trans _ _ _ Herr).
  replace (Qlog2 (Qabs q) - 53)%Z with (Qlog2 (Qabs q) + -53)%Z by lia.
  rewrite pow2_add. apply Qmult_le_compat_r; [exact S1 | apply Qlt_le_weak, pow2_pos].
Qed.

Lemma nearest64_sign q : 0 <= q → num_le (Fin 0) (nearest64 q).
Proof.
  intros Hq. unfold nearest64. destruct (Qle_bool _ _); simpl; [exact I|].
  rewrite Qred_correct. apply rounded_nonneg, Hq.
Qed.

Lemma nearest64_monotone q1 q2 :
  0 <= q1 → q1 <= q2 → num_le (nearest64 q1) (nearest64 q2).
Proof.
  intros H1 H12. pose proof (rounded_monotone q1 q2 H1 H12) as R.
  unfold nearest64.
  destruct (Qle_bool (pow2 1024) (rounded q1)) eqn:O1,
           (Qle_bool (pow2 1024) (rounded q2)) eqn:O2; simpl; try exact I.
  - apply Qle_bool_iff in O1. apply Qle_bool_false in O2. lra.
  - rewrite !Qred_correct. exact R.
Qed.

Lemma num_le_fneg x y : num_le x y → num_le (fneg y) (fneg x).
Proof.
  destruct x, y; simpl; try tauto. intros H. apply Qopp_le_compat, H.
Qed.

Lemma num_le_trans x y z : num_le x y → num_le y z → num_le x z.
Proof.
  destruct x, y, z; simpl; try tauto. apply Qle_trans.
Qed.

(** Rounding is monotone. *)
Lemma binary64_monotone q1 q2 : q1 <= q2 → num_le (binary64 q1) (binary64 q2).
Proof.
  intros H. unfold binary64.
  destruct (Qle_bool 0 q1) eqn:S1, (Qle_bool 0 q2) eqn:S2.
  - apply Qle_bool_iff in S1. apply nearest64_monotone; assumption.
  - apply Qle_bool_iff in S1. apply Qle_bool_false in S2. exfalso. lra.
  - apply Qle_bool_false in S1. apply Qle_bool_iff in S2.
    apply (num_le_trans _ (Fin 0)).
    + change (Fin 0) with (fneg (Fin 0)). apply num_le_fneg, nearest64_sign. lra.
    + apply nearest64_sign, S2.
  - apply Qle_bool_false in S1, S2.
    apply num_le_fneg, nearest64_monotone; lra.
Qed.

Lemma binary64_not_nan q : binary64 q ≠ NaN.
Proof.
  unfold binary64, nearest64.
  destruct (Qle_bool 0 q); destruct (Qle_bool _ _); discriminate.
Qed.

(** A value between two arguments whose roundings are finite has a finite
    rounding between theirs. *)
Lemma binary64_between lo hi q a b :
  lo <= q → q <= hi → binary64 lo = Fin a → binary64 hi = Fin b →
  ∃ r, binary64 q = Fin r ∧ a <= r ∧ r <= b.
Proof.
  intros H1 H2 Ea Eb.
  pose proof (binary64_monotone lo q H1) as M1.
  pose proof (binary64_monotone q hi H2) as M2.
  rewrite Ea in M1. rewrite Eb in M2.
  destruct (binary64 q) as [r| | |]; simpl in *; try tauto.
  exists r. tauto.
Qed.

(** *** Operations on finite arguments *)

Lemma f64mul_Fin a b : f64mul (Fin a) (Fin b) = binary64 (a * b).
Proof. reflexivity. Qed.

Lemma f64add_Fin a b : f64add (Fin a) (Fin b) = binary64 (a + b).
Proof. reflexivity. Qed.

Lemma f64sub_Fin a b : f64sub (Fin a) (Fin b) = binary64 (a + - b).
Proof. reflexivity. Qed.

Lemma truediv_Fin a b : ¬ b == 0 → truediv (Fin a) (Fin b) = Return (binary64 (a / b)).
Proof.
  intros Hb. unfold truediv, f64, fdiv.
  destruct (Qeq_bool b 0) eqn:E; [|reflexivity].
  apply Qeq_bool_eq in E. contradiction.
Qed.

Lemma truediv_zero x b : b == 0 → truediv x (Fin b) = Raise ZeroDivisionError.
Proof. intros Hb. unfold truediv. rewrite (Qeq_eq_bool _ _ Hb). reflexivity. Qed.

(** A result between two bounds whose roundings are finite, with its
    rounding error. *)
Lemma binary64_bounded lo hi q a b L :
  lo <= q → q <= hi → binary64 lo = Fin a → binary64 hi = Fin b →
  Qabs q < pow2 (L + 1) → (-1022 ≤ L ≤ 1022)%Z →
  ∃ r, binary64 q = Fin r ∧ a <= r ∧ r <= b ∧ Qabs (r - q) <= pow2 (L - 53).
Proof.
  intros H1 H2 Ea Eb Hq HL.
  destruct (binary64_between lo hi q a b H1 H2 Ea Eb) as (r & Hr & Hab).
  destruct (binary64_error q L Hq HL) as (r' & Hr' & Herr).
  rewrite Hr in Hr'. injection Hr' as <-.
  exists r. tauto.
Qed.

(** ** The score combiner *)

Lemma weights_values :
  w_technical weights = 3152519739159347 # 9007199254740992 ∧
  w_fundamental weights = 3152519739159347 # 9007199254740992 ∧
  w_sentiment weights = 3602879701896397 # 18014398509481984 ∧
  w_momentum weights = 3602879701896397 # 36028797018963968.
Proof. repeat split; vm_compute; reflexivity. Qed.

Lemma fgeb_Fin a c : fgeb (Fin a) (Fin c) = Qgeb a c.
Proof. unfold fgeb, fltb, Qltb, Qgeb. apply negb_involutive. Qed.

Lemma determine_rating_proper x y :
  x == y → determine_rating (Fin x) = determine_rating (Fin y).
Proof.
  intros E. unfold determine_rating. rewrite !fgeb_Fin. unfold Qgeb.
  rewrite !(Qleb_comp _ _ (reflexivity _) _ _ E). reflexivity.
Qed.

Lemma calculate_overall_score_rating technical fundamental sentiment momentum :
  (rating (calculate_overall_score technical fundamental sentiment momentum),
   stars (calculate_overall_score technical fundamental sentiment momentum))
  = determine_rating
      (weighted_average (default 50 (technical !! "score"))
                        (default 50 (fundamental !! "score"))
                        (default 50 (sentiment !! "overall_sentiment_score"))
                        (default 50 (momentum !! "score"))).
Proof.
  unfold calculate_overall_score.
  destruct (determine_rating _) as [r s]. reflexivity.
Qed.

(** With every component at 34.99 the binary64 average is exactly 34.99
    and the rating is Strong Sell with 1 star, not Sell with 2 stars (C3 as
    stated fails here). *)
Lemma rating_at_34_99_is_strong_sell :
  let x := literal (pct 3499) in
  let r := calculate_overall_score (scored x) (scored x) (sentiment_scored x) (scored x) in
  float_eq (weighted_average x x x x) (literal (pct 3499)) ∧
  rating r = StrongSell ∧ stars r = 1%Z ∧
  ¬ (rating r = Sell ∧ stars r = 2%Z).
Proof.
  split; [vm_compute; reflexivity|]. split; [vm_compute; reflexivity|].
  split; [vm_compute; reflexivity|].
  intros [H _]. vm_compute in H. discriminate.
Qed.

(** C3 (amended).  Whatever the component results, when their binary64
    weighted average is exactly 80.0 the rating is Strong Buy with 5 stars,
    when it is exactly 79.99 it is Buy with 4 stars, when it is exactly
    50.0 it is Hold with 3 stars, when it is exactly 35.0 it is Sell with
    2 stars, and when it is exactly 34.99 it is Strong Sell with 1 star. *)
Theorem rating_boundaries_closed_below
    (technical fundamental sentiment momentum : gmap string Q) :
  let overall :=
    weighted_average (default 50 (technical !! "score"))
                     (default 50 (fundamental !! "score"))
                     (default 50 (sentiment !! "overall_sentiment_score"))
                     (default 50 (momentum !! "score")) in
  let r := calculate_overall_score technical fundamental sentiment momentum in
  (float_eq overall 80 → rating r = StrongBuy ∧ stars r = 5%Z) ∧
  (float_eq overall (literal (pct 7999)) → rating r = Buy ∧ stars r = 4%Z) ∧
  (float_eq overall 50 → rating r = Hold ∧ stars r = 3%Z) ∧
  (float_eq overall 35 → rating r = Sell ∧ stars r = 2%Z) ∧
  (float_eq overall (literal (pct 3499)) → rating r = StrongSell ∧ stars r = 1%Z).
Proof.
  intros overall r.
  pose proof (calculate_overall_score_rating technical fundamental sentiment momentum) as H.
  fold overall in H. fold r in H. clearbody overall r.
  split; [|split; [|split; [|split]]]; intros E;
    destruct overall as [x| | |]; try contradiction; simpl in E;
    rewrite (determine_rating_proper _ _ E) in H;
    match type of H with _ = ?d =>
      let v := eval vm_compute in d in change d with v in H
    end;
    split; congruence.
Qed.

Lemma rating_boundaries_closed_below_witness :
  let all x := calculate_overall_score (scored x) (scored x) (sentiment_scored x) (scored x) in
  (rating (all 80) = StrongBuy ∧ stars (all 80) = 5%Z) ∧
  (rating (all (literal (pct 7999))) = Buy ∧ stars (all (literal (pct 7999))) = 4%Z) ∧
  (rating (all 50) = Hold ∧ stars (all 50) = 3%Z) ∧
  (rating (all 35) = Sell ∧ stars (all 35) = 2%Z) ∧
  (rating (all (literal (pct 3499))) = StrongSell ∧ stars (all (literal (pct 3499))) = 1%Z).
Proof.
  intros all.
  pose proof (λ x, rating_boundaries_closed_below
                     (scored x) (scored x) (sentiment_scored x) (scored x)) as H.
  split; [|split; [|split; [|split]]].
  - apply (proj1 (H 80)). vm_compute. reflexivity.
  - apply (proj1 (proj2 (H (literal (pct 7999))))). vm_compute. reflexivity.
  - apply (proj1 (proj2 (proj2 (H 50)))). vm_compute. reflexivity.
  - apply (proj1 (proj2 (proj2 (proj2 (H 35))))). vm_compute. reflexivity.
  - apply (proj2 (proj2 (proj2 (proj2 (H (literal (pct 3499))))))). vm_compute. reflexivity.
Defined.

(** The exact weighted average of 85, 99, 43 and 70 is 80, but the
    binary64 sum falls just short of it (79.99999999999998579): the rating
    is Buy with 4 stars, next to a returned score of 80.0. *)
Example exact_average_80_is_rated_buy :
  let r := calculate_overall_score (scored 85) (scored 99) (sentiment_scored 43) (scored 70) in
  pct 35 * 85 + pct 35 * 99 + pct 20 * 43 + pct 10 * 70 == 80 ∧
  weighted_average 85 99 43 70 = Fin (5629499534213119 # 70368744177664) ∧
  (5629499534213119 # 70368744177664) < 80 ∧
  rating r = Buy ∧ stars r = 4%Z ∧ overall_score r = Fin 80.
Proof. repeat split; vm_compute; reflexivity. Qed.

(** The returned [overall_score] of a sentiment reading of 33.33 with the
    other components at 0 is 6.67, while the weighted sum is 6.666: the
    returned value is not the weighted sum (C4 as stated fails here). *)
Lemma overall_score_not_weighted_sum :
  let S := literal (pct 3333) in
  let r := calculate_overall_score (scored 0) (scored 0) (sentiment_scored S) (scored 0) in
  (0 <= S ∧ S <= 100) ∧
  overall_score r = Fin (literal (pct 667)) ∧
  ¬ float_eq (overall_score r) (pct 35 * 0 + pct 35 * 0 + pct 20 * S + pct 10 * 0) ∧
  ¬ float_eq (overall_score r) (pct 6666).
Proof.
  split; [split; vm_compute; discriminate|]. split; [vm_compute; reflexivity|].
  split; vm_compute; discriminate.
Qed.

(** The scores 60.5, 70, 99 and 32 have the exact weighted average 68.675,
    a tie between 68.67 and 68.68; the binary64 sum is just below it and
    68.67 is returned. *)
Example overall_score_below_exact_tie :
  let r := calculate_overall_score (scored (605 # 10)) (scored 70)
             (sentiment_scored 99) (scored 32) in
  pct 35 * (605 # 10) + pct 35 * 70 + pct 20 * 99 + pct 10 * 32 == 68675 # 1000 ∧
  weighted_average (605 # 10) 70 99 32 = Fin (4832573506401075 # 70368744177664) ∧
  (4832573506401075 # 70368744177664) < 68675 # 1000 ∧
  overall_score r = Fin (literal (pct 6867)).
Proof. repeat split; vm_compute; reflexivity. Qed.

Lemma pow2_values :
  pow2 (-48) == 1 # 281474976710656 ∧ pow2 (-49) == 1 # 562949953421312 ∧
  pow2 (-50) == 1 # 1125899906842624 ∧ pow2 (-47) == 1 # 140737488355328.
Proof. repeat split; reflexivity. Qed.

(** On component scores in [0,100] no operation of the weighted average
    overflows, the result stays in [0,100] and is within 1e-13 of the exact
    weighted sum. *)
Lemma weighted_average_in_range (T F S M : Q) :
  0 <= T ∧ T <= 100 → 0 <= F ∧ F <= 100 → 0 <= S ∧ S <= 100 → 0 <= M ∧ M <= 100 →
  ∃ overall, weighted_average T F S M = Fin overall ∧
    0 <= overall ∧ overall <= 100 ∧
    Qabs (overall - (pct 35 * T + pct 35 * F + pct 20 * S + pct 10 * M))
      <= 1 # 10000000000000.
Proof.
  intros [T0 T1] [F0 F1] [S0 S1] [M0 M1].
  unfold weighted_average.
  destruct weights_values as (-> & -> & -> & ->).
  set (w35 := 3152519739159347 # 9007199254740992).
  set (w20 := 3602879701896397 # 18014398509481984).
  set (w10 := 3602879701896397 # 36028797018963968).
  rewrite !f64mul_Fin.
  destruct (binary64_bounded (0 * w35) (100 * w35) (T * w35) 0 35 5)
    as (a & -> & A0 & A1 & Aerr);
    [unfold w35; lra | unfold w35; lra | vm_compute; reflexivity | vm_compute; reflexivity
    | apply Qabs_Qlt_condition; change (pow2 (5 + 1)) with 64; unfold w35; split; lra
    | lia |].
  destruct (binary64_bounded (0 * w35) (100 * w35) (F * w35) 0 35 5)
    as (b & -> & B0 & B1 & Berr);
    [unfold w35; lra | unfold w35; lra | vm_compute; reflexivity | vm_compute; reflexivity
    | apply Qabs_Qlt_condition; change (pow2 (5 + 1)) with 64; unfold w35; split; lra
    | lia |].
  destruct (binary64_bounded (0 * w20) (100 * w20) (S * w20) 0 20 4)
    as (c & -> & C0 & C1 & Cerr);
    [unfold w20; lra | unfold w20; lra | vm_compute; reflexivity | vm_compute; reflexivity
    | apply Qabs_Qlt_condition; change (pow2 (4 + 1)) with 32; unfold w20; split; lra
    | lia |].
  destruct (binary64_bounded (0 * w10) (100 * w10) (M * w10) 0 10 3)
    as (d & -> & D0 & D1 & Derr);
    [unfold w10; lra | unfold w10; lra | vm_compute; reflexivity | vm_compute; reflexivity
    | apply Qabs_Qlt_condition; change (pow2 (3 + 1)) with 16; unfold w10; split; lra
    | lia |].
  rewrite f64add_Fin.
  destruct (binary64_bounded 0 70 (a + b) 0 70 6)
    as (ab & -> & AB0 & AB1 & ABerr);
    [lra | lra | vm_compute; reflexivity | vm_compute; reflexivity
    | apply Qabs_Qlt_condition; change (pow2 (6 + 1)) with 128; split; lra
    | lia |].
  rewrite f64add_Fin.
  destruct (binary64_bounded 0 90 (ab + c) 0 90 6)
    as (abc & -> & ABC0 & ABC1 & ABCerr);
    [lra | lra | vm_compute; reflexivity | vm_compute; reflexivity
    | apply Qabs_Qlt_condition; change (pow2 (6 + 1)) with 128; split; lra
    | lia |].
  rewrite f64add_Fin.
  destruct (binary64_bounded 0 100 (abc + d) 0 100 6)
    as (x & -> & X0 & X1 & Xerr);
    [lra | lra | vm_compute; reflexivity | vm_compute; reflexivity
    | apply Qabs_Qlt_condition; change (pow2 (6 + 1)) with 128; split; lra
    | lia |].
  exists x. split; [reflexivity|]. split; [exact X0|]. split; [exact X1|].
  change (pow2 (5 - 53)) with (1 # 281474976710656) in Aerr, Berr.
  change (pow2 (4 - 53)) with (1 # 562949953421312) in Cerr.
  change (pow2 (3 - 53)) with (1 # 1125899906842624) in Derr.
  change (pow2 (6 - 53)) with (1 # 140737488355328) in ABerr, ABCerr, Xerr.
  apply Qabs_Qle_condition in Aerr as [? ?], Berr as [? ?], Cerr as [? ?], Derr as [? ?].
  apply Qabs_Qle_condition in ABerr as [? ?], ABCerr as [? ?], Xerr as [? ?].
  apply Qabs_Qle_condition. unfold w35, w20, w10, pct in *. split; lra.
Qed.

(** C4 (amended).  For component scores T, F, S, M in [0,100] the value
    that the combiner computes and rates is the binary64 sum
    T*0.35 + F*0.35 + S*0.20 + M*0.10; it lies in [0,100] and is within
    1e-13 of the exact weighted sum.  The returned [overall_score] is that
    value rounded to two decimals, which is within 0.005 of it and also
    lies in [0,100]. *)
Theorem overall_score_weighted_sum_rounded
    (technical fundamental sentiment momentum : gmap string Q) (T F S M : Q) :
  technical !! "score" = Some T →
  fundamental !! "score" = Some F →
  sentiment !! "overall_sentiment_score" = Some S →
  momentum !! "score" = Some M →
  0 <= T ∧ T <= 100 → 0 <= F ∧ F <= 100 → 0 <= S ∧ S <= 100 → 0 <= M ∧ M <= 100 →
  let r := calculate_overall_score technical fundamental sentiment momentum in
  ∃ overall returned,
    weighted_average T F S M = Fin overall ∧
    Qabs (overall - (pct 35 * T + pct 35 * F + pct 20 * S + pct 10 * M))
      <= 1 # 10000000000000 ∧
    (0 <= overall ∧ overall <= 100) ∧
    (rating r, stars r) = determine_rating (Fin overall) ∧
    overall_score r = binary64 (round2 overall) ∧
    Qabs (round2 overall - overall) <= 1 # 200 ∧
    overall_score r = Fin returned ∧
    (0 <= returned ∧ returned <= 100) ∧
    component_scores r = (T, F, S, M).
Proof.
  intros HT HF HS HM RT RF RS RM r.
  destruct (weighted_average_in_range T F S M RT RF RS RM) as (x & Hx & X0 & X1 & Xerr).
  assert (Hr : overall_score r = binary64 (round2 x)).
  { unfold r, calculate_overall_score. rewrite HT, HF, HS, HM. simpl default.
    rewrite Hx. destruct (determine_rating (Fin x)). reflexivity. }
  destruct (round2_range x X0 X1) as [R0 R1].
  destruct (binary64_between 0 100 (round2 x) 0 100 R0 R1) as (y & Hy & Y0 & Y1);
    [vm_compute; reflexivity | vm_compute; reflexivity |].
  exists x, y. split; [exact Hx|]. split; [exact Xerr|]. split; [tauto|]. split.
  { unfold r. rewrite calculate_overall_score_rating, HT, HF, HS, HM. simpl default.
    rewrite Hx. reflexivity. }
  split; [exact Hr|]. split; [apply round2_near|].
  split; [rewrite Hr; exact Hy|]. split; [tauto|].
  unfold r, calculate_overall_score. rewrite HT, HF, HS, HM. simpl default.
  destruct (determine_rating _). reflexivity.
Qed.

Lemma overall_score_weighted_sum_rounded_witness :
  let r := calculate_overall_score (scored (605 # 10)) (scored 70)
             (sentiment_scored 99) (scored 32) in
  ∃ overall returned,
    weighted_average (605 # 10) 70 99 32 = Fin overall ∧
    Qabs (overall - (pct 35 * (605 # 10) + pct 35 * 70 + pct 20 * 99 + pct 10 * 32))
      <= 1 # 10000000000000 ∧
    (0 <= overall ∧ overall <= 100) ∧
    (rating r, stars r) = determine_rating (Fin overall) ∧
    overall_score r = binary64 (round2 overall) ∧
    Qabs (round2 overall - overall) <= 1 # 200 ∧
    overall_score r = Fin returned ∧
    (0 <= returned ∧ returned <= 100) ∧
    component_scores r = (605 # 10, 70, 99, 32).
Proof.
  apply (overall_score_weighted_sum_rounded
           (scored (605 # 10)) (scored 70) (sentiment_scored 99) (scored 32));
    try reflexivity; split; discriminate.
Defined.

(** ** Python division on exact rationals *)

Lemma pydiv_nonzero x y : ¬ y == 0 → pydiv x y = Return (x / y).
Proof.
  intros Hy. unfold pydiv.
  destruct (Qeq_bool y 0) eqn:E; [|reflexivity].
  apply Qeq_bool_eq in E. contradiction.
Qed.

Lemma pydiv_zero x y : y == 0 → pydiv x y = Raise ZeroDivisionError.
Proof. intros Hy. unfold pydiv. rewrite (Qeq_eq_bool _ _ Hy). reflexivity. Qed.

(** ** Target price and stop loss *)

Lemma tier_cases score :
  (upside_for score = literal (pct 25) ∧ stop_loss_factor score = literal (pct 92)
   ∧ risk_reward_of score = 25 # 8) ∨
  (upside_for score = literal (pct 15) ∧ stop_loss_factor score = literal (pct 92)
   ∧ risk_reward_of score = 15 # 8) ∨
  (upside_for score = literal (pct 15) ∧ stop_loss_factor score = literal (pct 90)
   ∧ risk_reward_of score = 3 # 2) ∨
  (upside_for score = literal (pct 10) ∧ stop_loss_factor score = literal (pct 90)
   ∧ risk_reward_of score = 1) ∨
  (upside_for score = literal (pct 5) ∧ stop_loss_factor score = literal (pct 85)
   ∧ risk_reward_of score = 1 # 3).
Proof.
  unfold upside_for, stop_loss_factor, risk_reward_of.
  destruct (Qgeb score 80) eqn:H80, (Qgeb score 70) eqn:H70, (Qgeb score 65) eqn:H65,
           (Qgeb score 50) eqn:H50;
    try tauto; exfalso;
    repeat match goal with
           | H : Qgeb _ _ = true |- _ => apply Qgeb_le in H
           | H : Qgeb _ _ = false |- _ => apply Qgeb_lt in H
           end; lra.
Qed.

Lemma Qabs_positive p : ¬ p == 0 → 0 < Qabs p.
Proof.
  intros Hp. apply Qabs_case; intros H.
  - apply Qle_lt_or_eq in H. destruct H as [H | H]; [exact H|].
    exfalso. apply Hp. symmetry. exact H.
  - assert (¬ p == 0 → p <= 0 → 0 < - p) as X by (intros; lra). apply X; assumption.
Qed.

Lemma Qabs_div_bound a p f k :
  ¬ p == 0 → Qabs (a - p * f) <= Qabs p * k → Qabs (a / p - f) <= k.
Proof.
  intros Hp H.
  assert (E : a / p - f == (a - p * f) * / p) by (field; exact Hp).
  rewrite E, Qabs_Qmult, Qabs_Qinv.
  apply Qle_shift_div_r; [apply Qabs_positive, Hp|].
  rewrite (Qmult_comm k (Qabs p)). exact H.
Qed.

(** Closed rationals in [literal], [binary64] and [pow2] are evaluated. *)
Ltac evaluate_closed :=
  repeat match goal with
         | |- context [literal ?q] =>
             let v := eval vm_compute in (literal q) in change (literal q) with v
         | |- context [binary64 (1 + (?n # ?d))] =>
             let v := eval vm_compute in (binary64 (1 + (n # d))) in
             change (binary64 (1 + (n # d))) with v
         end.

Ltac numeral_pow2 H e :=
  let v := eval vm_compute in (pow2 e) in change (pow2 e) with v in H.

(** For a price of normal magnitude every step of the [try] body succeeds:
    the stop is short of the price and the target beyond it, and the
    risk/reward ratio is within 1e-13 of the ratio of its tier. *)
Lemma targets_in_range p score :
  pow2 (-1021) <= Qabs p → Qabs p <= pow2 1022 →
  ∃ tp sl rr dd,
    targets p score =
      Return {| upside := upside_for score; target_price := Fin tp; stop_loss := Fin sl;
                risk_reward := Fin rr; downside_fraction := Fin dd |} ∧
    (0 < p → 0 < sl ∧ sl < p ∧ p < tp) ∧
    (p < 0 → tp < p ∧ p < sl ∧ sl < 0) ∧
    Qabs (rr - risk_reward_of score) <= 1 # 10000000000000 ∧
    0 < dd.
Proof.
  intros Hlo Hhi.
  pose proof (pow2_succ (-1022)) as E1. change (-1022 + 1)%Z with (-1021)%Z in E1.
  pose proof (pow2_succ 1022) as E2. change (1022 + 1)%Z with 1023%Z in E2.
  pose proof (pow2_pos (-1022)) as P0.
  assert (Hp : ¬ p == 0).
  { intros E. rewrite E in Hlo. change (Qabs 0) with 0 in Hlo. lra. }
  assert (Hsign : (0 < p → Qabs p == p) ∧ (p < 0 → Qabs p == - p)).
  { split; intros H; [apply Qabs_pos | apply Qabs_neg]; lra. }
  unfold targets.
  destruct (tier_cases score) as [(-> & -> & ->) | [(-> & -> & ->) | [(-> & -> & ->)
    | [(-> & -> & ->) | (-> & -> & ->)]]]];
    rewrite f64add_Fin; evaluate_closed; rewrite !f64mul_Fin.
  all: match goal with
       | |- context [truediv (binary64 (?x * ?f))] =>
           destruct (binary64_relative (x * f)) as (sl & Esl & Hsl);
             [rewrite Qabs_Qmult; change (Qabs f) with f; lra
             |rewrite Qabs_Qmult; change (Qabs f) with f; lra
             |rewrite Esl; rewrite Qabs_Qmult in Hsl; change (Qabs f) with f in Hsl;
              clear Esl]
       end.
  all: match goal with
       | |- context [binary64 (?x * ?c)] =>
           destruct (binary64_relative (x * c)) as (tp & Etp & Htp);
             [rewrite Qabs_Qmult; change (Qabs c) with c; lra
             |rewrite Qabs_Qmult; change (Qabs c) with c; lra
             |rewrite Etp; rewrite Qabs_Qmult in Htp; change (Qabs c) with c in Htp;
              clear Etp]
       end.
  all: rewrite !(truediv_Fin sl p Hp); cbn [mbind outcome_bind].
  all: match type of Hsl with
       | Qabs (_ - _ * ?f) <= _ =>
           assert (Hx : Qabs (sl / p - f) <= f * pow2 (-53))
             by (apply Qabs_div_bound; [exact Hp | rewrite Qmult_assoc; exact Hsl])
       end.
  all: numeral_pow2 Hx (-53)%Z; numeral_pow2 Hsl (-53)%Z; numeral_pow2 Htp (-53)%Z.
  all: apply Qabs_Qle_condition in Hx as [Hx1 Hx2].
  all: destruct (binary64_error (sl / p) (-1)) as (ratio & -> & Hratio);
         [apply Qabs_Qlt_condition; change (pow2 (-1 + 1)) with 1; split; lra | lia |].
  all: numeral_pow2 Hratio (-1 - 53)%Z; apply Qabs_Qle_condition in Hratio as [Hr1 Hr2].
  all: rewrite f64sub_Fin.
  all: destruct (binary64_error (1 + - ratio) (-3)) as (dd & -> & Hdd);
         [apply Qabs_Qlt_condition; change (pow2 (-3 + 1)) with (1 # 4); split; lra | lia |].
  all: numeral_pow2 Hdd (-3 - 53)%Z; apply Qabs_Qle_condition in Hdd as [Hd1 Hd2].
  all: assert (Hdpos : 0 < dd) by lra.
  all: rewrite truediv_Fin by lra; cbn [mbind outcome_bind mret outcome_ret].
  all: match goal with
       | |- context [binary64 (?u / _)] =>
           match goal with
           | |- context [Qabs (_ - ?tier) <= _] =>
               assert (U1 : u / dd <= tier + (9 # 100000000000000))
                 by (apply Qle_shift_div_r; [exact Hdpos | lra]);
               assert (U2 : tier - (9 # 100000000000000) <= u / dd)
                 by (apply Qle_shift_div_l; [exact Hdpos | lra]);
               destruct (binary64_error (u / dd) 1) as (rr & -> & Hrr);
                 [apply Qabs_Qlt_condition; change (pow2 (1 + 1)) with 4; split; lra | lia |]
           end
       end.
  all: numeral_pow2 Hrr (1 - 53)%Z; apply Qabs_Qle_condition in Hrr as [Hrr1 Hrr2].
  all: apply Qabs_Qle_condition in Hsl as [Hs1 Hs2]; apply Qabs_Qle_condition in Htp as [Ht1 Ht2].
  all: destruct Hsign as [Hpos Hneg].
  all: exists tp, sl, rr, dd; split; [reflexivity|].
  all: split; [intros H; rewrite (Hpos H) in *; repeat split; lra|].
  all: split; [intros H; rewrite (Hneg H) in *; repeat split; lra|].
  all: split; [apply Qabs_Qle_condition; split; lra | exact Hdpos].
Qed.

Lemma calculate_target_price_of_targets p score t :
  targets p score = Return t →
  calculate_target_price p score =
    Return {[ "target_price" := PFloat (pyround2 (target_price t));
              "stop_loss" := PFloat (pyround2 (stop_loss t));
              "upside_potential" := PFloat (pyround2 (Fin (upside t) * Fin 100)%f64);
              "downside_risk" := PFloat (pyround2 (downside_fraction t * Fin 100)%f64);
              "risk_reward_ratio" := PFloat (pyround2 (risk_reward t)) ]}.
Proof.
  intros Ht. unfold calculate_target_price, target_price_body. rewrite Ht. reflexivity.
Qed.

Lemma calculate_target_price_never_raises p score e :
  calculate_target_price p score ≠ Raise e.
Proof.
  unfold calculate_target_price, target_price_body.
  destruct (targets p score); discriminate.
Qed.

Lemma targets_of_zero p score : p == 0 → targets p score = Raise ZeroDivisionError.
Proof. intros E. unfold targets. rewrite (truediv_zero _ p E). reflexivity. Qed.

(** At a price of 0 the call returns the empty dictionary; it does not
    raise (C2 as stated fails here). *)
Lemma target_price_of_zero_returns_empty :
  0 <= 0 ∧ calculate_target_price 0 85 = Return ∅ ∧
  ¬ ∃ e, calculate_target_price 0 85 = Raise e.
Proof.
  split; [discriminate|]. split; [reflexivity|].
  intros [e H]. exact (calculate_target_price_never_raises 0 85 e H).
Qed.

(** C2 (amended).  For a non-positive [current_price] the call never
    raises to the caller: at 0 the division by zero is caught inside and
    the empty dictionary is returned; at a negative price of normal
    magnitude (between 2^-1021 and 2^1022) the ordinary result is returned,
    with a target below the price and a stop above it. *)
Theorem target_price_nonpositive_never_raises (current_price score : Q) :
  current_price <= 0 →
  (∀ e, calculate_target_price current_price score ≠ Raise e) ∧
  (current_price == 0 → calculate_target_price current_price score = Return ∅) ∧
  (- pow2 1022 <= current_price → current_price <= - pow2 (-1021) →
   ∃ t tp sl rr,
     targets current_price score = Return t ∧
     target_price t = Fin tp ∧ stop_loss t = Fin sl ∧ risk_reward t = Fin rr ∧
     tp < current_price ∧ current_price < sl ∧ sl < 0 ∧ 0 < rr ∧
     calculate_target_price current_price score =
       Return {[ "target_price" := PFloat (pyround2 (Fin tp));
                 "stop_loss" := PFloat (pyround2 (Fin sl));
                 "upside_potential" :=
                   PFloat (pyround2 (Fin (upside_for score) * Fin 100)%f64);
                 "downside_risk" := PFloat (pyround2 (downside_fraction t * Fin 100)%f64);
                 "risk_reward_ratio" := PFloat (pyround2 (Fin rr)) ]}).
Proof.
  intros Hle. split; [|split].
  - intros e. apply calculate_target_price_never_raises.
  - intros E. unfold calculate_target_price, target_price_body.
    rewrite (targets_of_zero _ _ E). reflexivity.
  - intros Hlo Hhi.
    pose proof (pow2_pos (-1021)) as P.
    assert (Hneg : current_price < 0) by lra.
    destruct (targets_in_range current_price score)
      as (tp & sl & rr & dd & Ht & _ & Hord & Hrr & Hdd).
    { rewrite Qabs_neg by lra. lra. }
    { rewrite Qabs_neg by lra. lra. }
    destruct (Hord Hneg) as (O1 & O2 & O3).
    eexists _, tp, sl, rr. split; [exact Ht|].
    cbn [target_price stop_loss risk_reward].
    do 3 (split; [reflexivity|]).
    split; [exact O1|]. split; [exact O2|]. split; [exact O3|]. split.
    + apply Qabs_Qle_condition in Hrr as [H1 _].
      pose proof (tier_cases score) as T.
      destruct T as [(_ & _ & E) | [(_ & _ & E) | [(_ & _ & E)
        | [(_ & _ & E) | (_ & _ & E)]]]]; rewrite E in H1; lra.
    + rewrite (calculate_target_price_of_targets _ _ _ Ht). reflexivity.
Qed.

Lemma target_price_nonpositive_never_raises_witness :
  (∀ e, calculate_target_price 0 85 ≠ Raise e) ∧
  calculate_target_price 0 85 = Return ∅ ∧
  ∃ t tp sl rr,
     targets (-100) 85 = Return t ∧
     target_price t = Fin tp ∧ stop_loss t = Fin sl ∧ risk_reward t = Fin rr ∧
     tp < -100 ∧ -100 < sl ∧ sl < 0 ∧ 0 < rr ∧
     calculate_target_price (-100) 85 =
       Return {[ "target_price" := PFloat (pyround2 (Fin tp));
                 "stop_loss" := PFloat (pyround2 (Fin sl));
                 "upside_potential" :=
                   PFloat (pyround2 (Fin (upside_for 85) * Fin 100)%f64);
                 "downside_risk" := PFloat (pyround2 (downside_fraction t * Fin 100)%f64);
                 "risk_reward_ratio" := PFloat (pyround2 (Fin rr)) ]}.
Proof.
  split; [|split].
  - apply (target_price_nonpositive_never_raises 0 85). discriminate.
  - apply (target_price_nonpositive_never_raises 0 85); [discriminate | reflexivity].
  - apply (target_price_nonpositive_never_raises (-100) 85);
      [discriminate | vm_compute; discriminate | vm_compute; discriminate].
Defined.

(** The same call at -100 evaluates to target -125, stop -92 and a
    risk/reward ratio of 3.13; at the negative float of smallest magnitude
    the stop equals the price and the empty dictionary is returned. *)
Example target_price_of_negative_prices :
  calculate_target_price (-100) 85 =
    Return {[ "target_price" := PFloat (Fin (-125));
              "stop_loss" := PFloat (Fin (-92));
              "upside_potential" := PFloat (Fin 25);
              "downside_risk" := PFloat (Fin 8);
              "risk_reward_ratio" := PFloat (Fin (literal (313 # 100))) ]} ∧
  calculate_target_price (- pow2 (-1074)) 85 = Return ∅.
Proof. split; vm_compute; reflexivity. Qed.

(** C6.  With [current_price = 100] and [score = 85] the call returns
    target_price 125.00, stop_loss 92.00, upside potential 25.0, downside
    risk 8.0 and the risk/reward ratio 3.13: the binary64 quotient is
    3.1250000000000018, within 1e-14 of 3.125, and the returned value is
    within 0.005 of 3.125. *)
Theorem target_price_example :
  calculate_target_price 100 85 =
    Return {[ "target_price" := PFloat (Fin 125);
              "stop_loss" := PFloat (Fin 92);
              "upside_potential" := PFloat (Fin 25);
              "downside_risk" := PFloat (Fin 8);
              "risk_reward_ratio" := PFloat (Fin (literal (313 # 100))) ]} ∧
  Qabs (literal (313 # 100) - (3125 # 1000)) <= 5 # 1000 ∧
  ∃ t, targets 100 85 = Return t ∧
       risk_reward t = Fin (1759218604441601 # 562949953421312) ∧
       Qabs ((1759218604441601 # 562949953421312) - (3125 # 1000)) <= 1 # 100000000000000.
Proof.
  split; [vm_compute; reflexivity|].
  split; [vm_compute; discriminate|].
  eexists. split; [vm_compute; reflexivity|].
  split; [reflexivity|]. vm_compute. discriminate.
Qed.

(** At the smallest positive float, 2^-1074 (5e-324), the stop and the
    target both round to the price itself, the downside is zero and the
    division by it is caught: the empty dictionary is returned (C9 as
    stated fails here). *)
Lemma smallest_price_is_not_bracketed :
  0 < pow2 (-1074) ∧
  (Fin (pow2 (-1074)) * Fin (stop_loss_factor 85))%f64 = Fin (Qred (pow2 (-1074))) ∧
  (Fin (pow2 (-1074)) * (Fin 1 + Fin (upside_for 85)))%f64 = Fin (Qred (pow2 (-1074))) ∧
  targets (pow2 (-1074)) 85 = Raise ZeroDivisionError ∧
  calculate_target_price (pow2 (-1074)) 85 = Return ∅.
Proof.
  split; [apply pow2_pos|]. repeat split; vm_compute; reflexivity.
Qed.

(** C9 (amended).  For a positive [current_price] of normal magnitude
    (between 2^-1021 and 2^1022) and any score the unrounded values are
    computed without error and satisfy
    [stop_loss < current_price < target_price]; the upside is one of 5%,
    10%, 15%, 25%, the target is the price times [1 + upside], the stop is
    the price times one of 0.85, 0.90, 0.92, and the risk/reward ratio is
    strictly positive. *)
Theorem target_brackets_price (current_price score : Q) :
  pow2 (-1021) <= current_price → current_price <= pow2 1022 →
  ∃ t tp sl rr,
    targets current_price score = Return t ∧
    target_price t = Fin tp ∧ stop_loss t = Fin sl ∧ risk_reward t = Fin rr ∧
    sl < current_price ∧ current_price < tp ∧ 0 < rr ∧
    target_price t = (Fin current_price * (Fin 1 + Fin (upside t)))%f64 ∧
    (upside t = literal (pct 5) ∨ upside t = literal (pct 10) ∨
     upside t = literal (pct 15) ∨ upside t = literal (pct 25)) ∧
    (stop_loss t = (Fin current_price * Fin (literal (pct 85)))%f64 ∨
     stop_loss t = (Fin current_price * Fin (literal (pct 90)))%f64 ∨
     stop_loss t = (Fin current_price * Fin (literal (pct 92)))%f64).
Proof.
  intros Hlo Hhi.
  pose proof (pow2_pos (-1021)) as P.
  assert (Hpos : 0 < current_price) by lra.
  destruct (targets_in_range current_price score)
    as (tp & sl & rr & dd & Ht & Hord & _ & Hrr & Hdd).
  { rewrite Qabs_pos by lra. exact Hlo. }
  { rewrite Qabs_pos by lra. exact Hhi. }
  destruct (Hord Hpos) as (O1 & O2 & O3).
  eexists _, tp, sl, rr. split; [exact Ht|].
  cbn [target_price stop_loss risk_reward upside].
  do 3 (split; [reflexivity|]).
  split; [exact O2|]. split; [exact O3|].
  pose proof (tier_cases score) as T.
  split; [|split; [|split]].
  - apply Qabs_Qle_condition in Hrr as [H1 _].
    destruct T as [(_ & _ & E) | [(_ & _ & E) | [(_ & _ & E)
      | [(_ & _ & E) | (_ & _ & E)]]]]; rewrite E in H1; lra.
  - unfold targets in Ht.
    destruct (truediv _ _) as [ratio|] in Ht; [|discriminate]. cbn in Ht.
    destruct (truediv _ _) as [rr'|] in Ht; [|discriminate]. cbn in Ht.
    injection Ht as Etp _ _ _. symmetry. exact Etp.
  - destruct T as [(-> & _) | [(-> & _) | [(-> & _) | [(-> & _) | (-> & _)]]]]; tauto.
  - unfold targets in Ht.
    destruct (truediv _ _) as [ratio|] in Ht; [|discriminate]. cbn in Ht.
    destruct (truediv _ _) as [rr'|] in Ht; [|discriminate]. cbn in Ht.
    injection Ht as _ Esl _ _. rewrite <- Esl.
    destruct T as [(_ & -> & _) | [(_ & -> & _) | [(_ & -> & _)
      | [(_ & -> & _) | (_ & -> & _)]]]]; tauto.
Qed.

Lemma target_brackets_price_witness :
  ∃ t tp sl rr,
    targets 100 85 = Return t ∧
    target_price t = Fin tp ∧ stop_loss t = Fin sl ∧ risk_reward t = Fin rr ∧
    sl < 100 ∧ 100 < tp ∧ 0 < rr ∧
    target_price t = (Fin 100 * (Fin 1 + Fin (upside t)))%f64 ∧
    (upside t = literal (pct 5) ∨ upside t = literal (pct 10) ∨
     upside t = literal (pct 15) ∨ upside t = literal (pct 25)) ∧
    (stop_loss t = (Fin 100 * Fin (literal (pct 85)))%f64 ∨
     stop_loss t = (Fin 100 * Fin (literal (pct 90)))%f64 ∨
     stop_loss t = (Fin 100 * Fin (literal (pct 92)))%f64).
Proof.
  apply (target_brackets_price 100 85); vm_compute; discriminate.
Defined.

(** ** Agreement with primitive floats *)

(** The rounding model and the kernel's binary64 give the same weighted
    averages and the same unrounded targets on the inputs used in this
    file. *)
Example rounding_model_agrees_with_primitive_floats :
  fin_value (weighted_average 85 99 43 70)
    = Binary64.to_Q (Binary64.weighted_average 85 99 43 70) ∧
  fin_value (weighted_average (605 # 10) 70 99 32)
    = Binary64.to_Q (Binary64.weighted_average 60.5 70 99 32) ∧
  fin_value (weighted_average (literal (pct 3499)) (literal (pct 3499))
                              (literal (pct 3499)) (literal (pct 3499)))
    = Binary64.to_Q (Binary64.weighted_average 34.99 34.99 34.99 34.99) ∧
  fin_value (weighted_average 0 0 (literal (pct 3333)) 0)
    = Binary64.to_Q (Binary64.weighted_average 0 0 33.33 0) ∧
  unrounded (targets 100 85) = unrounded64 (Binary64.targets 100 85) ∧
  unrounded (targets (-100) 85) = unrounded64 (Binary64.targets (-100) 85) ∧
  unrounded (targets 37 85) = unrounded64 (Binary64.targets 37 85) ∧
  unrounded (targets 9 50) = unrounded64 (Binary64.targets 9 50) ∧
  unrounded (targets (literal (1999 # 100)) 66)
    = unrounded64 (Binary64.targets 19.99 66) ∧
  unrounded (targets (pow2 (-1074)) 85) = unrounded64 (Binary64.targets 0x1p-1074 85) ∧
  unrounded (targets 0 85) = unrounded64 (Binary64.targets 0 85).
Proof. repeat split; vm_compute; reflexivity. Qed.

(** Addition, subtraction, multiplication and division agree on every pair
    of the sample floats. *)
Example operations_agree_with_primitive_floats : agree_on_samples = true.
Proof. vm_compute. reflexivity. Qed.

(** On primitive floats the average of four scores of 34.99 is below 35
    and rated Strong Sell, and a sentiment of 33.33 alone gives an average
    that is rounded to 6.67 without being 6.67. *)
Example binary64_combiner_checks :
  Binary64.determine_rating (Binary64.weighted_average 34.99 34.99 34.99 34.99)
    = (StrongSell, 1%Z) ∧
  Binary64.determine_rating (Binary64.weighted_average 80 80 80 80) = (StrongBuy, 5%Z) ∧
  Binary64.determine_rating (Binary64.weighted_average 85 99 43 70) = (Buy, 4%Z) ∧
  Binary64.round2 (Binary64.weighted_average 0 0 33.33 0) = Some (pct 667) ∧
  Binary64.to_Q (Binary64.weighted_average 0 0 33.33 0) ≠ Some (pct 667) ∧
  Binary64.round2 (Binary64.weighted_average 60.5 70 99 32) = Some (pct 6867).
Proof.
  split; [vm_compute; reflexivity|]. split; [vm_compute; reflexivity|].
  split; [vm_compute; reflexivity|]. split; [vm_compute; reflexivity|].
  split; [vm_compute; discriminate|]. vm_compute. reflexivity.
Qed.

(** On primitive floats the call at 100 and 85 returns the same five
    entries, with the risk/reward ratio 3.13, and a price of 0.0 gives the
    empty dictionary. *)
Example target_price_example_binary64 :
  Binary64.calculate_target_price 100 85 =
    Return {[ "target_price" := Some 125;
              "stop_loss" := Some 92;
              "upside_potential" := Some 25;
              "downside_risk" := Some 8;
              "risk_reward_ratio" := Some (313 # 100) ]} ∧
  Qabs ((313 # 100) - (3125 # 1000)) <= 5 # 1000 ∧
  Binary64.calculate_target_price 0 85 = Return ∅.
Proof.
  split; [vm_compute; reflexivity|].
  split; [vm_compute; discriminate|].
  vm_compute. reflexivity.
Qed.

(** ** The fundamental scorer *)

Lemma get_insert (metrics : MetricsMap) k v k' :
  get (<[k := v]> metrics) k' = if decide (k = k') then v else get metrics k'.
Proof. unfold get. rewrite lookup_insert. case_decide; reflexivity. Qed.

Lemma get_delete (metrics : MetricsMap) k k' :
  get (delete k metrics) k' = if decide (k = k') then None else get metrics k'.
Proof. unfold get. rewrite lookup_delete. case_decide; reflexivity. Qed.

Lemma if_truthy_zero {S} z (branch : Q → S → S) t :
  z == 0 → if_truthy (Some z) branch t = if_truthy None branch t.
Proof. intros E. unfold if_truthy. rewrite (Qeq_eq_bool _ _ E). reflexivity. Qed.

(** A block reads the metrics only through [get], and a zero under a key
    other than [debt_to_equity] is read like [None]. *)
Ltac block_reads_zero_as_none :=
  intros Hk Hz; rewrite !get_insert; case_decide;
  [ first [ apply f_equal, if_truthy_zero, Hz | congruence ] | reflexivity ].

Section ZeroMetric.
Variables (metrics : MetricsMap) (k : string) (z : Q).
Hypothesis Hk : k ≠ "debt_to_equity".
Hypothesis Hz : z == 0.

Lemma pe_block_zero t :
  pe_block (<[k := Some z]> metrics) t = pe_block (<[k := None]> metrics) t.
Proof. unfold pe_block. revert Hk Hz. block_reads_zero_as_none. Qed.

Lemma peg_block_zero t :
  peg_block (<[k := Some z]> metrics) t = peg_block (<[k := None]> metrics) t.
Proof. unfold peg_block. revert Hk Hz. block_reads_zero_as_none. Qed.

Lemma pb_block_zero t :
  pb_block (<[k := Some z]> metrics) t = pb_block (<[k := None]> metrics) t.
Proof. unfold pb_block. revert Hk Hz. block_reads_zero_as_none. Qed.

Lemma de_block_zero t :
  de_block (<[k := Some z]> metrics) t = de_block (<[k := None]> metrics) t.
Proof. unfold de_block. revert Hk Hz. block_reads_zero_as_none. Qed.

Lemma roe_block_zero t :
  roe_block (<[k := Some z]> metrics) t = roe_block (<[k := None]> metrics) t.
Proof. unfold roe_block. revert Hk Hz. block_reads_zero_as_none. Qed.

Lemma margin_block_zero t :
  margin_block (<[k := Some z]> metrics) t = margin_block (<[k := None]> metrics) t.
Proof. unfold margin_block. revert Hk Hz. block_reads_zero_as_none. Qed.

Lemma rev_growth_block_zero t :
  rev_growth_block (<[k := Some z]> metrics) t
  = rev_growth_block (<[k := None]> metrics) t.
Proof. unfold rev_growth_block. revert Hk Hz. block_reads_zero_as_none. Qed.

Lemma div_yield_block_zero t :
  div_yield_block (<[k := Some z]> metrics) t
  = div_yield_block (<[k := None]> metrics) t.
Proof. unfold div_yield_block. revert Hk Hz. block_reads_zero_as_none. Qed.

Lemma beta_block_zero t :
  beta_block (<[k := Some z]> metrics) t = beta_block (<[k := None]> metrics) t.
Proof. unfold beta_block. revert Hk Hz. block_reads_zero_as_none. Qed.

Lemma fundamental_tally_zero :
  fundamental_tally (<[k := Some z]> metrics) = fundamental_tally (<[k := None]> metrics).
Proof.
  unfold fundamental_tally.
  rewrite pe_block_zero, peg_block_zero, pb_block_zero, de_block_zero, roe_block_zero,
    margin_block_zero, rev_growth_block_zero, div_yield_block_zero, beta_block_zero.
  reflexivity.
Qed.
End ZeroMetric.

(** Two maps with the same [get] are scored alike. *)
Lemma fundamental_tally_ext (m1 m2 : MetricsMap) :
  (∀ k, get m1 k = get m2 k) → fundamental_tally m1 = fundamental_tally m2.
Proof.
  intros H.
  unfold fundamental_tally, pe_block, peg_block, pb_block, de_block, roe_block,
    margin_block, rev_growth_block, div_yield_block, beta_block.
  rewrite !H. reflexivity.
Qed.

(** A metric that reads as [None] leaves no entry in the analysis. *)
Ltac block_leaves_key :=
  match goal with
  | Hget : get ?m ?k = None |- context [get ?m ?kB] =>
      destruct (decide (kB = k)) as [<- | Hne];
      [ first [ rewrite Hget; reflexivity | congruence ]
      | destruct (get m kB) as [q|]; simpl; [|reflexivity];
        repeat match goal with |- context [if ?b then _ else _] => destruct b end;
        simpl; rewrite ?lookup_insert_ne by exact Hne; reflexivity ]
  end.

Section UnknownMetric.
Variables (metrics : MetricsMap) (k : string).
Hypothesis Hk : k ≠ "debt_to_equity".
Hypothesis Hget : get metrics k = None.

Lemma pe_block_leaves t : detail (pe_block metrics t) !! k = detail t !! k.
Proof. unfold pe_block. block_leaves_key. Qed.
Lemma peg_block_leaves t : detail (peg_block metrics t) !! k = detail t !! k.
Proof. unfold peg_block. block_leaves_key. Qed.
Lemma pb_block_leaves t : detail (pb_block metrics t) !! k = detail t !! k.
Proof. unfold pb_block. block_leaves_key. Qed.
Lemma de_block_leaves t : detail (de_block metrics t) !! k = detail t !! k.
Proof. unfold de_block. block_leaves_key. Qed.
Lemma roe_block_leaves t : detail (roe_block metrics t) !! k = detail t !! k.
Proof. unfold roe_block. block_leaves_key. Qed.
Lemma margin_block_leaves t : detail (margin_block metrics t) !! k = detail t !! k.
Proof. unfold margin_block. block_leaves_key. Qed.
Lemma rev_growth_block_leaves t :
  detail (rev_growth_block metrics t) !! k = detail t !! k.
Proof. unfold rev_growth_block. block_leaves_key. Qed.
Lemma div_yield_block_leaves t :
  detail (div_yield_block metrics t) !! k = detail t !! k.
Proof. unfold div_yield_block. block_leaves_key. Qed.
Lemma beta_block_leaves t : detail (beta_block metrics t) !! k = detail t !! k.
Proof. unfold beta_block. block_leaves_key. Qed.

Lemma fundamental_tally_leaves : detail (fundamental_tally metrics) !! k = None.
Proof.
  unfold fundamental_tally.
  rewrite beta_block_leaves, div_yield_block_leaves, rev_growth_block_leaves,
    margin_block_leaves, roe_block_leaves, de_block_leaves, pb_block_leaves,
    peg_block_leaves, pe_block_leaves.
  reflexivity.
Qed.
End UnknownMetric.

Lemma size_insert_nonzero (metrics : MetricsMap) k v : size (<[k := v]> metrics) ≠ 0%nat.
Proof.
  intros H. apply map_size_empty_iff in H.
  apply (insert_non_empty metrics k v). exact H.
Qed.

Lemma calculate_fundamental_score_nonempty (metrics : MetricsMap) :
  metrics ≠ ∅ →
  calculate_fundamental_score metrics =
    {| fundamental_score := round2 (final_score (fundamental_tally metrics));
       analysis := detail (fundamental_tally metrics) |}.
Proof.
  intros H. unfold calculate_fundamental_score.
  rewrite bool_decide_eq_false_2; [reflexivity|].
  intros E. apply H, map_size_empty_iff, E.
Qed.

(** C10.  A metric stored with value zero under any key other than
    [debt_to_equity] is scored exactly as if it were unknown: the result
    equals the one obtained with [None] stored under that key, and also the
    one obtained with the key removed when other entries remain, and the
    analysis has no entry for the key.  [debt_to_equity] is tested against
    [None] only: the map [{debt_to_equity: 0.0}] scores 10.0 and records
    [debt_to_equity] in the analysis. *)
Theorem zero_metric_treated_as_absent (metrics : MetricsMap) (k : string) (z : Q) :
  k ≠ "debt_to_equity" → z == 0 →
  calculate_fundamental_score (<[k := Some z]> metrics)
    = calculate_fundamental_score (<[k := None]> metrics) ∧
  (delete k metrics ≠ ∅ →
   calculate_fundamental_score (<[k := Some z]> metrics)
     = calculate_fundamental_score (delete k metrics)) ∧
  analysis (calculate_fundamental_score (<[k := Some z]> metrics)) !! k = None ∧
  calculate_fundamental_score {[ "debt_to_equity" := Some 0 ]}
    = {| fundamental_score := 10; analysis := {[ "debt_to_equity" := 0 ]} |}.
Proof.
  intros Hk Hz.
  assert (Hnone : calculate_fundamental_score (<[k := Some z]> metrics)
                  = calculate_fundamental_score (<[k := None]> metrics)).
  { rewrite !calculate_fundamental_score_nonempty by apply insert_non_empty.
    rewrite (fundamental_tally_zero metrics k z Hk Hz). reflexivity. }
  split; [exact Hnone|]. split; [|split].
  - intros Hne. rewrite Hnone.
    rewrite !calculate_fundamental_score_nonempty by (apply insert_non_empty || exact Hne).
    rewrite (fundamental_tally_ext (<[k := None]> metrics) (delete k metrics));
      [reflexivity|].
    intros k'. rewrite get_insert, get_delete. reflexivity.
  - rewrite Hnone, calculate_fundamental_score_nonempty by apply insert_non_empty.
    simpl. apply fundamental_tally_leaves; [exact Hk|].
    rewrite get_insert. case_decide; [reflexivity | congruence].
  - vm_compute. reflexivity.
Qed.

Lemma zero_metric_treated_as_absent_witness :
  let metrics : MetricsMap := {[ "roe" := Some (pct 20); "pe_ratio" := Some 12 ]} in
  calculate_fundamental_score (<["roe" := Some 0]> metrics)
    = calculate_fundamental_score (<["roe" := None]> metrics) ∧
  calculate_fundamental_score (<["roe" := Some 0]> metrics)
    = calculate_fundamental_score (delete "roe" metrics) ∧
  analysis (calculate_fundamental_score (<["roe" := Some 0]> metrics)) !! "roe" = None ∧
  calculate_fundamental_score {[ "debt_to_equity" := Some 0 ]}
    = {| fundamental_score := 10; analysis := {[ "debt_to_equity" := 0 ]} |}.
Proof.
  intros metrics.
  destruct (zero_metric_treated_as_absent metrics "roe" 0) as (H1 & H2 & H3 & H4);
    [discriminate | reflexivity |].
  split; [exact H1|]. split; [|split; [exact H3 | exact H4]].
  apply H2. intros E.
  apply (f_equal (λ m : MetricsMap, m !! "pe_ratio")) in E.
  vm_compute in E. discriminate.
Defined.

(** A zero that is the only entry is still scored (to 0); an empty map is
    not (50). *)
Example lone_zero_metric_scores_zero :
  calculate_fundamental_score {[ "pe_ratio" := Some 0 ]}
    = {| fundamental_score := 0; analysis := ∅ |} ∧
  calculate_fundamental_score ∅ = {| fundamental_score := 50; analysis := ∅ |}.
Proof. split; vm_compute; reflexivity. Qed.

(** ** The technical scorer *)

(** The RSI category never awards 20 points. *)
Lemma rsi_points_cases current_rsi :
  rsi_points current_rsi = 15%Z ∨ rsi_points current_rsi = 0%Z.
Proof.
  unfold rsi_points.
  destruct (fltb (Fin 30) current_rsi) eqn:H30, (fltb current_rsi (Fin 70)) eqn:H70;
    simpl; try tauto;
    destruct current_rsi as [q| | |]; simpl in *; try tauto; try discriminate.
  - apply Qltb_ge in H70.
    destruct (Qltb 40 q) eqn:H40, (Qltb q 60) eqn:H60; simpl; try tauto.
    apply Qltb_lt in H60. lra.
  - apply Qltb_ge in H30.
    destruct (Qltb 40 q) eqn:H40, (Qltb q 60) eqn:H60; simpl; try tauto.
    apply Qltb_lt in H40. lra.
  - apply Qltb_ge in H30. apply Qltb_ge in H70. lra.
Qed.

(** C1 (as the code has it).  When the current RSI lies strictly between
    40 and 60 the RSI block awards 15 points, not 20, out of 20: the test
    for (30,70) comes first and shadows the test for (40,60). *)
Theorem rsi_block_awards_15_between_40_and_60
    (ta : ta_library) (data : PriceSeries) (t : Tally num) (rsi : list num) (q : Q) :
  ta_rsi ta (Close <$> data) 14 = Return rsi →
  iloc_neg rsi 1 = Return (Fin q) →
  40 < q → q < 60 →
  rsi_points (Fin q) = 15%Z ∧
  rsi_block ta data t =
    Return (budget 20 (award 15 (note "rsi" (Fin (round2 q)) t))).
Proof.
  intros Hrsi Hlast H40 H60.
  assert (Hpts : rsi_points (Fin q) = 15%Z).
  { unfold rsi_points. simpl.
    assert (Qltb 30 q = true) as -> by (apply Qltb_lt; lra).
    assert (Qltb q 70 = true) as -> by (apply Qltb_lt; lra).
    reflexivity. }
  split; [exact Hpts|].
  unfold rsi_block. rewrite Hrsi. simpl. rewrite Hlast. simpl.
  rewrite Hpts. reflexivity.
Qed.

Lemma rsi_block_awards_15_between_40_and_60_witness :
  rsi_points (Fin 50) = 15%Z ∧
  rsi_block (fixed_ta 50 1 0 100 0 40 30) (rising_series 50) start =
    Return (budget 20 (award 15 (note "rsi" (Fin (round2 50)) start))).
Proof.
  apply (rsi_block_awards_15_between_40_and_60
           (fixed_ta 50 1 0 100 0 40 30) (rising_series 50) start [Fin 50] 50);
    reflexivity.
Defined.

(** With every other category at its best tier and an RSI of 50 the
    technical score is 95, not 100. *)
Example technical_score_with_rsi_50 :
  ∃ r, calculate_technical_score (fixed_ta 50 1 0 100 0 40 30) (rising_series 50) = Return r ∧
       technical_score r = 95 ∧ indicators r !! "rsi" = Some (Fin 50).
Proof. eexists. split; [vm_compute; reflexivity|]. split; reflexivity. Qed.

(** ** The predictor *)

Lemma iloc_neg_in_range {A} (s : list A) (k : nat) :
  (1 ≤ k ≤ length s)%nat → ∃ a, iloc_neg s k = Return a.
Proof.
  intros Hk. unfold iloc_neg. rewrite bool_decide_eq_true_2 by exact Hk.
  destruct (lookup_lt_is_Some_2 s (length s - k)) as [a ->]; [lia|].
  eauto.
Qed.

Lemma Qnat_S_nonzero n : ¬ Qnat (S n) == 0.
Proof. unfold Qnat, Qeq. simpl. lia. Qed.

Lemma pct_from_flat c prev s :
  ¬ c == 0 → prev == c → Forall (λ x, x == c) s → Forall fin_zero (pct_from prev s).
Proof.
  intros Hc Hprev Hs. revert prev Hprev.
  induction Hs as [|x s Hx Hs IH]; intros prev Hprev; simpl; constructor.
  - unfold fsub, fdiv.
    destruct (Qeq_bool prev 0) eqn:E.
    + apply Qeq_bool_eq in E. rewrite Hprev in E. contradiction.
    + simpl. eexists. split; [reflexivity|].
      rewrite Hx, Hprev. field. exact Hc.
  - apply IH, Hx.
Qed.

Lemma filter_fin_zero s :
  Forall fin_zero s → List.filter (λ x, negb (is_nan x)) s = s.
Proof.
  induction 1 as [|x s (q & -> & _) _ IH]; simpl; [reflexivity|].
  rewrite IH. reflexivity.
Qed.

Lemma fsum_fin_zero s : Forall fin_zero s → fin_zero (fsum s).
Proof.
  induction 1 as [|x s (q & -> & Hq) _ (r & IH & Hr)].
  - exists 0. split; reflexivity.
  - change (fsum (Fin q :: s)) with (fadd (Fin q) (fsum s)). rewrite IH.
    eexists. split; [reflexivity|]. rewrite Hq, Hr. reflexivity.
Qed.

Lemma mean_fin_zero s : Forall fin_zero s → s ≠ [] → fin_zero (mean s).
Proof.
  intros Hs Hne. unfold mean. rewrite (filter_fin_zero s Hs).
  destruct (fsum_fin_zero s Hs) as (q & Hsum & Hq).
  destruct s as [|x s]; [contradiction|].
  rewrite Hsum. unfold fdiv.
  destruct (Qeq_bool (Qnat (length (x :: s))) 0) eqn:E.
  - apply Qeq_bool_eq in E. apply Qnat_S_nonzero in E. contradiction.
  - eexists. split; [reflexivity|]. rewrite Hq.
    unfold Qdiv. ring.
Qed.

Lemma length_pct_from prev s : length (pct_from prev s) = length s.
Proof. revert prev. induction s as [|x s IH]; intros prev; simpl; [|rewrite IH]; reflexivity. Qed.

(** On a flat series of a non-zero price with more than ten rows the mean
    of the last ten returns is zero. *)
Lemma recent_returns_flat c closes :
  ¬ c == 0 → Forall (λ x, x == c) closes → (11 ≤ length closes)%nat →
  fin_zero (mean (iloc_tail 10 (pct_change closes))).
Proof.
  intros Hc Hflat Hlen.
  destruct closes as [|x s]; [simpl in Hlen; lia|].
  apply Forall_cons in Hflat as [Hx Hs].
  pose proof (pct_from_flat c x s Hc Hx Hs) as Hz.
  simpl in Hlen.
  assert (Htail : iloc_tail 10 (pct_change (x :: s))
                  = drop (length s - 10) (pct_from x s)).
  { unfold iloc_tail, pct_change. simpl length. rewrite length_pct_from.
    replace (S (length s) - 10)%nat with (S (length s - 10)) by lia.
    reflexivity. }
  rewrite Htail. apply mean_fin_zero.
  - apply Forall_drop, Hz.
  - intros E. apply (f_equal length) in E.
    rewrite length_drop, length_pct_from in E. simpl in E. lia.
Qed.

Lemma round2_zero p : p == 0 → round2 (p * 100) = 0.
Proof. intros E. rewrite (round2_proper (p * 100) 0); [reflexivity|]. rewrite E. reflexivity. Qed.

Lemma not_above_zero p : p == 0 → fgtb (Fin p) (Fin 0) = false.
Proof. intros E. unfold fgtb, fltb. apply Qltb_ge. rewrite E. discriminate. Qed.

(** On a flat 40-row series whose price is 0 every return is [nan]
    (0/0), so the predicted change is [nan], not 0.0 (C5 as stated fails
    here). *)
Lemma flat_zero_price_predicts_nan :
  (30 ≤ length (flat_series 40 0 1000))%nat ∧
  Forall (λ r, Close r == 0) (flat_series 40 0 1000) ∧
  predict_short_term std_nan (flat_series 40 0 1000) 1 =
    Return {[ "current_price" := PFloat (Fin 0);
              "predicted_price" := PFloat NaN;
              "predicted_change_pct" := PFloat NaN;
              "direction" := PStr "Down";
              "magnitude" := PFloat NaN;
              "confidence" := PFloat (Fin 100);
              "timeframe" := PStr "1 day(s)" ]} ∧
  PFloat NaN ≠ PFloat (Fin 0).
Proof.
  split; [vm_compute; lia|]. split.
  { apply Forall_forall. intros r Hr. apply elem_of_replicate in Hr as [-> _]. reflexivity. }
  split; [vm_compute; reflexivity | discriminate].
Qed.

(** C5 (amended).  For every PriceSeries of at least 30 rows whose close
    price is a constant other than zero, whatever the volumes and the
    horizon, [predict_short_term] returns [predicted_change_pct == 0.0] and
    [direction == 'Down']. *)
Theorem flat_series_predicts_no_change
    (std : list num → num) (data : PriceSeries) (days : Z) (c : Q) :
  (30 ≤ length data)%nat →
  Forall (λ r, Close r == c) data →
  ¬ c == 0 →
  ∃ d, predict_short_term std data days = Return d ∧
       d !! "predicted_change_pct" = Some (PFloat (Fin 0)) ∧
       d !! "direction" = Some (PStr "Down").
Proof.
  intros Hlen Hflat Hc.
  unfold predict_short_term.
  assert ((length data <? 30)%nat = false) as -> by (apply Nat.ltb_ge; exact Hlen).
  unfold short_term_body.
  destruct (iloc_neg_in_range (Close <$> data) 1) as [current_price ->].
  { rewrite length_fmap. lia. }
  destruct (recent_returns_flat c (Close <$> data) Hc) as (q & -> & Hq).
  { apply Forall_fmap. exact Hflat. }
  { rewrite length_fmap. lia. }
  set (volume_trend := mean _). clearbody volume_trend.
  set (volatility := std _). clearbody volatility.
  assert (Hchange : ∃ p, p == 0 ∧
    (if fgtb volume_trend (Fin (pct 120))
     then fmul (fmul (Fin q) (Fin (inject_Z days))) (Fin (pct 110))
     else if fltb volume_trend (Fin (pct 80))
          then fmul (fmul (Fin q) (Fin (inject_Z days))) (Fin (pct 90))
          else fmul (Fin q) (Fin (inject_Z days))) = Fin p).
  { destruct (fgtb volume_trend (Fin (pct 120))); [|destruct (fltb volume_trend (Fin (pct 80)))];
      simpl; eexists; (split; [|reflexivity]); rewrite Hq; ring. }
  destruct Hchange as (p & Hp & ->).
  eexists. split; [reflexivity|].
  split.
  - rewrite lookup_insert_ne by discriminate.
    rewrite lookup_insert_ne by discriminate.
    rewrite lookup_insert_eq. simpl. rewrite (round2_zero p Hp). reflexivity.
  - do 3 (rewrite lookup_insert_ne by discriminate).
    rewrite lookup_insert_eq. rewrite (not_above_zero p Hp). reflexivity.
Qed.

Lemma flat_series_predicts_no_change_witness :
  ∃ d, predict_short_term std_zero (flat_series 40 10 1000) 1 = Return d ∧
       d !! "predicted_change_pct" = Some (PFloat (Fin 0)) ∧
       d !! "direction" = Some (PStr "Down").
Proof.
  apply (flat_series_predicts_no_change std_zero (flat_series 40 10 1000) 1 10).
  - vm_compute. lia.
  - apply Forall_forall. intros r Hr. apply elem_of_replicate in Hr as [-> _]. reflexivity.
  - discriminate.
Defined.

(** C8.  The medium-term forecast over [weeks] weeks is the short-term
    forecast over [weeks * 7] days. *)
Theorem predict_medium_term_delegates
    (std : list num → num) (data : PriceSeries) (weeks : Z) :
  predict_medium_term std data weeks = predict_short_term std data (weeks * 7).
Proof. reflexivity. Qed.

(** One week on a flat 40-row series: the forecast is labelled in days. *)
Example medium_term_one_week :
  predict_medium_term std_zero (flat_series 40 10 1000) 1 =
    Return {[ "current_price" := PFloat (Fin 10);
              "predicted_price" := PFloat (Fin 10);
              "predicted_change_pct" := PFloat (Fin 0);
              "direction" := PStr "Down";
              "magnitude" := PFloat (Fin 0);
              "confidence" := PFloat (Fin 100);
              "timeframe" := PStr "7 day(s)" ]}.
Proof. vm_compute. reflexivity. Qed.

Lemma growth_over_in_range closes k :
  (1 ≤ k ≤ length closes)%nat → ∃ g, growth_over closes k = Return g.
Proof.
  intros Hk. unfold growth_over.
  destruct (iloc_neg_in_range closes 1) as [last ->]; [lia|].
  destruct (iloc_neg_in_range closes k) as [past ->]; [exact Hk|].
  simpl. eauto.
Qed.




(** * Further properties *)

(** ** Rounding of whole numbers and ranges *)

Lemma round_half_even_Z (z : Z) : round_half_even (inject_Z z) = z.
Proof.
  unfold round_half_even. rewrite Qfloor_Z.
  assert (Qcompare (inject_Z z - inject_Z z) (1 # 2) = Lt) as ->; [|reflexivity].
  assert (E : inject_Z z - inject_Z z == 0) by ring.
  rewrite (Qcompare_comp _ _ E _ _ (reflexivity _)). reflexivity.
Qed.

Lemma round2_of_Z (x : Q) (z : Z) : x == inject_Z z → round2 x = inject_Z z.
Proof.
  intros E. unfold round2.
  rewrite (round_half_even_proper (x * 100) (inject_Z (z * 100))).
  - rewrite round_half_even_Z.
    rewrite (Qred_complete ((z * 100) # 100) (inject_Z z)).
    + apply Qcanon.Qred_identity. simpl. apply Z.gcd_1_r.
    + unfold Qeq, inject_Z. simpl. lia.
  - rewrite E, inject_Z_mult. reflexivity.
Qed.

Lemma round2_between (a b : Z) (x : Q) :
  inject_Z a <= x → x <= inject_Z b → inject_Z a <= round2 x ∧ round2 x <= inject_Z b.
Proof.
  intros Ha Hb.
  destruct (round_half_even_range (a * 100) (b * 100) (x * 100)) as [Hn0 Hn1].
  { rewrite inject_Z_mult. change (inject_Z 100) with 100. lra. }
  { rewrite inject_Z_mult. change (inject_Z 100) with 100. lra. }
  rewrite round2_value.
  set (n := round_half_even (x * 100)) in *.
  assert (inject_Z n / 100 == inject_Z n * (1 # 100)) as -> by (unfold Qdiv; reflexivity).
  rewrite Zle_Qle in Hn0, Hn1. rewrite inject_Z_mult in Hn0, Hn1.
  change (inject_Z 100) with 100 in Hn0, Hn1.
  split; lra.
Qed.

(** ** The momentum scorer *)

Lemma final_score_of_50 {D} (t : Tally D) :
  max_score t = 50%Z → final_score t == inject_Z (2 * score t).
Proof.
  intros H. unfold final_score. rewrite H. simpl.
  rewrite inject_Z_mult. change (inject_Z 2) with 2. change (inject_Z 50) with 50.
  field.
Qed.

Lemma final_score_of_100 {D} (t : Tally D) :
  max_score t = 100%Z → final_score t == inject_Z (score t).
Proof.
  intros H. unfold final_score. rewrite H. simpl.
  change (inject_Z 100) with 100. field.
Qed.

Lemma ret_1d_points_cases r :
  ret_1d_points r = 0%Z ∨ ret_1d_points r = 5%Z ∨ ret_1d_points r = 10%Z.
Proof. unfold ret_1d_points. repeat destruct (fgtb _ _); tauto. Qed.

Lemma ret_5d_points_cases r :
  ret_5d_points r = 0%Z ∨ ret_5d_points r = 10%Z ∨ ret_5d_points r = 20%Z.
Proof. unfold ret_5d_points. repeat destruct (fgtb _ _); tauto. Qed.

Lemma ret_20d_points_cases r :
  ret_20d_points r = 0%Z ∨ ret_20d_points r = 10%Z ∨ ret_20d_points r = 20%Z.
Proof. unfold ret_20d_points. repeat destruct (fgtb _ _); tauto. Qed.

(** What the momentum scorer returns on a series of at least 30 rows:
    twice the points of the three windows. *)
Lemma calculate_momentum_score_points (data : PriceSeries) :
  (30 ≤ length data)%nat →
  ∃ ret_1d ret_5d ret_20d,
    pct_return (Close <$> data) 2 = Return ret_1d ∧
    pct_return (Close <$> data) 6 = Return ret_5d ∧
    pct_return (Close <$> data) 21 = Return ret_20d ∧
    calculate_momentum_score data =
      Return {| momentum_score :=
                  inject_Z (2 * (ret_1d_points ret_1d + ret_5d_points ret_5d
                                 + ret_20d_points ret_20d));
                momentum := {[ "return_1d" := fround2 ret_1d;
                               "return_5d" := fround2 ret_5d;
                               "return_20d" := fround2 ret_20d ]} |}.
Proof.
  intros Hlen.
  assert (Hret : ∀ k, (1 ≤ k ≤ 21)%nat → ∃ r, pct_return (Close <$> data) k = Return r).
  { intros k Hk. unfold pct_return.
    destruct (growth_over_in_range (Close <$> data) k) as [g ->].
    - rewrite length_fmap. lia.
    - simpl. eauto. }
  destruct (Hret 2%nat) as [r1 H1]; [lia|].
  destruct (Hret 6%nat) as [r5 H5]; [lia|].
  destruct (Hret 21%nat) as [r20 H20]; [lia|].
  exists r1, r5, r20. repeat (split; [assumption|]).
  unfold calculate_momentum_score.
  assert ((length data <? 30)%nat = false) as -> by (apply Nat.ltb_ge; exact Hlen).
  unfold momentum_tally. rewrite H1, H5, H20. simpl.
  f_equal. f_equal.
  apply round2_of_Z. rewrite final_score_of_50 by reflexivity. simpl.
  replace (0 + ret_1d_points r1 + ret_5d_points r5 + ret_20d_points r20)%Z
    with (ret_1d_points r1 + ret_5d_points r5 + ret_20d_points r20)%Z by lia.
  reflexivity.
Qed.

(** X1.  The momentum scorer never raises, and its score is always a
    multiple of 10 between 0 and 100. *)
Theorem momentum_score_multiple_of_10 (data : PriceSeries) :
  ∃ r n, calculate_momentum_score data = Return r ∧
         momentum_score r = inject_Z (10 * n) ∧ (0 ≤ n ≤ 10)%Z.
Proof.
  destruct (Nat.lt_ge_cases (length data) 30) as [Hlt | Hge].
  - exists momentum_fallback, 5%Z. unfold calculate_momentum_score.
    assert ((length data <? 30)%nat = true) as -> by (apply Nat.ltb_lt; exact Hlt).
    repeat split; try reflexivity; lia.
  - destruct (calculate_momentum_score_points data Hge) as (r1 & r5 & r20 & _ & _ & _ & ->).
    eexists. exists ((ret_1d_points r1 + ret_5d_points r5 + ret_20d_points r20) / 5)%Z.
    split; [reflexivity|].
    destruct (ret_1d_points_cases r1) as [-> | [-> | ->]],
             (ret_5d_points_cases r5) as [-> | [-> | ->]],
             (ret_20d_points_cases r20) as [-> | [-> | ->]];
      (split; [reflexivity | vm_compute; split; discriminate]).
Qed.

Lemma pct_return_value (closes : list Q) (k : nat) (last past : Q) :
  iloc_neg closes 1 = Return last → iloc_neg closes k = Return past → ¬ past == 0 →
  pct_return closes k = Return (Fin ((last - past) / past * 100)).
Proof.
  intros Hlast Hpast Hnz. unfold pct_return, growth_over.
  rewrite Hlast. simpl. rewrite Hpast. simpl.
  destruct (Qeq_bool past 0) eqn:E; [|reflexivity].
  apply Qeq_bool_eq in E. contradiction.
Qed.

Lemma pct_return_positive (last past : Q) :
  0 < past → past < last → 0 < (last - past) / past * 100.
Proof.
  intros Hp Hlt. apply Qmult_lt_0_compat; [|reflexivity].
  apply Qmult_lt_0_compat; [lra | apply Qinv_lt_0_compat, Hp].
Qed.

Lemma pct_return_nonpositive (last past : Q) :
  0 < past → last <= past → (last - past) / past * 100 <= 0.
Proof.
  intros Hp Hle.
  assert (H : 0 <= (past - last) * / past * 100).
  { apply Qmult_le_0_compat; [|discriminate].
    apply Qmult_le_0_compat; [lra | apply Qlt_le_weak, Qinv_lt_0_compat, Hp]. }
  unfold Qdiv. lra.
Qed.

(** X2.  On at least 30 rows whose closes 1, 5 and 20 rows back are
    positive: when the last close is above all three the momentum score
    is at least 50, and when it is above none of them the score is 0. *)
Theorem momentum_score_follows_price (data : PriceSeries) (last c1 c5 c20 : Q) :
  (30 ≤ length data)%nat →
  iloc_neg (Close <$> data) 1 = Return last →
  iloc_neg (Close <$> data) 2 = Return c1 →
  iloc_neg (Close <$> data) 6 = Return c5 →
  iloc_neg (Close <$> data) 21 = Return c20 →
  0 < c1 → 0 < c5 → 0 < c20 →
  ∃ r, calculate_momentum_score data = Return r ∧
       (c1 < last → c5 < last → c20 < last → 50 <= momentum_score r) ∧
       (last <= c1 → last <= c5 → last <= c20 → momentum_score r = 0).
Proof.
  intros Hlen Hlast H1 H5 H20 P1 P5 P20.
  destruct (calculate_momentum_score_points data Hlen) as (r1 & r5 & r20 & E1 & E5 & E20 & ->).
  rewrite (pct_return_value _ _ last c1 Hlast H1) in E1 by lra.
  rewrite (pct_return_value _ _ last c5 Hlast H5) in E5 by lra.
  rewrite (pct_return_value _ _ last c20 Hlast H20) in E20 by lra.
  injection E1 as <-. injection E5 as <-. injection E20 as <-.
  eexists. split; [reflexivity|]. simpl. split.
  - intros L1 L5 L20.
    pose proof (pct_return_positive last c1 P1 L1) as Q1.
    pose proof (pct_return_positive last c5 P5 L5) as Q5.
    pose proof (pct_return_positive last c20 P20 L20) as Q20.
    apply Qltb_lt in Q1, Q5, Q20.
    change 50 with (inject_Z 50). rewrite <- Zle_Qle.
    unfold ret_1d_points, ret_5d_points, ret_20d_points, fgtb, fltb.
    rewrite Q1, Q5, Q20.
    repeat destruct (Qltb _ _); lia.
  - intros L1 L5 L20.
    pose proof (pct_return_nonpositive last c1 P1 L1) as Q1.
    pose proof (pct_return_nonpositive last c5 P5 L5) as Q5.
    pose proof (pct_return_nonpositive last c20 P20 L20) as Q20.
    unfold ret_1d_points, ret_5d_points, ret_20d_points, fgtb, fltb.
    assert (F : ∀ x b, x <= 0 → 0 <= b → Qltb b x = false).
    { intros x b Hx Hb. apply Qltb_ge. lra. }
    rewrite !F by (assumption || discriminate). reflexivity.
Qed.

Lemma momentum_score_follows_price_witness :
  (∃ r, calculate_momentum_score (rising_series 30) = Return r ∧
        50 <= momentum_score r) ∧
  (∃ r, calculate_momentum_score (flat_series 30 10 1000) = Return r ∧
        momentum_score r = 0).
Proof.
  split.
  - destruct (momentum_score_follows_price (rising_series 30) 30 29 25 10)
      as (r & Hr & Hup & _); try reflexivity; try (vm_compute; lia).
    exists r. split; [exact Hr|]. apply Hup; reflexivity.
  - destruct (momentum_score_follows_price (flat_series 30 10 1000) 10 10 10 10)
      as (r & Hr & _ & Hdown); try reflexivity; try (vm_compute; lia).
    exists r. split; [exact Hr|]. apply Hdown; discriminate.
Defined.

(** ** Bounds of the technical and the fundamental score *)

Ltac run_binds H :=
  repeat match type of H with
         | context [mbind _ ?m] =>
             let E := fresh "E" in
             destruct m eqn:E; simpl in H; [|discriminate H]
         end.

Ltac block_within H :=
  run_binds H; injection H as <-; split; simpl; [reflexivity|];
  repeat match goal with
         | |- context [if ?b then _ else _] => destruct b
         end; lia.

Section TechnicalBlocks.
Variables (ta : ta_library) (data : PriceSeries) (t t' : Tally num).

Lemma rsi_block_within : rsi_block ta data t = Return t' → scores_within 20 15 t t'.
Proof.
  unfold rsi_block. intros H. run_binds H. injection H as <-.
  split; simpl; [reflexivity|].
  match goal with |- context [rsi_points ?x] => destruct (rsi_points_cases x) as [-> | ->] end;
    lia.
Qed.

Lemma macd_block_within : macd_block ta data t = Return t' → scores_within 15 15 t t'.
Proof. unfold macd_block, macd_points. intros H. block_within H. Qed.

Lemma ma_block_within : ma_block data t = Return t' → scores_within 25 25 t t'.
Proof. unfold ma_block, ma_points. intros H. block_within H. Qed.

Lemma bb_block_within : bb_block ta data t = Return t' → scores_within 20 20 t t'.
Proof. unfold bb_block, bb_points. intros H. block_within H. Qed.

Lemma volume_block_within : volume_block data t = Return t' → scores_within 10 10 t t'.
Proof. unfold volume_block, volume_points. intros H. block_within H. Qed.

Lemma adx_block_within : adx_block ta data t = Return t' → scores_within 10 10 t t'.
Proof. unfold adx_block, adx_points. intros H. block_within H. Qed.
End TechnicalBlocks.

Lemma technical_tally_within ta data t :
  technical_tally ta data = Return t → max_score t = 100%Z ∧ (0 ≤ score t ≤ 95)%Z.
Proof.
  unfold technical_tally. intros H.
  destruct (rsi_block ta data start) as [t1|] eqn:E1; simpl in H; [|discriminate].
  destruct (macd_block ta data t1) as [t2|] eqn:E2; simpl in H; [|discriminate].
  destruct (ma_block data t2) as [t3|] eqn:E3; simpl in H; [|discriminate].
  destruct (bb_block ta data t3) as [t4|] eqn:E4; simpl in H; [|discriminate].
  destruct (volume_block data t4) as [t5|] eqn:E5; simpl in H; [|discriminate].
  apply rsi_block_within in E1 as [M1 S1]. apply macd_block_within in E2 as [M2 S2].
  apply ma_block_within in E3 as [M3 S3]. apply bb_block_within in E4 as [M4 S4].
  apply volume_block_within in E5 as [M5 S5]. apply adx_block_within in H as [M6 S6].
  simpl in M1, S1. lia.
Qed.

(** X3.  Whatever the indicator library returns or raises, the technical
    scorer returns (it never raises), and its score is a whole number
    between 0 and 95: the full 100 points are out of reach. *)
Theorem technical_score_at_most_95 (ta : ta_library) (data : PriceSeries) :
  ∃ r n, calculate_technical_score ta data = Return r ∧
         technical_score r = inject_Z n ∧ (0 ≤ n ≤ 95)%Z.
Proof.
  unfold calculate_technical_score.
  destruct (length data <? 50)%nat.
  { exists technical_fallback, 50%Z. repeat split; try reflexivity; lia. }
  destruct (technical_tally ta data) as [t|e] eqn:E; simpl.
  - destruct (technical_tally_within ta data t E) as [Hmax Hscore].
    eexists. exists (score t). split; [reflexivity|]. simpl. split; [|exact Hscore].
    apply round2_of_Z, final_score_of_100, Hmax.
  - exists technical_fallback, 50%Z. repeat split; try reflexivity; lia.
Qed.

Ltac pure_block_within :=
  match goal with
  | |- context [get ?m ?k] => destruct (get m k) as [q|]
  end;
  unfold if_truthy, if_not_none; split; simpl;
  repeat match goal with
         | |- context [if ?b then _ else _] => destruct b; simpl
         end; lia.

Section FundamentalBlocks.
Variables (metrics : MetricsMap) (t : Tally Q).

Lemma pe_block_within : scores_within 15 15 t (pe_block metrics t).
Proof. unfold pe_block, pe_points. pure_block_within. Qed.
Lemma peg_block_within : scores_within 15 15 t (peg_block metrics t).
Proof. unfold peg_block, peg_points. pure_block_within. Qed.
Lemma pb_block_within : scores_within 10 10 t (pb_block metrics t).
Proof. unfold pb_block, pb_points. pure_block_within. Qed.
Lemma de_block_within : scores_within 10 10 t (de_block metrics t).
Proof. unfold de_block, de_points. pure_block_within. Qed.
Lemma roe_block_within : scores_within 15 15 t (roe_block metrics t).
Proof. unfold roe_block, roe_points. pure_block_within. Qed.
Lemma margin_block_within : scores_within 10 10 t (margin_block metrics t).
Proof. unfold margin_block, margin_points. pure_block_within. Qed.
Lemma rev_growth_block_within : scores_within 15 15 t (rev_growth_block metrics t).
Proof. unfold rev_growth_block, rev_growth_points. pure_block_within. Qed.
Lemma div_yield_block_within : scores_within 5 5 t (div_yield_block metrics t).
Proof. unfold div_yield_block, div_yield_points. pure_block_within. Qed.
Lemma beta_block_within : scores_within 5 5 t (beta_block metrics t).
Proof. unfold beta_block, beta_points. pure_block_within. Qed.
End FundamentalBlocks.

Lemma fundamental_tally_within (metrics : MetricsMap) :
  max_score (fundamental_tally metrics) = 100%Z ∧
  (0 ≤ score (fundamental_tally metrics) ≤ 100)%Z.
Proof.
  unfold fundamental_tally.
  pose proof (pe_block_within metrics start) as H1.
  revert H1. generalize (pe_block metrics start). intros t1 [M1 S1].
  pose proof (peg_block_within metrics t1) as H2.
  revert H2. generalize (peg_block metrics t1). intros t2 [M2 S2].
  pose proof (pb_block_within metrics t2) as H3.
  revert H3. generalize (pb_block metrics t2). intros t3 [M3 S3].
  pose proof (de_block_within metrics t3) as H4.
  revert H4. generalize (de_block metrics t3). intros t4 [M4 S4].
  pose proof (roe_block_within metrics t4) as H5.
  revert H5. generalize (roe_block metrics t4). intros t5 [M5 S5].
  pose proof (margin_block_within metrics t5) as H6.
  revert H6. generalize (margin_block metrics t5). intros t6 [M6 S6].
  pose proof (rev_growth_block_within metrics t6) as H7.
  revert H7. generalize (rev_growth_block metrics t6). intros t7 [M7 S7].
  pose proof (div_yield_block_within metrics t7) as H8.
  revert H8. generalize (div_yield_block metrics t7). intros t8 [M8 S8].
  pose proof (beta_block_within metrics t8) as H9.
  revert H9. generalize (beta_block metrics t8). intros t9 [M9 S9].
  simpl in M1, S1. lia.
Qed.

(** X4.  Whatever the metrics, the denominator of the fundamental score
    is 100 and the points earned lie between 0 and 100; the score of a
    non-empty map is exactly the points earned (50 for the empty map). *)
Theorem fundamental_score_is_points (metrics : MetricsMap) :
  max_score (fundamental_tally metrics) = 100%Z ∧
  (0 ≤ score (fundamental_tally metrics) ≤ 100)%Z ∧
  fundamental_score (calculate_fundamental_score metrics)
  = inject_Z (if decide (metrics = ∅) then 50 else score (fundamental_tally metrics)).
Proof.
  destruct (fundamental_tally_within metrics) as [Hmax Hscore].
  split; [exact Hmax|]. split; [exact Hscore|].
  destruct (decide (metrics = ∅)) as [-> | Hne]; [reflexivity|].
  rewrite calculate_fundamental_score_nonempty by exact Hne.
  cbn [fundamental_score].
  apply round2_of_Z, final_score_of_100, Hmax.
Qed.

(** ** Fundamentals from the provider *)

Lemma get_financial_metrics_reads (info : gmap string Q) :
  let metrics := get_financial_metrics (Return info) in
  get metrics "pe_ratio" = info !! "trailingPE" ∧
  get metrics "peg_ratio" = info !! "pegRatio" ∧
  get metrics "price_to_book" = info !! "priceToBook" ∧
  get metrics "debt_to_equity" = info !! "debtToEquity" ∧
  get metrics "roe" = info !! "returnOnEquity" ∧
  get metrics "profit_margin" = info !! "profitMargins" ∧
  get metrics "revenue_growth" = info !! "revenueGrowth" ∧
  get metrics "dividend_yield" = info !! "dividendYield" ∧
  get metrics "beta" = info !! "beta".
Proof. repeat split; reflexivity. Qed.

(** X5.  When the provider's [info] has none of the nine fields that are
    scored, the metrics map is still not empty (its 20 keys map to
    [None]) and the fundamental score is 0 with an empty analysis; when
    fetching [info] raises, the map is empty and the score is the neutral
    50. *)
Theorem missing_fundamentals_score_zero (info : gmap string Q) :
  info !! "trailingPE" = None → info !! "pegRatio" = None →
  info !! "priceToBook" = None → info !! "debtToEquity" = None →
  info !! "returnOnEquity" = None → info !! "profitMargins" = None →
  info !! "revenueGrowth" = None → info !! "dividendYield" = None →
  info !! "beta" = None →
  size (get_financial_metrics (Return info)) = 20%nat ∧
  calculate_fundamental_score (get_financial_metrics (Return info))
    = {| fundamental_score := 0; analysis := ∅ |} ∧
  ∀ e, calculate_fundamental_score (get_financial_metrics (Raise e))
       = {| fundamental_score := 50; analysis := ∅ |}.
Proof.
  intros H1 H2 H3 H4 H5 H6 H7 H8 H9.
  split; [|split].
  - unfold get_financial_metrics.
    repeat (rewrite map_size_insert_None;
            [|repeat (rewrite lookup_insert_ne by discriminate); apply lookup_empty]).
    reflexivity.
  - rewrite calculate_fundamental_score_nonempty by apply insert_non_empty.
    destruct (get_financial_metrics_reads info)
      as (G1 & G2 & G3 & G4 & G5 & G6 & G7 & G8 & G9).
    unfold fundamental_tally, pe_block, peg_block, pb_block, de_block, roe_block,
      margin_block, rev_growth_block, div_yield_block, beta_block.
    rewrite G1, G2, G3, G4, G5, G6, G7, G8, G9, H1, H2, H3, H4, H5, H6, H7, H8, H9.
    reflexivity.
  - intros e. reflexivity.
Qed.

Lemma missing_fundamentals_score_zero_witness :
  size (get_financial_metrics (Return {[ "marketCap" := 1000000 ]})) = 20%nat ∧
  calculate_fundamental_score (get_financial_metrics (Return {[ "marketCap" := 1000000 ]}))
    = {| fundamental_score := 0; analysis := ∅ |} ∧
  ∀ e, calculate_fundamental_score (get_financial_metrics (Raise e))
       = {| fundamental_score := 50; analysis := ∅ |}.
Proof.
  apply (missing_fundamentals_score_zero {[ "marketCap" := 1000000 ]}); reflexivity.
Defined.

Lemma get_Some_nonempty (metrics : MetricsMap) k v : get metrics k = Some v → metrics ≠ ∅.
Proof. intros H ->. unfold get in H. rewrite lookup_empty in H. discriminate. Qed.

Lemma if_truthy_nonzero {S} q (branch : Q → S → S) t :
  ¬ q == 0 → if_truthy (Some q) branch t = branch q t.
Proof.
  intros H. unfold if_truthy. destruct (Qeq_bool q 0) eqn:E; [|reflexivity].
  apply Qeq_bool_eq in E. contradiction.
Qed.

Ltac Qcmp_true :=
  repeat match goal with
         | |- context [Qltb ?a ?b] =>
             let E := fresh in
             assert (E : Qltb a b = true) by (apply Qltb_lt; unfold pct in *; lra);
             rewrite E; clear E
         end.

(** X6.  A metrics map with every scored metric in its best tier
    (10 < PE < 25, 0 < PEG < 1, 0 < P/B < 3, D/E < 0.5, ROE > 0.15, margin
    > 0.20, revenue growth > 0.20, dividend yield > 0.02, 0.5 < beta < 1.5)
    scores 100. *)
Theorem best_fundamentals_score_100
    (metrics : MetricsMap) (pe peg pb de roe margin rev_growth div_yield beta : Q) :
  get metrics "pe_ratio" = Some pe → 10 < pe ∧ pe < 25 →
  get metrics "peg_ratio" = Some peg → 0 < peg ∧ peg < 1 →
  get metrics "price_to_book" = Some pb → 0 < pb ∧ pb < 3 →
  get metrics "debt_to_equity" = Some de → de < pct 50 →
  get metrics "roe" = Some roe → pct 15 < roe →
  get metrics "profit_margin" = Some margin → pct 20 < margin →
  get metrics "revenue_growth" = Some rev_growth → pct 20 < rev_growth →
  get metrics "dividend_yield" = Some div_yield → pct 2 < div_yield →
  get metrics "beta" = Some beta → pct 50 < beta ∧ beta < pct 150 →
  fundamental_score (calculate_fundamental_score metrics) = 100.
Proof.
  intros G1 [A1 B1] G2 [A2 B2] G3 [A3 B3] G4 A4 G5 A5 G6 A6 G7 A7 G8 A8 G9 [A9 B9].
  rewrite calculate_fundamental_score_nonempty by exact (get_Some_nonempty _ _ _ G1).
  cbn [fundamental_score].
  apply (round2_of_Z _ 100).
  rewrite final_score_of_100 by apply fundamental_tally_within.
  apply inject_Z_injective. 
  unfold fundamental_tally, pe_block, peg_block, pb_block, de_block, roe_block,
    margin_block, rev_growth_block, div_yield_block, beta_block.
  rewrite G1, G2, G3, G4, G5, G6, G7, G8, G9.
  unfold pct in *.
  rewrite !if_truthy_nonzero by (intros E; rewrite E in *; lra).
  unfold if_not_none, pe_points, peg_points, pb_points, de_points, roe_points,
    margin_points, rev_growth_points, div_yield_points, beta_points, Qgtb.
  Qcmp_true. reflexivity.
Qed.

Lemma best_fundamentals_score_100_witness :
  fundamental_score
    (calculate_fundamental_score
       (<["pe_ratio" := Some 15]> $ <["peg_ratio" := Some (pct 80)]> $
        <["price_to_book" := Some 2]> $ <["debt_to_equity" := Some (pct 30)]> $
        <["roe" := Some (pct 25)]> $ <["profit_margin" := Some (pct 30)]> $
        <["revenue_growth" := Some (pct 25)]> $ <["dividend_yield" := Some (pct 3)]> $
        <["beta" := Some 1]> $ ∅)) = 100.
Proof.
  apply (best_fundamentals_score_100 _ 15 (pct 80) 2 (pct 30) (pct 25) (pct 30)
           (pct 25) (pct 3) 1);
    first [reflexivity | split; reflexivity].
Defined.

(** ** Monotonicity of the rating *)

Lemma determine_rating_monotone (x y : num) :
  rates_below x y → (snd (determine_rating x) ≤ snd (determine_rating y))%Z.
Proof.
  assert (Hmin : ∀ z, (1 ≤ snd (determine_rating z))%Z).
  { intros z. unfold determine_rating.
    repeat (destruct (fgeb z _); [simpl; lia|]). simpl. lia. }
  intros [H | [-> | ->]]; [|apply Hmin | apply Hmin].
  destruct x as [a| | |], y as [b| | |]; simpl in H; try contradiction;
    try apply Hmin; try (vm_compute; discriminate).
  - unfold determine_rating. rewrite !fgeb_Fin.
    destruct (Qgeb a 80) eqn:X80, (Qgeb a 65) eqn:X65, (Qgeb a 50) eqn:X50,
             (Qgeb a 35) eqn:X35, (Qgeb b 80) eqn:Y80, (Qgeb b 65) eqn:Y65,
             (Qgeb b 50) eqn:Y50, (Qgeb b 35) eqn:Y35;
      simpl; try lia;
      repeat match goal with
             | H : Qgeb _ _ = true |- _ => apply Qgeb_le in H
             | H : Qgeb _ _ = false |- _ => apply Qgeb_lt in H
             end; lra.
  - change (snd (determine_rating PInf)) with 5%Z.
    unfold determine_rating.
    repeat (destruct (fgeb (Fin a) _); [simpl; lia|]). simpl. lia.
Qed.

Lemma fadd_rates_below s s' c c' :
  rates_below s s' → num_le c c' → rates_below (fadd s c) (fadd s' c').
Proof.
  unfold rates_below.
  intros [H | [-> | ->]] Hc;
    destruct s' as [a'| | |], c as [b| | |], c' as [b'| | |];
    try (destruct s as [a| | |]); simpl in *; try contradiction;
    try (left; exact I); try (right; left; reflexivity); try (right; right; reflexivity).
  left. lra.
Qed.

Lemma f64_rates_below x y : rates_below x y → rates_below (f64 x) (f64 y).
Proof.
  unfold rates_below. intros [H | [-> | ->]]; [|right; left; reflexivity | right; right; reflexivity].
  destruct x as [a| | |], y as [b| | |]; simpl in H; try contradiction; simpl;
    try (left; exact I); try (right; right; reflexivity).
  - left. apply binary64_monotone, H.
  - pose proof (binary64_not_nan a) as N.
    destruct (binary64 a); simpl; tauto.
Qed.

Lemma weighted_average_monotone (T F S M T' F' S' M' : Q) :
  T <= T' → F <= F' → S <= S' → M <= M' →
  rates_below (weighted_average T F S M) (weighted_average T' F' S' M').
Proof.
  intros HT HF HS HM. unfold weighted_average.
  destruct weights_values as (-> & -> & -> & ->).
  rewrite !f64mul_Fin.
  assert (PT : num_le (binary64 (T * (3152519739159347 # 9007199254740992)))
                      (binary64 (T' * (3152519739159347 # 9007199254740992))))
    by (apply binary64_monotone; lra).
  assert (PF : num_le (binary64 (F * (3152519739159347 # 9007199254740992)))
                      (binary64 (F' * (3152519739159347 # 9007199254740992))))
    by (apply binary64_monotone; lra).
  assert (PS : num_le (binary64 (S * (3602879701896397 # 18014398509481984)))
                      (binary64 (S' * (3602879701896397 # 18014398509481984))))
    by (apply binary64_monotone; lra).
  assert (PM : num_le (binary64 (M * (3602879701896397 # 36028797018963968)))
                      (binary64 (M' * (3602879701896397 # 36028797018963968))))
    by (apply binary64_monotone; lra).
  unfold f64add.
  apply f64_rates_below, fadd_rates_below; [|exact PM].
  apply f64_rates_below, fadd_rates_below; [|exact PS].
  apply f64_rates_below, fadd_rates_below; [|exact PF].
  left. exact PT.
Qed.

(** X7.  Raising component scores never lowers the verdict: when each of
    the four component scores (50 where the key is missing) is at least
    as high in a second call, the second call gives at least as many
    stars. *)
Theorem higher_scores_never_fewer_stars
    (technical fundamental sentiment momentum
     technical' fundamental' sentiment' momentum' : gmap string Q) :
  default 50 (technical !! "score") <= default 50 (technical' !! "score") →
  default 50 (fundamental !! "score") <= default 50 (fundamental' !! "score") →
  default 50 (sentiment !! "overall_sentiment_score")
    <= default 50 (sentiment' !! "overall_sentiment_score") →
  default 50 (momentum !! "score") <= default 50 (momentum' !! "score") →
  (stars (calculate_overall_score technical fundamental sentiment momentum)
   ≤ stars (calculate_overall_score technical' fundamental' sentiment' momentum'))%Z.
Proof.
  intros HT HF HS HM.
  pose proof (calculate_overall_score_rating technical fundamental sentiment momentum) as E.
  pose proof (calculate_overall_score_rating technical' fundamental' sentiment' momentum') as E'.
  apply (f_equal snd) in E, E'. simpl in E, E'. rewrite E, E'.
  apply determine_rating_monotone, weighted_average_monotone; assumption.
Qed.

Lemma higher_scores_never_fewer_stars_witness :
  (stars (calculate_overall_score (scored 40) ∅ (sentiment_scored 60) (scored 70))
   ≤ stars (calculate_overall_score (scored 90) (scored 50) (sentiment_scored 60) (scored 80)))%Z.
Proof.
  apply higher_scores_never_fewer_stars; vm_compute; discriminate.
Defined.

(** ** The entry-point classifier and the buy decision *)

Lemma length_rolling_mean w (s : list Q) : length (rolling_mean w s) = length s.
Proof. unfold rolling_mean. apply length_imap. Qed.

Lemma length_diff_from prev s : length (diff_from prev s) = length s.
Proof. revert prev. induction s as [|x s IH]; intros prev; simpl; [|rewrite IH]; reflexivity. Qed.

Lemma length_diff s : length (diff s) = length s.
Proof. destruct s; simpl; [|rewrite length_diff_from]; reflexivity. Qed.

Lemma length_entry_rsi closes : length (entry_rsi closes) = length closes.
Proof.
  unfold entry_rsi, gains, losses.
  rewrite length_fmap, length_zip_with, !length_rolling_mean, !length_fmap, length_diff.
  lia.
Qed.

(** On a series with at least one row no step of the body raises. *)
Lemma entry_point_body_returns (data : PriceSeries) (score : Q) :
  (1 ≤ length data)%nat →
  ∃ range_position current_rsi current_price sma_20 sma_50 readings,
    entry_point_body data score =
      Return {| entry_signal :=
                  entry_label score
                    (entry_signals range_position current_rsi current_price
                       sma_20 sma_50 score)
                    current_rsi range_position;
                entry_readings := readings;
                signals := Some (entry_signals range_position current_rsi current_price
                                   sma_20 sma_50 score) |}.
Proof.
  intros Hlen. unfold entry_point_body.
  destruct (iloc_neg_in_range (Close <$> data) 1) as [cp ->].
  { rewrite length_fmap. lia. }
  destruct (iloc_neg_in_range (rolling_mean 20 (Close <$> data)) 1) as [s20 ->].
  { rewrite length_rolling_mean, length_fmap. lia. }
  destruct (iloc_neg_in_range (rolling_mean 50 (Close <$> data)) 1) as [s50 ->].
  { rewrite length_rolling_mean, length_fmap. lia. }
  destruct (iloc_neg_in_range (entry_rsi (Close <$> data)) 1) as [rsi ->].
  { rewrite length_entry_rsi, length_fmap. lia. }
  simpl. eexists _, _, _, _, _, _. reflexivity.
Qed.

Lemma fltb_asym x y : fltb x y = true → fltb y x = false.
Proof.
  destruct x as [a| | |], y as [b| | |]; simpl; try reflexivity; try discriminate.
  intros H. apply Qltb_lt in H. apply Qltb_ge. lra.
Qed.

Lemma entry_signals_length rp rsi cp s20 s50 score :
  (length (entry_signals rp rsi cp s20 s50 score) ≤ 3)%nat.
Proof.
  unfold entry_signals, fgtb.
  destruct (fltb cp s20) eqn:E.
  - rewrite (fltb_asym _ _ E). simpl.
    repeat match goal with |- context [if ?b then _ else _] => destruct b end;
      simpl; lia.
  - simpl.
    repeat match goal with |- context [if ?b then _ else _] => destruct b end;
      simpl; lia.
Qed.

Lemma entry_label_cases score sig rsi rp :
  (entry_label score sig rsi rp = "Strong Buy Now" ∧ 70 < score ∧ (2 ≤ length sig)%nat) ∨
  (entry_label score sig rsi rp = "Good Entry Point" ∧ 60 < score) ∨
  (entry_label score sig rsi rp = "Consider Buying" ∧ 50 < score) ∨
  (entry_label score sig rsi rp = "Wait for Better Entry" ∧ score <= 50).
Proof.
  unfold entry_label, Qgtb.
  destruct (Qltb 70 score) eqn:H70, (Qltb 60 score) eqn:H60, (Qltb 50 score) eqn:H50;
    destruct (2 <=? length sig)%nat eqn:Hn;
    destruct (fltb rsi (Fin 40) || fltb rp (Fin 40)); simpl;
    repeat match goal with
           | H : Qltb _ _ = true |- _ => apply Qltb_lt in H
           | H : Qltb _ _ = false |- _ => apply Qltb_ge in H
           | H : (_ <=? _)%nat = true |- _ => apply Nat.leb_le in H
           end;
    auto 10.
Qed.

Lemma entry_point_cases (data : PriceSeries) (score : Q) :
  (50 ≤ length data)%nat →
  ∃ r l, identify_entry_point data score = Return r ∧
         signals r = Some l ∧ (length l ≤ 3)%nat ∧
         ((entry_signal r = "Strong Buy Now" ∧ 70 < score ∧ (2 ≤ length l)%nat) ∨
          (entry_signal r = "Good Entry Point" ∧ 60 < score) ∨
          (entry_signal r = "Consider Buying" ∧ 50 < score) ∨
          (entry_signal r = "Wait for Better Entry" ∧ score <= 50)).
Proof.
  intros Hlen. unfold identify_entry_point.
  assert ((length data <? 50)%nat = false) as -> by (apply Nat.ltb_ge; exact Hlen).
  destruct (entry_point_body_returns data score) as (rp & rsi & cp & s20 & s50 & rd & ->);
    [lia|].
  eexists _, _. split; [reflexivity|]. split; [reflexivity|].
  split; [apply entry_signals_length | apply entry_label_cases].
Qed.

(** X8.  With at least 50 rows the classifier never reports an error,
    lists at most three supporting signals, and its label is bounded by
    the score: "Strong Buy Now" needs a score above 70 and two signals,
    "Good Entry Point" a score above 60, "Consider Buying" a score above
    50, and a score of 50 or less always gives "Wait for Better Entry". *)
Theorem entry_label_bounded_by_score (data : PriceSeries) (score : Q) :
  (50 ≤ length data)%nat →
  ∃ r l, identify_entry_point data score = Return r ∧
         signals r = Some l ∧ (length l ≤ 3)%nat ∧
         ((entry_signal r = "Strong Buy Now" ∧ 70 < score ∧ (2 ≤ length l)%nat) ∨
          (entry_signal r = "Good Entry Point" ∧ 60 < score) ∨
          (entry_signal r = "Consider Buying" ∧ 50 < score) ∨
          (entry_signal r = "Wait for Better Entry" ∧ score <= 50)).
Proof. apply entry_point_cases. Qed.

Lemma entry_label_bounded_by_score_witness :
  ∃ r l, identify_entry_point (falling_series 50) 80 = Return r ∧
         signals r = Some l ∧ (length l ≤ 3)%nat ∧
         ((entry_signal r = "Strong Buy Now" ∧ 70 < 80 ∧ (2 ≤ length l)%nat) ∨
          (entry_signal r = "Good Entry Point" ∧ 60 < 80) ∨
          (entry_signal r = "Consider Buying" ∧ 50 < 80) ∨
          (entry_signal r = "Wait for Better Entry" ∧ 80 <= 50)).
Proof.
  apply (entry_label_bounded_by_score (falling_series 50) 80). vm_compute. lia.
Defined.

(** On the falling series with a score of 80 all three bearish-price
    signals fire and the label is "Strong Buy Now". *)
Example entry_point_on_falling_series :
  ∃ r, identify_entry_point (falling_series 50) 80 = Return r ∧
       entry_signal r = "Strong Buy Now" ∧
       signals r = Some ["Near 52-week low"; "Price below MA with good fundamentals";
                         "RSI oversold"].
Proof. eexists. split; [vm_compute; reflexivity|]. split; reflexivity. Qed.

(** X9.  The decision chain applied to the classifier's own label (both
    are given the same overall score): the recommendation is "NO - Wait"
    unless there are at least 50 rows and the score is at least 60, and
    then it is "YES - Strong Buy" or "YES - Buy"; "MAYBE - Consider" is
    never chosen. *)
Theorem recommendation_is_yes_or_no (data : PriceSeries) (score : Q) :
  ∃ r (strong : bool),
    identify_entry_point data score = Return r ∧
    recommendation score (entry_signal r) =
      if (50 <=? length data)%nat && Qgeb score 60
      then (if strong then "YES - Strong Buy" else "YES - Buy")
      else "NO - Wait".
Proof.
  destruct (Nat.lt_ge_cases (length data) 50) as [Hlt | Hge].
  - exists entry_insufficient, false. unfold identify_entry_point.
    assert ((length data <? 50)%nat = true) as -> by (apply Nat.ltb_lt; exact Hlt).
    assert ((50 <=? length data)%nat = false) as -> by (apply Nat.leb_gt; exact Hlt).
    split; [reflexivity|].
    unfold recommendation.
    destruct (Qgeb score 70), (Qgeb score 60), (Qgeb score 50); reflexivity.
  - destruct (entry_point_cases data score Hge) as (r & l & Hr & _ & _ & Hcases).
    assert ((50 <=? length data)%nat = true) as -> by (apply Nat.leb_le; exact Hge).
    exists r. simpl.
    unfold recommendation.
    destruct Hcases as [(-> & Hs & _) | [(-> & Hs) | [(-> & Hs) | (-> & Hs)]]];
      destruct (Qgeb score 70) eqn:H70, (Qgeb score 60) eqn:H60, (Qgeb score 50) eqn:H50;
      repeat match goal with
             | H : Qgeb _ _ = true |- _ => apply Qgeb_le in H
             | H : Qgeb _ _ = false |- _ => apply Qgeb_lt in H
             end;
      try lra;
      first [ exists true; split; [exact Hr|]; vm_compute; reflexivity
            | exists false; split; [exact Hr|]; vm_compute; reflexivity ].
Qed.

(** ** Confidence of the forecasts *)

Lemma clamp_confidence (v : num) :
  ∃ c, pymax (Fin 0) (pymin (Fin 100) v) = Fin c ∧ 0 <= c ∧ c <= 100 ∧
       (v = NaN → c = 100).
Proof.
  destruct v as [q| | |]; unfold pymax, pymin, fgtb; simpl.
  - destruct (Qltb q 100) eqn:H100; simpl.
    + destruct (Qltb 0 q) eqn:H0.
      * apply Qltb_lt in H100, H0. exists q. repeat split; try lra. discriminate.
      * exists 0. repeat split; try discriminate.
    + exists 100. repeat split; try discriminate.
  - exists 100. repeat split; discriminate.
  - exists 0. repeat split; discriminate.
  - exists 100. repeat split; try discriminate.
Qed.

Lemma short_term_forecast_shape
    (std : list num → num) (data : PriceSeries) (days : Z) :
  (30 ≤ length data)%nat →
  ∃ d c, predict_short_term std data days = Return d ∧
         d !! "confidence" = Some (PFloat (Fin c)) ∧ 0 <= c ∧ c <= 100 ∧
         (std (pct_change (Close <$> data)) = NaN → c = 100) ∧
         (d !! "direction" = Some (PStr "Up") ∨ d !! "direction" = Some (PStr "Down")).
Proof.
  intros Hlen. unfold predict_short_term.
  assert ((length data <? 30)%nat = false) as -> by (apply Nat.ltb_ge; exact Hlen).
  unfold short_term_body.
  destruct (clamp_confidence
              (fsub (Fin 100) (fmul (std (pct_change (Close <$> data))) (Fin 1000))))
    as (c & Hc & H0 & H100 & Hnan).
  set (confidence := pymax _ _) in *. clearbody confidence. subst confidence.
  destruct (iloc_neg_in_range (Close <$> data) 1) as [current_price ->].
  { rewrite length_fmap. lia. }
  simpl.
  match goal with
  | |- context [PStr (if ?b then _ else _)] => set (up := b)
  end.
  eexists. exists (round2 c). split; [reflexivity|].
  split.
  { do 5 (rewrite lookup_insert_ne by discriminate). rewrite lookup_insert_eq. reflexivity. }
  destruct (round2_between 0 100 c) as [R0 R100]; [exact H0 | exact H100 |].
  split; [exact R0|]. split; [exact R100|]. split.
  - intros E. rewrite E in Hnan. rewrite (Hnan eq_refl). reflexivity.
  - do 3 (rewrite lookup_insert_ne by discriminate). rewrite lookup_insert_eq.
    destruct up; [left | right]; reflexivity.
Qed.

(** X10.  With at least 30 rows the short-term forecast is always
    produced (never the error placeholder) and its confidence is a number
    between 0 and 100 whatever the volatility; a volatility that is [nan]
    gives confidence 100. *)
Theorem short_term_confidence_bounded
    (std : list num → num) (data : PriceSeries) (days : Z) :
  (30 ≤ length data)%nat →
  ∃ d c, predict_short_term std data days = Return d ∧
         d !! "confidence" = Some (PFloat (Fin c)) ∧ 0 <= c ∧ c <= 100 ∧
         (std (pct_change (Close <$> data)) = NaN → c = 100) ∧
         (d !! "direction" = Some (PStr "Up") ∨ d !! "direction" = Some (PStr "Down")).
Proof. apply short_term_forecast_shape. Qed.

Lemma short_term_confidence_bounded_witness :
  ∃ d c, predict_short_term std_nan (rising_series 30) 1 = Return d ∧
         d !! "confidence" = Some (PFloat (Fin c)) ∧ 0 <= c ∧ c <= 100 ∧
         (std_nan (pct_change (Close <$> rising_series 30)) = NaN → c = 100) ∧
         (d !! "direction" = Some (PStr "Up") ∨ d !! "direction" = Some (PStr "Down")).
Proof.
  apply (short_term_confidence_bounded std_nan (rising_series 30) 1).
  vm_compute. lia.
Defined.

(** X11.  With at least 100 rows the long-term forecast is always
    produced and its confidence is a number between 0 and 70. *)
Theorem long_term_confidence_at_most_70
    (std : list num → num) (data : PriceSeries) (months : Z) :
  (100 ≤ length data)%nat →
  ∃ d c, predict_long_term std data months = Return d ∧
         d !! "confidence" = Some (PFloat (Fin c)) ∧ 0 <= c ∧ c <= 70 ∧
         (d !! "direction" = Some (PStr "Bullish") ∨
          d !! "direction" = Some (PStr "Bearish")).
Proof.
  intros Hlen. unfold predict_long_term.
  assert ((length data <? 100)%nat = false) as -> by (apply Nat.ltb_ge; exact Hlen).
  unfold long_term_body.
  destruct (clamp_confidence
              (fsub (Fin 100) (fmul (std (pct_change (Close <$> data))) (Fin 800))))
    as (c & Hc & H0 & H100 & _).
  set (confidence := pymax _ _) in *. clearbody confidence. subst confidence.
  destruct (iloc_neg_in_range (Close <$> data) 1) as [current_price ->].
  { rewrite length_fmap. lia. }
  assert (Hg : ∃ g, growth_rates (Close <$> data) = Return g).
  { unfold growth_rates.
    assert (Hk : ∀ k, (1 ≤ k)%nat → (k <=? length (Close <$> data))%nat = true →
                 ∃ g, growth_over (Close <$> data) k = Return g).
    { intros k H1 Hk. apply growth_over_in_range. apply Nat.leb_le in Hk. lia. }
    assert (E63 : (63 <=? length (Close <$> data))%nat = true).
    { apply Nat.leb_le. rewrite length_fmap. lia. }
    rewrite E63. destruct (Hk 63%nat) as [g3 ->]; [lia | exact E63 |].
    cbn [mbind outcome_bind mret outcome_ret].
    destruct (126 <=? length (Close <$> data))%nat eqn:E126;
      [destruct (Hk 126%nat) as [g6 ->]; [lia | exact E126 |]|];
      cbn [mbind outcome_bind mret outcome_ret];
      (destruct (252 <=? length (Close <$> data))%nat eqn:E252;
       [destruct (Hk 252%nat) as [g12 ->]; [lia | exact E252 |]|]);
      cbn [mbind outcome_bind mret outcome_ret]; eexists; reflexivity. }
  destruct Hg as [g ->].
  simpl.
  match goal with
  | |- context [PStr (if ?b then _ else _)] => set (up := b)
  end.
  eexists. exists (round2 (c * pct 70)). split; [reflexivity|].
  split.
  { do 4 (rewrite lookup_insert_ne by discriminate). rewrite lookup_insert_eq. reflexivity. }
  destruct (round2_between 0 70 (c * pct 70)) as [R0 R70].
  { change (inject_Z 0) with 0. unfold pct. lra. }
  { change (inject_Z 70) with 70. unfold pct. lra. }
  split; [exact R0|]. split; [exact R70|].
  do 3 (rewrite lookup_insert_ne by discriminate). rewrite lookup_insert_eq.
  destruct up; [left | right]; reflexivity.
Qed.

Lemma long_term_confidence_at_most_70_witness :
  ∃ d c, predict_long_term std_zero (rising_series 100) 12 = Return d ∧
         d !! "confidence" = Some (PFloat (Fin c)) ∧ 0 <= c ∧ c <= 70 ∧
         (d !! "direction" = Some (PStr "Bullish") ∨
          d !! "direction" = Some (PStr "Bearish")).
Proof.
  apply (long_term_confidence_at_most_70 std_zero (rising_series 100) 12).
  vm_compute. lia.
Defined.

(** ** The long-term forecast on a short history *)




(** ** Risk and reward *)

(** X13.  For a price of normal magnitude (between 2^-1021 and 2^1022, of
    either sign) the risk/reward ratio is within 1e-13 of the ratio of its
    score tier: 3.125 from 80, 1.875 from 70, 1.5 from 65, 1 from 50 and
    1/3 below.  The price enters only through the rounding of
    [stop_loss / current_price]; the returned entry is the ratio rounded to
    two decimals, within 0.005 + 1e-13 of the tier's ratio. *)
Theorem risk_reward_near_tier_value (current_price score : Q) :
  pow2 (-1021) <= Qabs current_price → Qabs current_price <= pow2 1022 →
  ∃ t rr d,
    targets current_price score = Return t ∧ risk_reward t = Fin rr ∧
    Qabs (rr - risk_reward_of score) <= 1 # 10000000000000 ∧
    calculate_target_price current_price score = Return d ∧
    d !! "risk_reward_ratio" = Some (PFloat (binary64 (round2 rr))) ∧
    Qabs (round2 rr - risk_reward_of score) <= (1 # 200) + (1 # 10000000000000).
Proof.
  intros Hlo Hhi.
  destruct (targets_in_range current_price score Hlo Hhi)
    as (tp & sl & rr & dd & Ht & _ & _ & Hrr & _).
  eexists _, rr, _. split; [exact Ht|]. split; [reflexivity|]. split; [exact Hrr|].
  split; [apply (calculate_target_price_of_targets _ _ _ Ht)|]. split.
  - do 4 (rewrite lookup_insert_ne by discriminate). rewrite lookup_singleton_eq.
    reflexivity.
  - pose proof (round2_near rr) as Hn.
    apply Qabs_Qle_condition in Hn as [N1 N2]. apply Qabs_Qle_condition in Hrr as [R1 R2].
    apply Qabs_Qle_condition. split; lra.
Qed.

Lemma risk_reward_near_tier_value_witness :
  ∃ t rr d,
    targets 37 85 = Return t ∧ risk_reward t = Fin rr ∧
    Qabs (rr - risk_reward_of 85) <= 1 # 10000000000000 ∧
    calculate_target_price 37 85 = Return d ∧
    d !! "risk_reward_ratio" = Some (PFloat (binary64 (round2 rr))) ∧
    Qabs (round2 rr - risk_reward_of 85) <= (1 # 200) + (1 # 10000000000000).
Proof.
  apply (risk_reward_near_tier_value 37 85); vm_compute; discriminate.
Defined.

(** The rounding is visible in the result: at a score of 85 the returned
    ratio is 3.12 for a price of 37 and 3.13 for a price of 100, and at a
    score of 50 and a price of 9 the ratio before rounding is just below
    1. *)
Example risk_reward_varies_with_price :
  calculate_target_price 37 85 ≫= (λ d, Return (d !! "risk_reward_ratio"))
    = Return (Some (PFloat (Fin (literal (312 # 100))))) ∧
  calculate_target_price 100 85 ≫= (λ d, Return (d !! "risk_reward_ratio"))
    = Return (Some (PFloat (Fin (literal (313 # 100))))) ∧
  ∃ t rr, targets 9 50 = Return t ∧ risk_reward t = Fin rr ∧ rr < 1.
Proof.
  split; [vm_compute; reflexivity|]. split; [vm_compute; reflexivity|].
  eexists _, _. split; [vm_compute; reflexivity|]. split; [reflexivity|].
  vm_compute. reflexivity.
Qed.

(** ** The sentiment analyzer *)

Lemma recent_return_points_range r : (-20 ≤ recent_return_points r ≤ 20)%Z.
Proof.
  unfold recent_return_points.
  repeat match goal with |- context [if ?b then _ else _] => destruct b end; lia.
Qed.

Lemma volume_ratio_points_range v : (-5 ≤ volume_ratio_points v ≤ 10)%Z.
Proof.
  unfold volume_ratio_points.
  repeat match goal with |- context [if ?b then _ else _] => destruct b end; lia.
Qed.

Lemma trend_points_range cp s20 s50 : (-10 ≤ trend_points cp s20 s50 ≤ 10)%Z.
Proof.
  unfold trend_points.
  repeat match goal with |- context [if ?b then _ else _] => destruct b end; lia.
Qed.

Lemma market_sentiment_range
    (std : list num → num) (sqrt_252 : Q) (data : PriceSeries) :
  ∃ d m, get_market_sentiment_indicators std sqrt_252 data = Return d ∧
         subscript d "market_sentiment" ≫= as_number = Done (Fin (inject_Z m)) ∧
         (15 ≤ m ≤ 90)%Z.
Proof.
  assert (Hfb : ∃ d m, Return market_fallback = Return d ∧
                  subscript d "market_sentiment" ≫= as_number = Done (Fin (inject_Z m)) ∧
                  (15 ≤ m ≤ 90)%Z).
  { exists market_fallback, 50%Z. repeat split; try reflexivity; lia. }
  unfold get_market_sentiment_indicators, market_body.
  destruct (length data <? 20)%nat; [exact Hfb|].
  destruct (growth_over (Close <$> data) 20) as [g|]; [|exact Hfb].
  cbn [mbind outcome_bind].
  destruct (iloc_neg (rolling_mean 20 (Close <$> data)) 1) as [sma_20|]; [|exact Hfb].
  cbn [mbind outcome_bind].
  destruct (if (50 <=? length data)%nat
            then iloc_neg (rolling_mean 50 (Close <$> data)) 1
            else mret sma_20) as [sma_50|]; [|exact Hfb].
  cbn [mbind outcome_bind].
  destruct (iloc_neg (Close <$> data) 1) as [current_price|]; [|exact Hfb].
  cbn [mbind outcome_bind mret outcome_ret try_except].
  set (rp := recent_return_points _). set (vp := volume_ratio_points _).
  set (tp := trend_points _ _ _).
  pose proof (recent_return_points_range (fmul g (Fin 100))) as Hr. fold rp in Hr.
  assert (Hv : (-5 ≤ vp ≤ 10)%Z) by apply volume_ratio_points_range.
  assert (Ht : (-10 ≤ tp ≤ 10)%Z) by apply trend_points_range.
  clearbody rp vp tp.
  eexists. exists (50 + rp + vp + tp)%Z. split; [reflexivity|].
  unfold subscript. rewrite lookup_insert_eq. cbn [mbind attempt_bind as_number].
  split; [|lia].
  do 3 f_equal. lia.
Qed.

(** X14.  The market-sentiment routine never raises, and the sentiment it
    reports is always between 15 and 90: the clamp to [0, 100] never acts,
    and neither end of the scale can be reached. *)
Theorem market_sentiment_between_15_and_90
    (std : list num → num) (sqrt_252 : Q) (data : PriceSeries) :
  ∃ d m, get_market_sentiment_indicators std sqrt_252 data = Return d ∧
         subscript d "market_sentiment" ≫= as_number = Done (Fin (inject_Z m)) ∧
         (15 ≤ m ≤ 90)%Z.
Proof. apply market_sentiment_range. Qed.

Section News.
Variable textblob_sentiment : string → outcome (Q * Q).
Variable yf_news : string → outcome (list Article).

Lemma analyze_text_bounded text :
  polarity_bounded textblob_sentiment →
  -1 <= fst (analyze_text textblob_sentiment text) ∧
  fst (analyze_text textblob_sentiment text) <= 1.
Proof.
  intros Hpol. unfold analyze_text.
  destruct (textblob_sentiment text) as [[p s]|] eqn:E; simpl.
  - exact (Hpol text p s E).
  - split; discriminate.
Qed.

(** The loop keeps one polarity and one count per article. *)
Lemma count_article_loop (articles : list Article) (sentiments : list Q) (p n u : Z) :
  ∃ sentiments' p' n' u',
    foldl (count_article textblob_sentiment) (sentiments, p, n, u) articles
      = (sentiments', p', n', u') ∧
    length sentiments' = (length sentiments + length articles)%nat ∧
    (p' + n' + u' = p + n + u + Z.of_nat (length articles))%Z ∧
    (p ≤ p' ∧ n ≤ n' ∧ u ≤ u')%Z ∧
    (polarity_bounded textblob_sentiment → Forall (λ q, -1 <= q ∧ q <= 1) sentiments →
     Forall (λ q, -1 <= q ∧ q <= 1) sentiments').
Proof.
  revert sentiments p n u.
  induction articles as [|a articles IH]; intros sentiments p n u.
  - exists sentiments, p, n, u. simpl. repeat split; try lia. auto.
  - change (foldl (count_article textblob_sentiment) (sentiments, p, n, u) (a :: articles))
      with (foldl (count_article textblob_sentiment)
              (count_article textblob_sentiment (sentiments, p, n, u) a) articles).
    pose proof (analyze_text_bounded (article_text a)) as Hb.
    remember (count_article textblob_sentiment (sentiments, p, n, u) a) as st eqn:Est.
    unfold count_article in Est.
    destruct (analyze_text textblob_sentiment (article_text a)) as [pol subj].
    simpl in Hb.
    assert (Hs : polarity_bounded textblob_sentiment → Forall (λ q, -1 <= q ∧ q <= 1) sentiments →
                 Forall (λ q, -1 <= q ∧ q <= 1) (sentiments ++ [pol])).
    { intros Hpol Hall. apply Forall_app. split; [exact Hall|].
      constructor; [apply Hb, Hpol | constructor]. }
    destruct (Qgtb pol (pct 10)); [|destruct (Qltb pol (- pct 10))]; subst st;
      match goal with
      | |- context [foldl _ (?s, ?p0, ?n0, ?u0) articles] =>
          destruct (IH s p0 n0 u0) as (s' & p' & n' & u' & E & Hlen & Hsum & Hmono & Hall)
      end;
      exists s', p', n', u'; rewrite length_app in Hlen; simpl in Hlen.
    all: split; [exact E|].
    all: simpl length.
    all: split; [lia|].
    all: split; [lia|].
    all: split; [lia|].
    all: intros Hpol Hin; apply Hall; [exact Hpol | apply Hs; assumption].
Qed.

Lemma Qsum_bounded (l : list Q) :
  Forall (λ q, -1 <= q ∧ q <= 1) l →
  - Qnat (length l) <= Qsum l ∧ Qsum l <= Qnat (length l).
Proof.
  induction 1 as [|q l [Hlo Hhi] _ [IHlo IHhi]].
  - split; discriminate.
  - change (Qsum (q :: l)) with (q + Qsum l).
    assert (E : Qnat (length (q :: l)) == Qnat (length l) + 1).
    { unfold Qnat. simpl length. rewrite Nat2Z.inj_succ, <- Z.add_1_r, inject_Z_plus.
      reflexivity. }
    rewrite E. split; lra.
Qed.

Lemma Qnat_positive n : (1 ≤ n)%nat → 0 < Qnat n.
Proof. intros H. unfold Qnat, Qlt. simpl. lia. Qed.

(** What [get_stock_news_sentiment] returns: always a result of the same
    shape. *)
Lemma news_sentiment_shape (symbol : string) :
  ∃ score count positive negative neutral average,
    get_stock_news_sentiment textblob_sentiment yf_news symbol
      = Return (news_result score count positive negative neutral average) ∧
    (yf_news symbol = Return [] → score = 0) ∧
    (polarity_bounded textblob_sentiment → 0 <= score ∧ score <= 100) ∧
    (∀ news, yf_news symbol = Return news → news ≠ [] →
       count = Z.of_nat (length news) ∧
       (positive + negative + neutral = Z.of_nat (min 20 (length news)))%Z ∧
       (0 ≤ positive ∧ 0 ≤ negative ∧ 0 ≤ neutral)%Z).
Proof.
  unfold get_stock_news_sentiment, news_body.
  destruct (yf_news symbol) as [news|e] eqn:Enews; cbn [mbind outcome_bind].
  2:{ exists 50, 0%Z, 0%Z, 0%Z, 0%Z, 0. split; [reflexivity|].
      split; [discriminate|]. split; [split; discriminate|]. discriminate. }
  destruct news as [|a news].
  { exists 0, 0%Z, 0%Z, 0%Z, 0%Z, 0. split; [reflexivity|].
    split; [reflexivity|]. split; [split; discriminate|].
    intros news' E Hne. injection E as <-. contradiction. }
  set (all := a :: news) in *.
  destruct (count_article_loop (take 20 all) [] 0 0 0)
    as (s & p & n & u & E & Hlen & Hsum & Hmono & Hall).
  rewrite E. simpl in Hlen.
  assert (Hpos : (1 ≤ length s)%nat).
  { rewrite Hlen, length_take. subst all. simpl. lia. }
  destruct s as [|q s]; [simpl in Hpos; lia|].
  set (sentiments := q :: s) in *.
  rewrite pydiv_nonzero.
  2:{ intros Ez. pose proof (Qnat_positive (length sentiments) Hpos) as Hp.
      rewrite Ez in Hp. discriminate. }
  cbn [mbind outcome_bind mret outcome_ret try_except].
  eexists _, _, p, n, u, _. split; [reflexivity|].
  split; [discriminate|]. split.
  - intros Hpol.
    destruct (Qsum_bounded sentiments (Hall Hpol (List.Forall_nil _))) as [Hlo Hhi].
    pose proof (Qnat_positive (length sentiments) Hpos) as Hp.
    assert (H1 : -1 <= Qsum sentiments / Qnat (length sentiments)).
    { apply Qle_shift_div_l; [exact Hp | lra]. }
    assert (H2 : Qsum sentiments / Qnat (length sentiments) <= 1).
    { apply Qle_shift_div_r; [exact Hp | lra]. }
    set (avg := Qsum sentiments / Qnat (length sentiments)) in *.
    assert (Eavg : (avg + 1) / 2 * 100 == (avg + 1) * 50) by field.
    apply round2_range; rewrite Eavg; lra.
  - intros news' Enews' Hne. injection Enews' as <-.
    split; [reflexivity|]. rewrite length_take in Hsum. split; lia.
Qed.
End News.

(** X15.  When the provider returns a non-empty news list, [news_count]
    is the length of the whole list while the positive, negative and
    neutral counts add up to the number of articles analysed, at most 20. *)
Theorem news_counts_cover_first_20
    (textblob_sentiment : string → outcome (Q * Q))
    (yf_news : string → outcome (list Article)) (symbol : string) (news : list Article) :
  yf_news symbol = Return news → news ≠ [] →
  ∃ score positive negative neutral average,
    get_stock_news_sentiment textblob_sentiment yf_news symbol
      = Return (news_result score (Z.of_nat (length news))
                  positive negative neutral average) ∧
    (positive + negative + neutral = Z.of_nat (min 20 (length news)))%Z ∧
    (0 ≤ positive ∧ 0 ≤ negative ∧ 0 ≤ neutral)%Z.
Proof.
  intros Hnews Hne.
  destruct (news_sentiment_shape textblob_sentiment yf_news symbol)
    as (sc & cnt & p & n & u & avg & E & _ & _ & Hcounts).
  destruct (Hcounts news Hnews Hne) as (-> & Hsum & Hpos).
  exists sc, p, n, u, avg. split; [exact E|]. split; assumption.
Qed.

Lemma news_counts_cover_first_20_witness :
  ∃ score positive negative neutral average,
    get_stock_news_sentiment (λ _, Return (pct 50, 0))
      (λ _, Return (replicate 25 {| title := Some "Up"; summary := None |})) "ACME"
      = Return (news_result score (Z.of_nat 25) positive negative neutral average) ∧
    (positive + negative + neutral = Z.of_nat (min 20 25))%Z ∧
    (0 ≤ positive ∧ 0 ≤ negative ∧ 0 ≤ neutral)%Z.
Proof.
  apply (news_counts_cover_first_20 (λ _, Return (pct 50, 0))
           (λ _, Return (replicate 25 {| title := Some "Up"; summary := None |}))
           "ACME" (replicate 25 {| title := Some "Up"; summary := None |}));
    [reflexivity | discriminate].
Defined.

Section OverallSentiment.
Variable textblob_sentiment : string → outcome (Q * Q).
Variable yf_news : string → outcome (list Article).
Variable std : list num → num.
Variable sqrt_252 : Q.

(** The overall sentiment, given the shapes of the two partial results. *)
Lemma get_overall_sentiment_value (symbol : string) (data : PriceSeries) :
  ∃ score count positive negative neutral average market m,
    get_stock_news_sentiment textblob_sentiment yf_news symbol
      = Return (news_result score count positive negative neutral average) ∧
    (yf_news symbol = Return [] → score = 0) ∧
    ((∃ e, yf_news symbol = Raise e) → score = 50) ∧
    (polarity_bounded textblob_sentiment → 0 <= score ∧ score <= 100) ∧
    (15 ≤ m ≤ 90)%Z ∧
    get_overall_sentiment textblob_sentiment yf_news std sqrt_252 symbol data =
      Return (Done
        {| overall_sentiment_score := Fin (round2 (score * pct 40 + inject_Z m * pct 60));
           sentiment_rating :=
             sentiment_rating_of (Fin (score * pct 40 + inject_Z m * pct 60));
           news_sentiment := news_result score count positive negative neutral average;
           market_sentiment := market |}).
Proof.
  destruct (news_sentiment_shape textblob_sentiment yf_news symbol)
    as (sc & cnt & p & n & u & avg & E & Hempty & Hrange & _).
  destruct (market_sentiment_range std sqrt_252 data) as (d & m & Ed & Hm & Hbounds).
  exists sc, cnt, p, n, u, avg, d, m.
  split; [exact E|]. split; [exact Hempty|]. split.
  { intros [e He]. unfold get_stock_news_sentiment, news_body in E.
    rewrite He in E.
    apply (f_equal (λ o : outcome Dict,
                      match o with
                      | Return d => d !! "sentiment_score"
                      | Raise _ => None
                      end)) in E.
    cbn [mbind outcome_bind try_except] in E.
    unfold news_result in E. rewrite !lookup_insert_eq in E. congruence. }
  split; [exact Hrange|]. split; [exact Hbounds|].
  unfold get_overall_sentiment. rewrite E. cbn [mbind outcome_bind].
  rewrite Ed. cbn [mbind outcome_bind mret outcome_ret].
  assert (Hn : subscript (news_result sc cnt p n u avg) "sentiment_score" ≫= as_number
               = Done (Fin sc)) by reflexivity.
  rewrite Hn, Hm. reflexivity.
Qed.

Lemma sentiment_rating_below_60 (x : Q) :
  x < 60 →
  sentiment_rating_of (Fin x) = "Neutral" ∨ sentiment_rating_of (Fin x) = "Bearish" ∨
  sentiment_rating_of (Fin x) = "Very Bearish".
Proof.
  intros H. unfold sentiment_rating_of, fgeb, fltb.
  assert (Qltb x 75 = true) as -> by (apply Qltb_lt; lra).
  assert (Qltb x 60 = true) as -> by (apply Qltb_lt; lra).
  simpl. destruct (Qltb x 40), (Qltb x 25); simpl; tauto.
Qed.

Lemma sentiment_rating_middle (x : Q) :
  25 <= x → x < 75 →
  sentiment_rating_of (Fin x) = "Bullish" ∨ sentiment_rating_of (Fin x) = "Neutral" ∨
  sentiment_rating_of (Fin x) = "Bearish".
Proof.
  intros H25 H75. unfold sentiment_rating_of, fgeb, fltb.
  assert (Qltb x 75 = true) as -> by (apply Qltb_lt; lra).
  assert (Qltb x 25 = false) as -> by (apply Qltb_ge; lra).
  simpl. destruct (Qltb x 60), (Qltb x 40); simpl; tauto.
Qed.

(** X16.  Provided TextBlob keeps its polarities within [-1, 1], the
    overall sentiment is always produced (no callee raises and no
    subscript fails) and its score lies between 9 and 94. *)
Theorem overall_sentiment_between_9_and_94 (symbol : string) (data : PriceSeries) :
  polarity_bounded textblob_sentiment →
  ∃ r s, get_overall_sentiment textblob_sentiment yf_news std sqrt_252 symbol data
           = Return (Done r) ∧
         overall_sentiment_score r = Fin s ∧ 9 <= s ∧ s <= 94.
Proof.
  intros Hpol.
  destruct (get_overall_sentiment_value symbol data)
    as (sc & cnt & p & n & u & avg & d & m & _ & _ & _ & Hrange & Hm & ->).
  destruct (Hrange Hpol) as [H0 H100].
  eexists _, _. split; [reflexivity|]. split; [reflexivity|].
  assert (Hlo : 15 <= inject_Z m) by (change 15 with (inject_Z 15); rewrite <- Zle_Qle; lia).
  assert (Hhi : inject_Z m <= 90) by (change 90 with (inject_Z 90); rewrite <- Zle_Qle; lia).
  apply (round2_between 9 94); unfold pct.
  - change (inject_Z 9) with 9. lra.
  - change (inject_Z 94) with 94. lra.
Qed.

(** X17.  A stock without news is scored 0 for news, not the neutral 50,
    so its overall sentiment is at most 54 and its rating is never better
    than "Neutral", whatever the price history. *)
Theorem no_news_caps_sentiment (symbol : string) (data : PriceSeries) :
  yf_news symbol = Return [] →
  ∃ r s, get_overall_sentiment textblob_sentiment yf_news std sqrt_252 symbol data
           = Return (Done r) ∧
         overall_sentiment_score r = Fin s ∧ 9 <= s ∧ s <= 54 ∧
         (sentiment_rating r = "Neutral" ∨ sentiment_rating r = "Bearish" ∨
          sentiment_rating r = "Very Bearish").
Proof.
  intros E.
  destruct (get_overall_sentiment_value symbol data)
    as (sc & cnt & p & n & u & avg & d & m & _ & Hempty & _ & _ & Hm & ->).
  assert (Hlo : 15 <= inject_Z m) by (change 15 with (inject_Z 15); rewrite <- Zle_Qle; lia).
  assert (Hhi : inject_Z m <= 90) by (change 90 with (inject_Z 90); rewrite <- Zle_Qle; lia).
  eexists _, _. split; [reflexivity|]. split; [reflexivity|].
  cbn [sentiment_rating]. rewrite (Hempty E).
  destruct (round2_between 9 54 (0 * pct 40 + inject_Z m * pct 60)) as [R1 R2].
  { change (inject_Z 9) with 9. unfold pct. lra. }
  { change (inject_Z 54) with 54. unfold pct. lra. }
  split; [exact R1|]. split; [exact R2|].
  apply sentiment_rating_below_60. unfold pct. lra.
Qed.

(** X18.  When the news provider raises, the news score is the neutral
    50: the overall sentiment then lies between 29 and 74 and the rating
    is "Bullish", "Neutral" or "Bearish", never one of the two extremes. *)
Theorem failed_news_keeps_sentiment_moderate
    (symbol : string) (data : PriceSeries) (e : exn) :
  yf_news symbol = Raise e →
  ∃ r s, get_overall_sentiment textblob_sentiment yf_news std sqrt_252 symbol data
           = Return (Done r) ∧
         overall_sentiment_score r = Fin s ∧ 29 <= s ∧ s <= 74 ∧
         (sentiment_rating r = "Bullish" ∨ sentiment_rating r = "Neutral" ∨
          sentiment_rating r = "Bearish").
Proof.
  intros E.
  destruct (get_overall_sentiment_value symbol data)
    as (sc & cnt & p & n & u & avg & d & m & _ & _ & Hfail & _ & Hm & ->).
  assert (Hlo : 15 <= inject_Z m) by (change 15 with (inject_Z 15); rewrite <- Zle_Qle; lia).
  assert (Hhi : inject_Z m <= 90) by (change 90 with (inject_Z 90); rewrite <- Zle_Qle; lia).
  eexists _, _. split; [reflexivity|]. split; [reflexivity|].
  cbn [sentiment_rating]. rewrite (Hfail (ex_intro _ e E)).
  destruct (round2_between 29 74 (50 * pct 40 + inject_Z m * pct 60)) as [R1 R2].
  { change (inject_Z 29) with 29. unfold pct. lra. }
  { change (inject_Z 74) with 74. unfold pct. lra. }
  split; [exact R1|]. split; [exact R2|].
  apply sentiment_rating_middle; unfold pct; lra.
Qed.
End OverallSentiment.

Lemma overall_sentiment_between_9_and_94_witness :
  ∃ r s, get_overall_sentiment (λ _, Return (pct 50, 0))
           (λ _, Return [ {| title := Some "Up"; summary := None |} ])
           std_zero 16 "ACME" (rising_series 30)
           = Return (Done r) ∧
         overall_sentiment_score r = Fin s ∧ 9 <= s ∧ s <= 94.
Proof.
  apply (overall_sentiment_between_9_and_94 (λ _, Return (pct 50, 0))
           (λ _, Return [ {| title := Some "Up"; summary := None |} ])
           std_zero 16 "ACME" (rising_series 30)).
  intros text p s E. injection E as <- _. split; discriminate.
Defined.

Lemma no_news_caps_sentiment_witness :
  ∃ r s, get_overall_sentiment (λ _, Return (pct 50, 0)) (λ _, Return [])
           std_zero 16 "ACME" (rising_series 30)
           = Return (Done r) ∧
         overall_sentiment_score r = Fin s ∧ 9 <= s ∧ s <= 54 ∧
         (sentiment_rating r = "Neutral" ∨ sentiment_rating r = "Bearish" ∨
          sentiment_rating r = "Very Bearish").
Proof.
  apply (no_news_caps_sentiment (λ _, Return (pct 50, 0)) (λ _, Return [])
           std_zero 16 "ACME" (rising_series 30)).
  reflexivity.
Defined.

Lemma failed_news_keeps_sentiment_moderate_witness :
  ∃ r s, get_overall_sentiment (λ _, Return (pct 50, 0)) (λ _, Raise LibraryError)
           std_zero 16 "ACME" (rising_series 30)
           = Return (Done r) ∧
         overall_sentiment_score r = Fin s ∧ 29 <= s ∧ s <= 74 ∧
         (sentiment_rating r = "Bullish" ∨ sentiment_rating r = "Neutral" ∨
          sentiment_rating r = "Bearish").
Proof.
  apply (failed_news_keeps_sentiment_moderate (λ _, Return (pct 50, 0))
           (λ _, Raise LibraryError) std_zero 16 "ACME" (rising_series 30) LibraryError).
  reflexivity.
Defined.

(** ** Picking the gainers *)

Lemma gainers_missing_direction (analyses : list Analysis) (a : Analysis) :
  a ∈ analyses → analysis_tomorrow a !! "direction" = None →
  gainers analyses = Failed (KeyError "direction").
Proof.
  intros Hin Hnone.
  induction analyses as [|x rest IH]; [apply elem_of_nil in Hin; contradiction|].
  simpl. unfold subscript.
  apply elem_of_cons in Hin as [<- | Hin].
  - rewrite Hnone. reflexivity.
  - destruct (analysis_tomorrow x !! "direction"); [|reflexivity].
    cbn [mbind attempt_bind]. rewrite (IH Hin). reflexivity.
Qed.

(** X19.  [get_top_gainers_prediction] reads [direction] from every
    analysis: as soon as one analysed stock has fewer than 30 rows (its
    forecast is the "Insufficient data" placeholder) the selection raises
    [KeyError: 'direction'] instead of skipping that stock. *)
Theorem gainers_raise_on_short_history
    (std : list num → num) (analyses : list Analysis) (a : Analysis)
    (data : PriceSeries) (days : Z) :
  a ∈ analyses →
  (length data < 30)%nat →
  predict_short_term std data days = Return (analysis_tomorrow a) →
  gainers analyses = Failed (KeyError "direction").
Proof.
  intros Hin Hlen Hpred.
  apply (gainers_missing_direction analyses a Hin).
  unfold predict_short_term in Hpred.
  assert ((length data <? 30)%nat = true) as E by (apply Nat.ltb_lt; exact Hlen).
  rewrite E in Hpred.
  apply (f_equal (λ o : outcome Dict,
                    match o with
                    | Return d => d !! "direction"
                    | Raise _ => None
                    end)) in Hpred.
  rewrite <- Hpred. reflexivity.
Qed.

Lemma gainers_raise_on_short_history_witness :
  gainers [ {| symbol := "OLD"; analysis_overall_score := 70;
               analysis_momentum_score := 60;
               analysis_tomorrow := {[ "direction" := PStr "Up" ]} |};
            {| symbol := "NEW"; analysis_overall_score := 70;
               analysis_momentum_score := 50;
               analysis_tomorrow := insufficient_data |} ]
  = Failed (KeyError "direction").
Proof.
  apply (gainers_raise_on_short_history std_zero _
           {| symbol := "NEW"; analysis_overall_score := 70;
              analysis_momentum_score := 50;
              analysis_tomorrow := insufficient_data |}
           (rising_series 10) 1).
  - apply elem_of_cons. right. apply elem_of_cons. left. reflexivity.
  - vm_compute. lia.
  - reflexivity.
Defined.

Lemma gainers_filter (analyses : list Analysis) :
  Forall (λ a, analysis_tomorrow a !! "direction" = Some (PStr "Up") ∨
               analysis_tomorrow a !! "direction" = Some (PStr "Down")) analyses →
  gainers analyses = Done (List.filter is_gainer analyses).
Proof.
  induction 1 as [|a rest Ha _ IH]; [reflexivity|].
  simpl. unfold subscript, is_gainer. rewrite IH.
  destruct Ha as [-> | ->]; cbn [mbind attempt_bind mret attempt_ret];
    destruct (Qgeb (analysis_overall_score a) 50); reflexivity.
Qed.

(** X20.  When every analysed stock has at least 30 rows the selection
    succeeds, and it keeps exactly the analyses whose forecast direction is
    'Up' and whose overall score is at least 50. *)
Theorem gainers_are_up_and_at_least_50
    (std : list num → num) (analyses : list Analysis) :
  Forall (λ a, ∃ data days, (30 ≤ length data)%nat ∧
                 predict_short_term std data days = Return (analysis_tomorrow a))
         analyses →
  ∃ picks, gainers analyses = Done picks ∧
           ∀ a, In a picks ↔
                (In a analyses ∧
                 analysis_tomorrow a !! "direction" = Some (PStr "Up") ∧
                 50 <= analysis_overall_score a).
Proof.
  intros Hall.
  assert (Hdir : Forall (λ a, analysis_tomorrow a !! "direction" = Some (PStr "Up") ∨
                              analysis_tomorrow a !! "direction" = Some (PStr "Down"))
                        analyses).
  { eapply Forall_impl; [exact Hall|].
    intros a (data & days & Hlen & Hpred). simpl.
    destruct (short_term_forecast_shape std data days Hlen)
      as (d & c & Hd & _ & _ & _ & _ & Hud).
    rewrite Hd in Hpred. injection Hpred as <-. exact Hud. }
  exists (List.filter is_gainer analyses). split; [apply gainers_filter, Hdir|].
  intros a. rewrite filter_In. unfold is_gainer.
  split.
  - intros [Hin Hg]. split; [exact Hin|].
    destruct (analysis_tomorrow a !! "direction") as [[s| |]|]; try discriminate.
    apply andb_true_iff in Hg as [Hs Hq]. simpl in Hs.
    apply bool_decide_eq_true in Hs. subst s.
    split; [reflexivity | apply Qgeb_le, Hq].
  - intros (Hin & -> & Hq). split; [exact Hin|].
    simpl. apply Qgeb_le. exact Hq.
Qed.

Lemma gainers_are_up_and_at_least_50_witness :
  ∃ picks,
    gainers [ {| symbol := "UP"; analysis_overall_score := 70;
                 analysis_momentum_score := 60;
                 analysis_tomorrow := doubling_forecast |} ] = Done picks ∧
    ∀ a, In a picks ↔
         (In a [ {| symbol := "UP"; analysis_overall_score := 70;
                    analysis_momentum_score := 60;
                    analysis_tomorrow := doubling_forecast |} ] ∧
          analysis_tomorrow a !! "direction" = Some (PStr "Up") ∧
          50 <= analysis_overall_score a).
Proof.
  apply (gainers_are_up_and_at_least_50 std_zero).
  constructor; [|constructor].
  exists (doubling_series 30), 1%Z. split; [vm_compute; lia|].
  vm_compute. reflexivity.
Defined.

(** ** The entry-point classifier on a flat series *)

Lemma iloc_neg_Forall {A} (P : A → Prop) (s : list A) (k : nat) (a : A) :
  Forall P s → iloc_neg s k = Return a → P a.
Proof.
  intros Hall. unfold iloc_neg. case_bool_decide; [|discriminate].
  destruct (s !! (length s - k)%nat) as [x|] eqn:E; [|discriminate].
  intros [= <-]. exact (Forall_lookup_1 _ _ _ _ Hall E).
Qed.

Lemma iloc_neg_last_lookup {A} (s : list A) (a : A) :
  s !! (length s - 1)%nat = Some a → iloc_neg s 1 = Return a.
Proof.
  intros E. unfold iloc_neg.
  pose proof (lookup_lt_Some _ _ _ E) as Hlt.
  rewrite bool_decide_eq_true_2 by lia. rewrite E. reflexivity.
Qed.

Lemma Qsum_flat (c : Q) (l : list Q) :
  Forall (λ x, x == c) l → Qsum l == Qnat (length l) * c.
Proof.
  induction 1 as [|x l Hx _ IH].
  - unfold Qnat. simpl. ring.
  - change (Qsum (x :: l)) with (x + Qsum l). rewrite IH, Hx.
    unfold Qnat. simpl length. rewrite Nat2Z.inj_succ, <- Z.add_1_r, inject_Z_plus.
    change (inject_Z 1) with 1. ring.
Qed.

(** The last rolling mean of a flat series is the constant. *)
Lemma rolling_mean_flat_last (w : nat) (c : Q) (s : list Q) :
  (1 ≤ w ≤ length s)%nat → Forall (λ x, x == c) s →
  ∃ m, iloc_neg (rolling_mean w s) 1 = Return (Fin m) ∧ m == c.
Proof.
  intros Hw Hall.
  exists (Qsum (take w (drop (length s - w) s)) / Qnat w). split.
  - apply iloc_neg_last_lookup. rewrite length_rolling_mean.
    unfold rolling_mean. rewrite list_lookup_imap.
    destruct (lookup_lt_is_Some_2 s (length s - 1)) as [x ->]; [lia|].
    simpl.
    assert ((length s - 1 + 1 <? w)%nat = false) as -> by (apply Nat.ltb_ge; lia).
    replace (length s - 1 + 1 - w)%nat with (length s - w)%nat by lia.
    reflexivity.
  - rewrite Qsum_flat by (apply Forall_take, Forall_drop, Hall).
    rewrite length_take, length_drop.
    replace (w `min` (length s - (length s - w)))%nat with w by lia.
    field. intros E. unfold Qnat, Qeq in E. simpl in E. lia.
Qed.

Lemma foldl_Qmax2_flat (c x : Q) (l : list Q) :
  x == c → Forall (λ y, y == c) l → foldl Qmax2 x l == c.
Proof.
  intros Hx Hall. revert x Hx.
  induction Hall as [|y l Hy _ IH]; intros x Hx; simpl; [exact Hx|].
  apply IH. unfold Qmax2. destruct (Qle_bool x y); assumption.
Qed.

Lemma foldl_Qmin2_flat (c x : Q) (l : list Q) :
  x == c → Forall (λ y, y == c) l → foldl Qmin2 x l == c.
Proof.
  intros Hx Hall. revert x Hx.
  induction Hall as [|y l Hy _ IH]; intros x Hx; simpl; [exact Hx|].
  apply IH. unfold Qmin2. destruct (Qle_bool x y); assumption.
Qed.

Lemma series_max_flat (c : Q) (s : list Q) :
  (1 ≤ length s)%nat → Forall (λ x, x == c) s → ∃ h, series_max s = Fin h ∧ h == c.
Proof.
  intros Hlen Hall. destruct s as [|x l]; [simpl in Hlen; lia|].
  apply Forall_cons in Hall as [Hx Hl].
  eexists. split; [reflexivity|]. apply foldl_Qmax2_flat; assumption.
Qed.

Lemma series_min_flat (c : Q) (s : list Q) :
  (1 ≤ length s)%nat → Forall (λ x, x == c) s → ∃ h, series_min s = Fin h ∧ h == c.
Proof.
  intros Hlen Hall. destruct s as [|x l]; [simpl in Hlen; lia|].
  apply Forall_cons in Hall as [Hx Hl].
  eexists. split; [reflexivity|]. apply foldl_Qmin2_flat; assumption.
Qed.

(** Zero divided by zero. *)
Lemma fdiv_zero_zero (x y : Q) : x == 0 → y == 0 → fdiv (Fin x) (Fin y) = NaN.
Proof.
  intros Hx Hy. unfold fdiv. rewrite (Qeq_eq_bool _ _ Hy).
  apply Qeq_alt in Hx. rewrite Hx. reflexivity.
Qed.

Lemma diff_from_flat (c prev : Q) (s : list Q) :
  prev == c → Forall (λ x, x == c) s →
  Forall (λ d, match d with Some q => q == 0 | None => True end) (diff_from prev s).
Proof.
  intros Hprev Hall. revert prev Hprev.
  induction Hall as [|x l Hx _ IH]; intros prev Hprev; simpl; constructor.
  - rewrite Hx, Hprev. ring.
  - apply IH, Hx.
Qed.

Lemma diff_flat (c : Q) (s : list Q) :
  Forall (λ x, x == c) s →
  Forall (λ d, match d with Some q => q == 0 | None => True end) (diff s).
Proof.
  intros Hall. destruct s as [|x l]; [constructor|].
  apply Forall_cons in Hall as [Hx Hl]. simpl. constructor; [exact I|].
  apply (diff_from_flat c); assumption.
Qed.

Lemma gains_flat (delta : list (option Q)) :
  Forall (λ d, match d with Some q => q == 0 | None => True end) delta →
  Forall (λ x, x == 0) (gains delta) ∧ Forall (λ x, x == 0) (losses delta).
Proof.
  intros Hall. unfold gains, losses. split; apply Forall_fmap;
    (eapply Forall_impl; [exact Hall|]); intros [q|] Hq; simpl; try reflexivity.
  - destruct (Qgtb q 0); [exact Hq | reflexivity].
  - destruct (Qltb q 0); [rewrite Hq|]; reflexivity.
Qed.

Lemma entry_rsi_flat_last (c : Q) (closes : list Q) :
  (14 ≤ length closes)%nat → Forall (λ x, x == c) closes →
  iloc_neg (entry_rsi closes) 1 = Return NaN.
Proof.
  intros Hlen Hall.
  destruct (gains_flat (diff closes) (diff_flat c closes Hall)) as [Hg Hl].
  assert (Hlg : length (gains (diff closes)) = length closes).
  { unfold gains. rewrite length_fmap. apply length_diff. }
  assert (Hll : length (losses (diff closes)) = length closes).
  { unfold losses. rewrite length_fmap. apply length_diff. }
  destruct (rolling_mean_flat_last 14 0 (gains (diff closes))) as (g & Eg & Hg0);
    [lia | exact Hg |].
  destruct (rolling_mean_flat_last 14 0 (losses (diff closes))) as (l & El & Hl0);
    [lia | exact Hl |].
  apply iloc_neg_last_lookup. rewrite length_entry_rsi.
  unfold entry_rsi. rewrite list_lookup_fmap, lookup_zip_with.
  unfold iloc_neg in Eg, El.
  rewrite length_rolling_mean, Hlg in Eg. rewrite length_rolling_mean, Hll in El.
  rewrite bool_decide_eq_true_2 in Eg, El by lia.
  destruct (rolling_mean 14 (gains (diff closes)) !! (length closes - 1)%nat) as [g'|];
    [|discriminate].
  destruct (rolling_mean 14 (losses (diff closes)) !! (length closes - 1)%nat) as [l'|];
    [|discriminate].
  injection Eg as ->. injection El as ->.
  cbn [fmap option_fmap option_map mbind option_bind mret option_ret].
  rewrite (fdiv_zero_zero g l Hg0 Hl0). reflexivity.
Qed.

(** X21.  On at least 50 rows whose high, low and close all equal one
    constant, the range position and the RSI are [nan] (0/0), no
    supporting signal is listed, and the label follows the score alone:
    "Consider Buying" above 50, otherwise "Wait for Better Entry"; not even
    a score of 100 gives a buy signal. *)
Theorem flat_series_gives_no_entry_signal (data : PriceSeries) (score c : Q) :
  (50 ≤ length data)%nat →
  Forall (λ r, High r == c ∧ Low r == c ∧ Close r == c) data →
  ∃ r, identify_entry_point data score = Return r ∧
       signals r = Some [] ∧
       entry_readings r !! "52w_range_position" = Some NaN ∧
       entry_readings r !! "rsi" = Some NaN ∧
       entry_signal r = (if Qgtb score 50 then "Consider Buying"
                         else "Wait for Better Entry").
Proof.
  intros Hlen Hflat.
  assert (Hc : Forall (λ x, x == c) (Close <$> data)).
  { apply Forall_fmap. eapply Forall_impl; [exact Hflat|]. simpl. tauto. }
  assert (Hh : Forall (λ x, x == c) (High <$> data)).
  { apply Forall_fmap. eapply Forall_impl; [exact Hflat|]. simpl. tauto. }
  assert (Hl : Forall (λ x, x == c) (Low <$> data)).
  { apply Forall_fmap. eapply Forall_impl; [exact Hflat|]. simpl. tauto. }
  unfold identify_entry_point.
  assert ((length data <? 50)%nat = false) as -> by (apply Nat.ltb_ge; exact Hlen).
  unfold entry_point_body.
  destruct (iloc_neg_in_range (Close <$> data) 1) as [cp Ecp].
  { rewrite length_fmap. lia. }
  pose proof (iloc_neg_Forall _ _ _ _ Hc Ecp) as Hcp. simpl in Hcp.
  rewrite Ecp. cbn [mbind outcome_bind].
  destruct (rolling_mean_flat_last 20 c (Close <$> data)) as (m20 & -> & H20);
    [rewrite length_fmap; lia | exact Hc |].
  cbn [mbind outcome_bind].
  destruct (rolling_mean_flat_last 50 c (Close <$> data)) as (m50 & -> & H50);
    [rewrite length_fmap; lia | exact Hc |].
  cbn [mbind outcome_bind].
  rewrite (entry_rsi_flat_last c) by (rewrite ?length_fmap; lia || exact Hc).
  cbn [mbind outcome_bind mret outcome_ret try_except].
  assert (Hhi : ∃ h, (if (252 <=? length data)%nat
                      then series_max (iloc_tail 252 (High <$> data))
                      else series_max (High <$> data)) = Fin h ∧ h == c).
  { destruct (252 <=? length data)%nat eqn:E.
    - apply Nat.leb_le in E. apply series_max_flat.
      + unfold iloc_tail. rewrite length_drop, length_fmap. lia.
      + apply Forall_drop, Hh.
    - apply series_max_flat; [rewrite length_fmap; lia | exact Hh]. }
  assert (Hlo : ∃ h, (if (252 <=? length data)%nat
                      then series_min (iloc_tail 252 (Low <$> data))
                      else series_min (Low <$> data)) = Fin h ∧ h == c).
  { destruct (252 <=? length data)%nat eqn:E.
    - apply Nat.leb_le in E. apply series_min_flat.
      + unfold iloc_tail. rewrite length_drop, length_fmap. lia.
      + apply Forall_drop, Hl.
    - apply series_min_flat; [rewrite length_fmap; lia | exact Hl]. }
  destruct Hhi as (hi & -> & Hhi). destruct Hlo as (lo & -> & Hlo).
  assert (Hrange : fmul (fdiv (fsub (Fin cp) (Fin lo)) (fsub (Fin hi) (Fin lo))) (Fin 100)
                   = NaN).
  { unfold fsub. simpl fneg. simpl fadd.
    rewrite fdiv_zero_zero; [reflexivity | rewrite Hcp, Hlo; ring | rewrite Hhi, Hlo; ring]. }
  rewrite Hrange.
  assert (Hsig : entry_signals NaN NaN (Fin cp) (Fin m20) (Fin m50) score = []).
  { unfold entry_signals, fgtb, fltb.
    assert (Qltb cp m20 = false) as -> by (apply Qltb_ge; rewrite Hcp, H20; apply Qle_refl).
    assert (Qltb m20 cp = false) as -> by (apply Qltb_ge; rewrite Hcp, H20; apply Qle_refl).
    reflexivity. }
  rewrite Hsig.
  eexists. split; [reflexivity|]. split; [reflexivity|].
  split; [reflexivity|]. split; [reflexivity|].
  cbn [entry_signal]. unfold entry_label. simpl.
  rewrite !andb_false_r. reflexivity.
Qed.

Lemma flat_series_gives_no_entry_signal_witness :
  ∃ r, identify_entry_point (flat_series 50 10 1000) 100 = Return r ∧
       signals r = Some [] ∧
       entry_readings r !! "52w_range_position" = Some NaN ∧
       entry_readings r !! "rsi" = Some NaN ∧
       entry_signal r = (if Qgtb 100 50 then "Consider Buying"
                         else "Wait for Better Entry").
Proof.
  apply (flat_series_gives_no_entry_signal (flat_series 50 10 1000) 100 10).
  - vm_compute. lia.
  - apply Forall_forall. intros r Hr. apply elem_of_replicate in Hr as [-> _].
    repeat split; reflexivity.
Defined.
